(** * lxc-unshare: a shallow embedding of [src/lxc/tools/lxc_unshare.c]

    The tool parses its options, creates a child with [lxc_clone] in the
    requested namespaces, optionally writes the child's uid map and releases
    it through an eventfd, moves network interfaces with helper processes and
    finally waits for the child.

    Every call that leaves the file (libc, the kernel, the helpers of liblxc)
    is an event of type [syscall T] whose answer of type [T] is chosen by the
    environment.  A C function becomes a finite tree of such events
    ([prog R]); [exit]/[_exit] and a successful [exec] end the tree, and so
    does [Crash], where the C text leaves the behaviour undefined.

    - [mount_fs], [lxc_setup_fs], [do_start], [usage], [lookup_user] and
      [main] (the option loop [getopt_loop] followed by [launch]) follow the
      C text statement by statement;
    - [runs] gives the traces of one process under every behaviour of the
      environment, [run] the trace under one deterministic environment;
    - [step] and [exec] interleave the parent, the guest and the interface
      helpers over the eventfd counters, for the ordering properties. *)

From Stdlib Require Import ZArith String List Bool Lia Ascii.
Import ListNotations.

Open Scope string_scope.
Open Scope Z_scope.

(** ** Constants of the C environment *)

Definition EXIT_SUCCESS : Z := 0.
Definition EXIT_FAILURE : Z := 1.

(* <sched.h> *)
Definition CLONE_NEWNS   : Z := 0x00020000.
Definition CLONE_NEWUTS  : Z := 0x04000000.
Definition CLONE_NEWIPC  : Z := 0x08000000.
Definition CLONE_NEWUSER : Z := 0x10000000.
Definition CLONE_NEWPID  : Z := 0x20000000.
Definition CLONE_NEWNET  : Z := 0x40000000.

(* <sys/eventfd.h>, <unistd.h> *)
Definition EFD_CLOEXEC : Z := 0x80000.
Definition F_OK : Z := 0.

(* the octal literals 0777 and 0666 *)
Definition mode_0777 : Z := 511.
Definition mode_0666 : Z := 438.

(* sizeof(struct my_iflist): two pointers on LP64; sizeof(uint64_t) *)
Definition sizeof_my_iflist : Z := 16.
Definition sizeof_uint64 : Z := 8.

(* <sys/param.h>: MAXPATHLEN is PATH_MAX, 4096 on Linux *)
Definition MAXPATHLEN : Z := 4096.

(* conf.h: enum idtype *)
Inductive idtype : Type := ID_TYPE_UID | ID_TYPE_GID.

(** C truth value of an [int]. *)
Definition truthy (z : Z) : bool := negb (z =? 0).

(** Characters that a C literal writes with an escape. *)
Definition LF  : string := String (ascii_of_nat 10) EmptyString.
Definition TAB : string := String (ascii_of_nat 9) EmptyString.
Definition DQ  : string := String (ascii_of_nat 34) EmptyString.

(** ** printf's [%d] on a 32-bit argument *)

(** The value of a 32-bit object read as [int]. *)
Definition as_int32 (z : Z) : Z :=
  let m := z mod 2 ^ 32 in if m <? 2 ^ 31 then m else m - 2 ^ 32.

Definition digit_char (d : Z) : ascii := ascii_of_nat (48 + Z.to_nat d).

(** Decimal digits of [n >= 0], most significant first, prepended to [acc].
    Ten digits are enough below [10 ^ 10], so for every 32-bit value. *)
Fixpoint dec_digits (fuel : nat) (n : Z) (acc : string) : string :=
  match fuel with
  | O => acc
  | S fuel' =>
      let acc' := String (digit_char (n mod 10)) acc in
      if n / 10 =? 0 then acc' else dec_digits fuel' (n / 10) acc'
  end.

Definition fmt_d (z : Z) : string :=
  let v := as_int32 z in
  if v <? 0 then "-" ++ dec_digits 10 (- v) "" else dec_digits 10 v "".

(** Reading a decimal numeral back, to state what [fmt_d] prints. *)
Definition digit_val (c : ascii) : Z := Z.of_nat (nat_of_ascii c) - 48.

Fixpoint parse_digits (s : string) (acc : Z) : Z :=
  match s with
  | EmptyString => acc
  | String c s' => parse_digits s' (10 * acc + digit_val c)
  end.

(** ** Data of the program *)

(** [struct start_arg]: the pointers [args], [flags] and [uid] point at locals
    of [main]; the child created by [lxc_clone] sees their values at the time
    of the clone, so the record holds those values. *)
Record start_arg : Type := Build_start_arg {
  args : list string;
  flags : Z;
  uid : Z;
  setuid : bool;
  want_default_mounts : Z;
  wait_fd : Z;
  want_hostname : option string
}.

(** An argument of a [fprintf (stderr, ...)] call; [FStrerror] stands for
    [strerror (errno)]. *)
Inductive farg : Type :=
| FStr (s : string)
| FInt (z : Z)
| FStrerror.

(** ** Events: calls that leave the file *)

Inductive syscall : Type -> Type :=
(* output *)
| Fprintf_stderr (fmt : string) (fargs : list farg) : syscall unit
| Perror (s : string) : syscall unit
(* libc helpers *)
| Basename (path : string) : syscall string
| Sysconf_GETPW_R_SIZE_MAX : syscall Z
| Malloc (size : Z) : syscall bool               (* true: non-NULL *)
| Sscanf_u (s : string) : syscall (option Z)     (* None: fewer than 1 item *)
| Sscanf_s (s : string) : syscall (option string)
| Getpwnam_r (name : string) : syscall (Z * option Z) (* ret, pw_uid of *pwentp *)
| Getpwuid_r (u : Z) : syscall (Z * option Z)
(* liblxc *)
| Lxc_caps_init : syscall Z
| Lxc_namespace_2_std_identifiers (ns : option string) : syscall (Z * option string)
| Lxc_fill_namespace_flags (ns : option string) (fl : Z) : syscall (Z * Z)
| Lxc_clone (arg : start_arg) (fl : Z) : syscall Z
| Write_id_mapping (t : idtype) (pid : Z) (buf : string) (len : Z) : syscall Z
| Wait_for_pid (pid : Z) : syscall Z
(* kernel *)
| Eventfd (initval : Z) (fl : Z) : syscall Z
| FdRead (fd : Z) (count : Z) : syscall Z
| FdWrite (fd : Z) (val : Z) (count : Z) : syscall Z
| FdClose (fd : Z) : syscall Z
| Getuid : syscall Z
| Fork : syscall Z
| Umount (target : string) : syscall Z
| Mount (source target type : string) (mflags : Z) : syscall Z
| Access (path : string) (mode : Z) : syscall Z
| Mkdir (path : string) (mode : Z) : syscall Z
| Sethostname (name : string) (len : Z) : syscall Z
| Setuid (u : Z) : syscall Z.

(** ** Programs *)

Inductive prog (R : Type) : Type :=
| Ret (r : R)                                       (* the function returns *)
| Exit (code : Z)                                   (* exit / _exit *)
| Exec (file : string) (argv : list string) (k : prog R)
                                                    (* exec*p; [k] runs if it fails *)
| Vis (T : Type) (e : syscall T) (k : T -> prog R)
| Crash.                     (* undefined behaviour: the process ends here,
                                abnormally, without a status of its own *)

Arguments Ret {R} r.
Arguments Exit {R} code.
Arguments Exec {R} file argv k.
Arguments Vis {R T} e k.
Arguments Crash {R}.

Fixpoint bind {A B : Type} (p : prog A) (k : A -> prog B) : prog B :=
  match p with
  | Ret a => k a
  | Exit c => Exit c
  | Exec f av h => Exec f av (bind h k)
  | Vis e h => Vis e (fun r => bind (h r) k)
  | Crash => Crash
  end.

Definition trigger {T : Type} (e : syscall T) : prog T := Vis e Ret.

Declare Scope prog_scope.
Delimit Scope prog_scope with prog.
Bind Scope prog_scope with prog.
Notation "x <- p ;; k" := (bind p (fun x => k))
  (at level 61, p at next level, right associativity) : prog_scope.
Notation "' pat <- p ;; k" := (bind p (fun x => match x with pat => k end))
  (at level 61, pat pattern, p at next level, right associativity) : prog_scope.
Notation "p ;; k" := (bind p (fun _ => k))
  (at level 61, right associativity) : prog_scope.
Open Scope prog_scope.

(** [if (c) body] where [body] may leave the process. *)
Definition when (c : bool) (body : prog unit) : prog unit :=
  if c then body else Ret tt.

Definition fprintf_stderr (fmt : string) (fa : list farg) : prog unit :=
  trigger (Fprintf_stderr fmt fa).

(** ** The guest: [mount_fs], [lxc_setup_fs], [do_start] *)

(** The [if (umount (target) < 0)] has no statement of its own, so it governs
    the [if (mount ...)] that follows it. *)
Definition mount_fs (source target type : string) : prog Z :=
  r <- trigger (Umount target) ;;
  if r <? 0 then
    m <- trigger (Mount source target type 0) ;;
    if m <? 0 then Ret (-1) else Ret 0
  else Ret 0.

Definition lxc_setup_fs : prog unit :=
  mount_fs "proc" "/proc" "proc" ;;
  a <- trigger (Access "/dev/shm" F_OK) ;;
  when (truthy a) (trigger (Mkdir "/dev/shm" mode_0777) ;; Ret tt) ;;
  mount_fs "shmfs" "/dev/shm" "tmpfs" ;;
  b <- trigger (Access "/dev/mqueue" F_OK) ;;
  when (truthy b) (trigger (Mkdir "/dev/mqueue" mode_0666) ;; Ret tt) ;;
  mount_fs "mqueue" "/dev/mqueue" "mqueue" ;;
  Ret tt.

Definition is_some {A : Type} (o : option A) : bool :=
  match o with Some _ => true | None => false end.

Definition do_start (a : start_arg) : prog Z :=
  when (setuid a)
    (ret <- trigger (FdRead (wait_fd a) sizeof_uint64) ;;
     when (ret =? -1)
       (trigger (FdClose (wait_fd a)) ;;
        fprintf_stderr ("Failed to read eventfd" ++ LF) [] ;;
        Exit EXIT_FAILURE)) ;;
  when (truthy (Z.land (flags a) CLONE_NEWNS) && truthy (want_default_mounts a))
    lxc_setup_fs ;;
  match want_hostname a with
  | Some h =>
      when (truthy (Z.land (flags a) CLONE_NEWUTS))
        (r <- trigger (Sethostname h (Z.of_nat (String.length h))) ;;
         when (r <? 0)
           (fprintf_stderr ("Failed to set hostname %s: %s" ++ LF) [FStr h; FStrerror] ;;
            Exit EXIT_FAILURE))
  | None => Ret tt
  end ;;
  (if setuid a then
     r <- trigger (Setuid (uid a)) ;;
     when (truthy r)
       (fprintf_stderr ("Failed to set uid %d: %s" ++ LF) [FInt (uid a); FStrerror] ;;
        Exit EXIT_FAILURE)
   else Ret tt) ;;
  Exec (hd "" (args a)) (args a)
    (fprintf_stderr ("Failed to exec: '%s': %s" ++ LF) [FStr (hd "" (args a)); FStrerror] ;;
     Ret 1).

(** ** The parent: [usage], [lookup_user], [main] *)

Definition usage {R : Type} (cmd : string) : prog R :=
  b <- trigger (Basename cmd) ;;
  fprintf_stderr ("%s <options> command [command_arguments]" ++ LF) [FStr b] ;;
  fprintf_stderr ("Options are:" ++ LF) [] ;;
  fprintf_stderr (TAB ++ " -s flags   : ORed list of flags to unshare:" ++ LF
                  ++ TAB ++ "           MOUNT, PID, UTSNAME, IPC, USER, NETWORK" ++ LF) [] ;;
  fprintf_stderr (TAB ++ " -u <id>      : new id to be set if -s USER is specified" ++ LF) [] ;;
  fprintf_stderr (TAB ++ " -i <iface>   : Interface name to be moved into container (presumably with NETWORK unsharing set)" ++ LF) [] ;;
  fprintf_stderr (TAB ++ " -H <hostname>: Set the hostname in the container" ++ LF) [] ;;
  fprintf_stderr (TAB ++ " -d           : Daemonize (do not wait for container to exit)" ++ LF) [] ;;
  fprintf_stderr (TAB ++ " -M           : Remount default fs inside container (/proc /dev/shm /dev/mqueue)" ++ LF) [] ;;
  Exit EXIT_SUCCESS.

Definition strlen (s : string) : Z := Z.of_nat (String.length s).

Definition is_empty_string (s : string) : bool :=
  match s with EmptyString => true | String _ _ => false end.

(** [lookup_user (optarg, &uid)]: the result and the final value of [*uid].
    [optarg = None] is the NULL pointer.  The calls to [free] are left out.
    [sscanf (optarg, "%s", name)] has no field width and [name] is
    [char name[MAXPATHLEN]]: a name of [MAXPATHLEN] characters or more is
    written past the end of the array, which is undefined behaviour. *)
Definition lookup_user (optarg : option string) (uid0 : Z) : prog (bool * Z) :=
  match optarg with
  | None => Ret (false, uid0)
  | Some s =>
      if is_empty_string s then Ret (false, uid0) else
      sz <- trigger Sysconf_GETPW_R_SIZE_MAX ;;
      let bufsize := if sz =? -1 then 1024 else sz in
      buf <- trigger (Malloc bufsize) ;;
      if negb buf then Ret (false, uid0) else
      n <- trigger (Sscanf_u s) ;;
      match n with
      | None =>
          (* not a uid -- perhaps a username *)
          w <- trigger (Sscanf_s s) ;;
          match w with
          | None => Ret (false, uid0)
          | Some name =>
              if MAXPATHLEN <=? strlen name then Crash else
              r <- trigger (Getpwnam_r name) ;;
              match snd r with
              | None =>
                  when (fst r =? 0)
                    (fprintf_stderr ("Could not find matched password record" ++ LF) []) ;;
                  fprintf_stderr ("Invalid username %s" ++ LF) [FStr name] ;;
                  Ret (false, uid0)
              | Some pw_uid => Ret (true, pw_uid)
              end
          end
      | Some u =>
          r <- trigger (Getpwuid_r u) ;;
          match snd r with
          | None =>
              when (fst r =? 0)
                (fprintf_stderr ("Could not find matched password record" ++ LF) []) ;;
              fprintf_stderr ("Invalid uid %u" ++ LF) [FInt u] ;;
              Ret (false, u)
          | Some _ => Ret (true, u)
          end
      end
  end.

(** What [getopt (argc, argv, "s:u:hH:i:dM")] hands to the loop, one value per
    iteration; [Opt_unknown] is its ['?'], for which the [switch] has no
    case: [getopt] returns it for an option character that is not in the
    string and for an option that lacks its argument, such as a [-u] at the
    end of the command line. *)
Inductive getopt_result : Type :=
| Opt_s (optarg : string)
| Opt_u (optarg : string)
| Opt_h
| Opt_H (optarg : string)
| Opt_i (optarg : string)
| Opt_d
| Opt_M
| Opt_unknown.

(** The locals of [main] that the option loop assigns.  [start] is
    [struct start_arg start_arg]; its [args], [flags] and [uid] are the locals
    of [main] of the same names, which the struct points at.  [my_iflist] is
    the linked list, head first. *)
Record main_locals : Type := Build_main_locals {
  namespaces : option string;
  daemonize : Z;
  my_iflist : list string;
  start : start_arg
}.

Definition init_start_arg : start_arg :=
  {| args := []; flags := 0; uid := 0; setuid := false;
     want_default_mounts := 0; wait_fd := 0; want_hostname := None |}.

Definition init_locals : main_locals :=
  {| namespaces := None; daemonize := 0; my_iflist := []; start := init_start_arg |}.

Definition set_start (st : main_locals) (a : start_arg) : main_locals :=
  {| namespaces := namespaces st; daemonize := daemonize st;
     my_iflist := my_iflist st; start := a |}.

Definition set_uid (a : start_arg) (u : Z) (s : bool) : start_arg :=
  {| args := args a; flags := flags a; uid := u; setuid := s;
     want_default_mounts := want_default_mounts a; wait_fd := wait_fd a;
     want_hostname := want_hostname a |}.

Definition set_want_default_mounts (a : start_arg) (v : Z) : start_arg :=
  {| args := args a; flags := flags a; uid := uid a; setuid := setuid a;
     want_default_mounts := v; wait_fd := wait_fd a;
     want_hostname := want_hostname a |}.

Definition set_want_hostname (a : start_arg) (h : option string) : start_arg :=
  {| args := args a; flags := flags a; uid := uid a; setuid := setuid a;
     want_default_mounts := want_default_mounts a; wait_fd := wait_fd a;
     want_hostname := h |}.

Definition set_wait_fd (a : start_arg) (fd : Z) : start_arg :=
  {| args := args a; flags := flags a; uid := uid a; setuid := setuid a;
     want_default_mounts := want_default_mounts a; wait_fd := fd;
     want_hostname := want_hostname a |}.

Definition set_args_flags (a : start_arg) (av : list string) (fl : Z) : start_arg :=
  {| args := av; flags := fl; uid := uid a; setuid := setuid a;
     want_default_mounts := want_default_mounts a; wait_fd := wait_fd a;
     want_hostname := want_hostname a |}.

(** The body of the [switch (opt)]. *)
Definition handle_opt (argv0 : string) (o : getopt_result) (st : main_locals)
  : prog main_locals :=
  match o with
  | Opt_s optarg =>
      Ret {| namespaces := Some optarg; daemonize := daemonize st;
             my_iflist := my_iflist st; start := start st |}
  | Opt_i optarg =>
      tmpif <- trigger (Malloc sizeof_my_iflist) ;;
      if negb tmpif then
        trigger (Perror "malloc") ;; Exit EXIT_FAILURE
      else
        Ret {| namespaces := namespaces st; daemonize := daemonize st;
               my_iflist := optarg :: my_iflist st; start := start st |}
  | Opt_d =>
      Ret {| namespaces := namespaces st; daemonize := 1;
             my_iflist := my_iflist st; start := start st |}
  | Opt_M => Ret (set_start st (set_want_default_mounts (start st) 1))
  | Opt_H optarg => Ret (set_start st (set_want_hostname (start st) (Some optarg)))
  | Opt_h => usage argv0
  | Opt_u optarg =>
      r <- lookup_user (Some optarg) (uid (start st)) ;;
      if negb (fst r) then Exit EXIT_FAILURE
      else Ret (set_start st (set_uid (start st) (snd r) true))
  | Opt_unknown => Ret st
  end.

(** [while ((opt = getopt (...)) != -1) switch (opt) ...] *)
Fixpoint getopt_loop (argv0 : string) (opts : list getopt_result)
    (st : main_locals) : prog main_locals :=
  match opts with
  | [] => Ret st
  | o :: opts' =>
      st' <- handle_opt argv0 o st ;;
      getopt_loop argv0 opts' st'
  end.

Definition is_nil {A : Type} (l : list A) : bool :=
  match l with [] => true | _ :: _ => false end.

(** [snprintf (umap, 100, "%d %d 1\n", *(start_arg.uid), getuid ())] *)
Definition snprintf_umap (target requester : Z) : string :=
  fmt_d target ++ " " ++ fmt_d requester ++ " 1" ++ LF.

(** The [for (tmpif = my_iflist; tmpif; tmpif = tmpif->mi_next)] loop.  Its
    body declares a [pid] of its own, which hides the [pid] of [main] (the
    first parameter here, [main_pid] once it is hidden) until the end of the
    body. *)
Fixpoint move_interfaces (pid : Z) (ifs : list string) : prog unit :=
  match ifs with
  | [] => Ret tt
  | mi_ifname :: mi_next =>
      let main_pid := pid in
      pid <- trigger Fork ;;
      when (pid <? 0)
        (fprintf_stderr ("Failed to move network device " ++ DQ ++ "%s" ++ DQ
                         ++ " to network namespace" ++ LF) [FStr mi_ifname]) ;;
      when (pid =? 0)
        (let buf := fmt_d pid in
         let ret := strlen buf in
         when ((ret <? 0) || (ret >=? 256)) (Exit EXIT_FAILURE) ;;
         Exec "ip" ["ip"; "link"; "set"; "dev"; mi_ifname; "netns"; buf]
           (Exit EXIT_FAILURE)) ;;
      w <- trigger (Wait_for_pid pid) ;;
      when (truthy w)
        (fprintf_stderr ("Could not move interface %s into container %d: %s" ++ LF)
           [FStr mi_ifname; FInt pid; FStrerror]) ;;
      move_interfaces main_pid mi_next
  end.

(** [main], from the test of [argv[optind]] on; [st] holds the locals after
    the option loop and [rest] is [&argv[optind]]. *)
Definition launch (argv0 : string) (st : main_locals) (rest : list string) : prog Z :=
  when (is_nil rest)
    (fprintf_stderr ("A command to execute in the new namespace is required" ++ LF) [] ;;
     Exit EXIT_FAILURE) ;;
  ret <- trigger Lxc_caps_init ;;
  when (truthy ret) (Exit EXIT_FAILURE) ;;
  ns <- trigger (Lxc_namespace_2_std_identifiers (namespaces st)) ;;
  when (fst ns <? 0) (usage argv0) ;;
  fr <- trigger (Lxc_fill_namespace_flags (snd ns) (flags (start st))) ;;
  when (truthy (fst fr)) (usage argv0) ;;
  let fl := snd fr in
  when (negb (truthy (Z.land fl CLONE_NEWNET)) && negb (is_nil (my_iflist st)))
    (fprintf_stderr ("-i <interfacename> needs -s NETWORK option" ++ LF) [] ;;
     Exit EXIT_FAILURE) ;;
  when (negb (truthy (Z.land fl CLONE_NEWUTS)) && is_some (want_hostname (start st)))
    (fprintf_stderr ("-H <hostname> needs -s UTSNAME option" ++ LF) [] ;;
     Exit EXIT_FAILURE) ;;
  when (negb (truthy (Z.land fl CLONE_NEWNS)) && truthy (want_default_mounts (start st)))
    (fprintf_stderr ("-M needs -s MOUNT option" ++ LF) [] ;;
     Exit EXIT_FAILURE) ;;
  fd <- (if setuid (start st) then
           fd <- trigger (Eventfd 0 EFD_CLOEXEC) ;;
           when (fd <? 0)
             (fprintf_stderr ("Failed to create eventfd" ++ LF) [] ;;
              Exit EXIT_FAILURE) ;;
           Ret fd
         else Ret (wait_fd (start st))) ;;
  let sa := set_wait_fd (set_args_flags (start st) rest fl) fd in
  pid <- trigger (Lxc_clone sa fl) ;;
  when (pid <? 0)
    (fprintf_stderr ("Failed to clone" ++ LF) [] ;;
     Exit EXIT_FAILURE) ;;
  when (setuid sa)
    (requester <- trigger Getuid ;;
     let umap := snprintf_umap (uid sa) requester in
     let ret := strlen umap in
     when ((ret <? 0) || (ret >=? 100))
       (trigger (FdClose (wait_fd sa)) ;;
        fprintf_stderr ("snprintf is failed" ++ LF) [] ;;
        Exit EXIT_FAILURE) ;;
     ret <- trigger (Write_id_mapping ID_TYPE_UID pid umap (strlen umap)) ;;
     when (ret <? 0)
       (trigger (FdClose (wait_fd sa)) ;;
        fprintf_stderr ("uid mapping failed" ++ LF) [] ;;
        Exit EXIT_FAILURE) ;;
     ret <- trigger (FdWrite (wait_fd sa) 1 sizeof_uint64) ;;
     when (ret <? 0)
       (trigger (FdClose (wait_fd sa)) ;;
        fprintf_stderr ("Failed to write eventfd" ++ LF) [] ;;
        Exit EXIT_FAILURE)) ;;
  when (negb (is_nil (my_iflist st))) (move_interfaces pid (my_iflist st)) ;;
  when (truthy (daemonize st)) (Exit EXIT_SUCCESS) ;;
  w <- trigger (Wait_for_pid pid) ;;
  when (truthy w)
    (fprintf_stderr ("Failed to wait for '%d'" ++ LF) [FInt pid] ;;
     Exit EXIT_FAILURE) ;;
  Exit EXIT_SUCCESS.

(** [main (argc, argv)]: [argv0] is [argv[0]], [opts] the options as
    [getopt] returns them and [rest] the vector [&argv[optind]]. *)
Definition main (argv0 : string) (opts : list getopt_result) (rest : list string)
  : prog Z :=
  st <- getopt_loop argv0 opts init_locals ;;
  launch argv0 st rest.

(** ** Runs of one process *)

(** One entry of a trace: a call with the answer it got, or an [exec] with
    its success. *)
Inductive event : Type :=
| Ev (T : Type) (e : syscall T) (r : T)
| EvExec (file : string) (argv : list string) (ok : bool).

Arguments Ev {T} e r.

Inductive outcome (R : Type) : Type :=
| Returned (r : R)
| Exited (code : Z)
| Replaced (file : string) (argv : list string)
| Crashed.

Arguments Returned {R} r.
Arguments Exited {R} code.
Arguments Replaced {R} file argv.
Arguments Crashed {R}.

(** [runs p tr out]: some choice of answers makes [p] perform exactly [tr]
    and end as [out]. *)
Fixpoint runs {R : Type} (p : prog R) (tr : list event) (out : outcome R) : Prop :=
  match p with
  | Ret r => tr = [] /\ out = Returned r
  | Exit c => tr = [] /\ out = Exited c
  | Exec f av k =>
      (tr = [EvExec f av true] /\ out = Replaced f av) \/
      (exists tr', tr = EvExec f av false :: tr' /\ runs k tr' out)
  | Vis e k => exists r tr', tr = Ev e r :: tr' /\ runs (k r) tr' out
  | Crash => tr = [] /\ out = Crashed
  end.

(** A deterministic environment: it answers every call, knowing the calls
    made so far (latest first). *)
Record os : Type := Build_os {
  answer : list event -> forall T : Type, syscall T -> T;
  exec_ok : list event -> string -> list string -> bool
}.

Fixpoint run_from {R : Type} (w : os) (past : list event) (p : prog R)
  : list event * outcome R :=
  match p with
  | Ret r => ([], Returned r)
  | Exit c => ([], Exited c)
  | Exec f av k =>
      if exec_ok w past f av then ([EvExec f av true], Replaced f av)
      else let ev := EvExec f av false in
           let res := run_from w (ev :: past) k in
           (ev :: fst res, snd res)
  | Vis e k =>
      let r := answer w past _ e in
      let res := run_from w (Ev e r :: past) (k r) in
      (Ev e r :: fst res, snd res)
  | Crash => ([], Crashed)
  end.

Definition run {R : Type} (w : os) (p : prog R) : list event * outcome R :=
  run_from w [] p.

(** The answers of a quiet machine: every call succeeds with the value the
    code treats as success, nothing is found in the password database, and
    no namespace is selected. *)
Definition default_answer (T : Type) (e : syscall T) : T :=
  match e in syscall T return T with
  | Fprintf_stderr _ _ => tt
  | Perror _ => tt
  | Basename path => path
  | Sysconf_GETPW_R_SIZE_MAX => 1024
  | Malloc _ => true
  | Sscanf_u _ => None
  | Sscanf_s s => Some s
  | Getpwnam_r _ => (0, None)
  | Getpwuid_r _ => (0, None)
  | Lxc_caps_init => 0
  | Lxc_namespace_2_std_identifiers ns => (0, ns)
  | Lxc_fill_namespace_flags _ fl => (0, fl)
  | Lxc_clone _ _ => 4242
  | Write_id_mapping _ _ _ _ => 0
  | Wait_for_pid _ => 0
  | Eventfd _ _ => 3
  | FdRead _ count => count
  | FdWrite _ _ count => count
  | FdClose _ => 0
  | Getuid => 0
  | Fork => 4300
  | Umount _ => 0
  | Mount _ _ _ _ => 0
  | Access _ _ => 0
  | Mkdir _ _ => 0
  | Sethostname _ _ => 0
  | Setuid _ => 0
  end.

(** ** Observations on events *)

Definition is_fs_call {T : Type} (e : syscall T) : bool :=
  match e with
  | Umount _ | Mount _ _ _ _ | Access _ _ | Mkdir _ _ => true
  | _ => false
  end.

(** Calls that create a process: the guest or an interface helper. *)
Definition is_spawn_call {T : Type} (e : syscall T) : bool :=
  match e with
  | Lxc_clone _ _ | Fork => true
  | _ => false
  end.

Definition on_call (f : forall T : Type, syscall T -> bool) (ev : event) : bool :=
  match ev with
  | Ev e _ => f _ e
  | EvExec _ _ _ => false
  end.

Definition is_fs_event : event -> bool := on_call (@is_fs_call).
Definition is_spawn_event : event -> bool := on_call (@is_spawn_call).

Definition not_fs_call (T : Type) (e : syscall T) : bool := negb (is_fs_call e).
Definition not_fs_event (ev : event) : bool := negb (is_fs_event ev).

(** The answer of a call to [fork], if the event is one. *)
Definition fork_answer (ev : event) : option Z :=
  match ev with
  | Ev e r =>
      match e in syscall T return T -> option Z with
      | Fork => fun r => Some r
      | _ => fun _ => None
      end r
  | EvExec _ _ _ => None
  end.

(** The first event of a trace on which [f] answers. *)
Fixpoint first_some {A : Type} (f : event -> option A) (tr : list event) : option A :=
  match tr with
  | [] => None
  | ev :: tr' =>
      match f ev with
      | Some a => Some a
      | None => first_some f tr'
      end
  end.

(** The result of [lxc_namespace_2_std_identifiers]. *)
Definition std_identifiers_ret (ev : event) : option Z :=
  match ev with
  | Ev e r =>
      match e in syscall T return T -> option Z with
      | Lxc_namespace_2_std_identifiers _ => fun r => Some (fst r)
      | _ => fun _ => None
      end r
  | EvExec _ _ _ => None
  end.

(** The result of [lxc_fill_namespace_flags] and the flags it stored. *)
Definition fill_flags_answer (ev : event) : option (Z * Z) :=
  match ev with
  | Ev e r =>
      match e in syscall T return T -> option (Z * Z) with
      | Lxc_fill_namespace_flags _ _ => fun r => Some r
      | _ => fun _ => None
      end r
  | EvExec _ _ _ => None
  end.

(** The argument, the flags and the result of [lxc_clone]. *)
Definition clone_call (ev : event) : option (start_arg * Z * Z) :=
  match ev with
  | Ev e r =>
      match e in syscall T return T -> option (start_arg * Z * Z) with
      | Lxc_clone a fl => fun r => Some (a, fl, r)
      | _ => fun _ => None
      end r
  | EvExec _ _ _ => None
  end.

(** The arguments of [write_id_mapping]. *)
Definition write_id_mapping_call (ev : event) : option (idtype * Z * string * Z) :=
  match ev with
  | Ev e _ =>
      match e with
      | Write_id_mapping t pid buf len => Some (t, pid, buf, len)
      | _ => None
      end
  | EvExec _ _ _ => None
  end.

(** The argument and the result of [wait_for_pid]. *)
Definition wait_for_pid_call (ev : event) : option (Z * Z) :=
  match ev with
  | Ev e r =>
      match e in syscall T return T -> option (Z * Z) with
      | Wait_for_pid pid => fun r => Some (pid, r)
      | _ => fun _ => None
      end r
  | EvExec _ _ _ => None
  end.



(** A [sscanf (optarg, "%s", name)] that read a name of [MAXPATHLEN]
    characters or more, which does not fit [name] with its final 0. *)
Definition overlong_name (ev : event) : bool :=
  match ev with
  | Ev e r =>
      match e in syscall T return T -> bool with
      | Sscanf_s _ => fun r =>
          match r with Some name => MAXPATHLEN <=? strlen name | None => false end
      | _ => fun _ => false
      end r
  | EvExec _ _ _ => false
  end.

(** A run ends in undefined behaviour exactly when it has read such a
    name, and it ends with that call. *)
Definition crash_explained {R : Type} (tr : list event) (out : outcome R) : Prop :=
  (out = Crashed -> exists pre ev, tr = (pre ++ [ev])%list /\ overlong_name ev = true)
  /\ (forall ev, In ev tr -> overlong_name ev = true -> out = Crashed).

(** Calls that only the option loop makes. *)
Definition is_getopt_call {T : Type} (e : syscall T) : bool :=
  match e with
  | Malloc _ | Perror _ | Sysconf_GETPW_R_SIZE_MAX | Sscanf_u _ | Sscanf_s _
  | Getpwnam_r _ | Getpwuid_r _ | Basename _ | Fprintf_stderr _ _ => true
  | _ => false
  end.

(** Calls that [launch] may make. *)
Definition is_launch_call {T : Type} (e : syscall T) : bool :=
  match e with
  | Fprintf_stderr _ _ | Basename _ | Lxc_caps_init
  | Lxc_namespace_2_std_identifiers _ | Lxc_fill_namespace_flags _ _
  | Eventfd _ _ | Lxc_clone _ _ | Getuid | Write_id_mapping _ _ _ _
  | FdWrite _ _ _ | FdClose _ | Fork | Wait_for_pid _ => true
  | _ => false
  end.

(** Calls of the interface loop. *)
Definition is_relocator_call {T : Type} (e : syscall T) : bool :=
  match e with
  | Fprintf_stderr _ _ | Fork | Wait_for_pid _ => true
  | _ => false
  end.

(** The mapping line in the order the specification gives it, requester
    first; used only to compare with [snprintf_umap]. *)
Definition spec_umap_line (requester target : Z) : string :=
  fmt_d requester ++ " " ++ fmt_d target ++ " 1".

(** Calls that [launch] may make once the guest exists, other than
    [write_id_mapping]. *)
Definition is_late_call {T : Type} (e : syscall T) : bool :=
  match e with
  | Fprintf_stderr _ _ | FdWrite _ _ _ | FdClose _ | Fork | Wait_for_pid _ => true
  | _ => false
  end.

(** Calls of [usage]. *)
Definition is_usage_call {T : Type} (e : syscall T) : bool :=
  match e with
  | Basename _ | Fprintf_stderr _ _ => true
  | _ => false
  end.


(** ** A static check of a program tree *)

(** [post Pe Px Pr Pc p]: on every path of [p] each call satisfies [Pe], an
    [exec] is reached only if [Px], the function returns only values in [Pr]
    and leaves the process only with codes in [Pc]; no path ends in
    [Crash]. *)
Fixpoint post {R : Type} (Pe : forall T : Type, syscall T -> bool) (Px : Prop)
    (Pr : R -> Prop) (Pc : Z -> Prop) (p : prog R) : Prop :=
  match p with
  | Ret r => Pr r
  | Exit c => Pc c
  | Exec _ _ k => Px /\ post Pe Px Pr Pc k
  | Vis e k => Pe _ e = true /\ forall r, post Pe Px Pr Pc (k r)
  | Crash => False
  end.

(** [cpost] is [post] for a program that may end in [Crash]. *)
Fixpoint cpost {R : Type} (Pe : forall T : Type, syscall T -> bool) (Px : Prop)
    (Pr : R -> Prop) (Pc : Z -> Prop) (p : prog R) : Prop :=
  match p with
  | Ret r => Pr r
  | Exit c => Pc c
  | Exec _ _ k => Px /\ cpost Pe Px Pr Pc k
  | Vis e k => Pe _ e = true /\ forall r, cpost Pe Px Pr Pc (k r)
  | Crash => True
  end.

Definition event_ok (Pe : forall T : Type, syscall T -> bool) (Px : Prop)
    (ev : event) : Prop :=
  match ev with
  | Ev e _ => Pe _ e = true
  | EvExec _ _ _ => Px
  end.

Definition outcome_ok {R : Type} (Px : Prop) (Pr : R -> Prop) (Pc : Z -> Prop)
    (out : outcome R) : Prop :=
  match out with
  | Returned r => Pr r
  | Exited c => Pc c
  | Replaced _ _ => Px
  | Crashed => False
  end.

Definition coutcome_ok {R : Type} (Px : Prop) (Pr : R -> Prop) (Pc : Z -> Prop)
    (out : outcome R) : Prop :=
  match out with
  | Crashed => True
  | _ => outcome_ok Px Pr Pc out
  end.

(** Sets of exit codes and of return values for [post]. *)
Definition exit_0 (c : Z) : Prop := c = EXIT_SUCCESS.
Definition exit_1 (c : Z) : Prop := c = EXIT_FAILURE.
Definition exit_0_or_1 (c : Z) : Prop := c = EXIT_SUCCESS \/ c = EXIT_FAILURE.
Definition no_value {R : Type} (_ : R) : Prop := False.
Definition any_value {R : Type} (_ : R) : Prop := True.

(** ** Example environments and requests *)

Definition quiet_os : os :=
  {| answer := fun _ => default_answer; exec_ok := fun _ _ _ => true |}.

(** Every call on the filesystem fails, everything else is as in [quiet_os]. *)
Definition no_fs_answer (T : Type) (e : syscall T) : T :=
  match e in syscall T return T with
  | Umount _ => -1
  | Mount _ _ _ _ => -1
  | Access _ _ => -1
  | Mkdir _ _ => -1
  | e' => default_answer _ e'
  end.

Definition no_fs_os : os :=
  {| answer := fun _ => no_fs_answer; exec_ok := fun _ _ _ => true |}.

Definition guest_request : start_arg :=
  {| args := ["/bin/sh"; "-c"; "exit 7"]; flags := Z.lor CLONE_NEWNS CLONE_NEWUTS;
     uid := 1000; setuid := true; want_default_mounts := 1; wait_fd := 3;
     want_hostname := Some "guest" |}.

(** The view of an interface helper: [fork] answers 0; the namespace list
    selects NETWORK. *)
Definition helper_answer (T : Type) (e : syscall T) : T :=
  match e in syscall T return T with
  | Fork => 0
  | Lxc_fill_namespace_flags _ fl => (0, Z.lor fl CLONE_NEWNET)
  | e' => default_answer _ e'
  end.

Definition helper_os : os :=
  {| answer := fun _ => helper_answer; exec_ok := fun _ _ _ => true |}.

(** Root asks for uid 1000 in a new user namespace
    ([lxc-unshare -s USER -u 1000 ...]): the password database knows uid
    1000 and the namespace list selects USER. *)
Definition remap_answer (T : Type) (e : syscall T) : T :=
  match e in syscall T return T with
  | Sscanf_u _ => Some 1000
  | Getpwuid_r _ => (0, Some 1000)
  | Lxc_fill_namespace_flags _ fl => (0, Z.lor fl CLONE_NEWUSER)
  | Getuid => 0
  | e' => default_answer _ e'
  end.

Definition remap_os : os :=
  {| answer := fun _ => remap_answer; exec_ok := fun _ _ _ => true |}.

(** The locals after [-s USER -u 1000]. *)
Definition remap_locals : main_locals :=
  {| namespaces := Some "USER"; daemonize := 0; my_iflist := [];
     start := set_uid init_start_arg 1000 true |}.

(** The same request with MOUNT in place of USER: the guest does not get a
    user namespace of its own, and the kernel refuses the write of its uid
    map. *)
Definition remap_no_user_answer (T : Type) (e : syscall T) : T :=
  match e in syscall T return T with
  | Sscanf_u _ => Some 1000
  | Getpwuid_r _ => (0, Some 1000)
  | Lxc_fill_namespace_flags _ fl => (0, Z.lor fl CLONE_NEWNS)
  | Getuid => 0
  | Write_id_mapping _ _ _ _ => -1
  | e' => default_answer _ e'
  end.

Definition remap_no_user_os : os :=
  {| answer := fun _ => remap_no_user_answer; exec_ok := fun _ _ _ => true |}.

(** The locals after [-s MOUNT -u 1000]. *)
Definition remap_no_user_locals : main_locals :=
  {| namespaces := Some "MOUNT"; daemonize := 0; my_iflist := [];
     start := set_uid init_start_arg 1000 true |}.

(** The namespace list selects PID only. *)
Definition pid_only_answer (T : Type) (e : syscall T) : T :=
  match e in syscall T return T with
  | Lxc_fill_namespace_flags _ fl => (0, Z.lor fl CLONE_NEWPID)
  | e' => default_answer _ e'
  end.

Definition pid_only_os : os :=
  {| answer := fun _ => pid_only_answer; exec_ok := fun _ _ _ => true |}.

(** The locals after [-s PID -i eth0 -H guest -M]. *)
Definition unmet_locals : main_locals :=
  {| namespaces := Some "PID"; daemonize := 0; my_iflist := ["eth0"];
     start := set_want_hostname (set_want_default_mounts init_start_arg 1) (Some "guest") |}.

(** The namespace list is not understood: [lxc_fill_namespace_flags] fails. *)
Definition bogus_ns_answer (T : Type) (e : syscall T) : T :=
  match e in syscall T return T with
  | Lxc_fill_namespace_flags _ fl => (-1, fl)
  | e' => default_answer _ e'
  end.

Definition bogus_ns_os : os :=
  {| answer := fun _ => bogus_ns_answer; exec_ok := fun _ _ _ => true |}.

(** No [-s] at all: [lxc_namespace_2_std_identifiers (NULL)] fails. *)
Definition no_ns_answer (T : Type) (e : syscall T) : T :=
  match e in syscall T return T with
  | Lxc_namespace_2_std_identifiers ns => (-1, ns)
  | e' => default_answer _ e'
  end.

Definition no_ns_os : os :=
  {| answer := fun _ => no_ns_answer; exec_ok := fun _ _ _ => true |}.

(** The guest's [wait_for_pid] reports a failure, as for a guest that ends
    with status 7; the namespace list selects PID. *)
Definition failing_guest_answer (T : Type) (e : syscall T) : T :=
  match e in syscall T return T with
  | Lxc_fill_namespace_flags _ fl => (0, Z.lor fl CLONE_NEWPID)
  | Wait_for_pid _ => -1
  | e' => default_answer _ e'
  end.

Definition failing_guest_os : os :=
  {| answer := fun _ => failing_guest_answer; exec_ok := fun _ _ _ => true |}.

(** The locals after [-s PID]. *)
Definition pid_locals : main_locals :=
  {| namespaces := Some "PID"; daemonize := 0; my_iflist := []; start := init_start_arg |}.

(** A user name of [MAXPATHLEN] characters. *)
Definition overlong_token : string :=
  string_of_list_ascii (repeat "a"%char (Z.to_nat MAXPATHLEN)).

(** The number given to [-u] is not in the password database. *)
Definition unknown_uid_answer (T : Type) (e : syscall T) : T :=
  match e in syscall T return T with
  | Sscanf_u _ => Some 4711
  | Lxc_fill_namespace_flags _ fl => (0, Z.lor fl CLONE_NEWUSER)
  | e' => default_answer _ e'
  end.

Definition unknown_uid_os : os :=
  {| answer := fun _ => unknown_uid_answer; exec_ok := fun _ _ _ => true |}.

(** ** Parent, guest and helpers side by side *)

(** A C function run as a whole process: its return value is the exit
    status ([main], and [do_start] under [lxc_clone]). *)
Definition process (p : prog Z) : prog Z := r <- p ;; Exit r.

Inductive actor : Type :=
| Parent
| Guest (a : start_arg)      (* created by [lxc_clone (do_start, a, ...)] *)
| Helper.                    (* created by [fork] *)

Definition label : Type := (actor * event)%type.

(** The eventfd objects: file descriptor to counter. *)
Definition gates : Type := Z -> option Z.

Definition no_gates : gates := fun _ => None.

Definition set_gate (g : gates) (fd c : Z) : gates :=
  fun fd' => if fd' =? fd then Some c else g fd'.

(** Modelled from the spec: the synchronization primitive of section 6, a
    kernel counter on which "signal" is a write that adds a count and "wait"
    is a blocking read that returns once signaled.  [eventfd_effect g e r] is
    the state of the counters after the call [e] got the answer [r], or
    [None] when the kernel cannot give that answer: a read of an eventfd
    whose counter is 0 does not return, it blocks (or fails with -1); a read
    that returns resets the counter. *)
Definition eventfd_effect (g : gates) {T : Type} (e : syscall T) : T -> option gates :=
  match e in syscall T return T -> option gates with
  | Eventfd initval _ => fun fd =>
      Some (if fd <? 0 then g else set_gate g fd initval)
  | FdWrite fd val _ => fun r =>
      match g fd with
      | Some c => Some (if r <? 0 then g else set_gate g fd (c + val))
      | None => Some g
      end
  | FdRead fd _ => fun r =>
      match g fd with
      | Some c =>
          if r =? -1 then Some g
          else if 0 <? c then Some (set_gate g fd 0)
          else None
      | None => Some g
      end
  | _ => fun _ => Some g
  end.

(** The processes a call creates, given the rest [k] of the caller: the
    guest runs [do_start] on the [start_arg] of the clone; a helper runs the
    rest of its creator with 0 as the result of [fork], which is why 0 is not
    a result in the creator. *)
Definition spawned {T : Type} (e : syscall T)
  : (T -> prog Z) -> T -> option (list (actor * prog Z)) :=
  match e in syscall T return (T -> prog Z) -> T -> option (list (actor * prog Z)) with
  | Lxc_clone a _ => fun _ pid =>
      Some (if pid <? 0 then [] else [(Guest a, process (do_start a))])
  | Fork => fun k pid =>
      if pid =? 0 then None
      else Some (if pid <? 0 then [] else [(Helper, k 0)])
  | _ => fun _ _ => Some []
  end.

(** One step of one process: the event, what is left of the process ([None]
    once another program has replaced it), the counters and the processes
    created. *)
Inductive proc_step (g : gates)
  : prog Z -> event -> option (prog Z) -> gates -> list (actor * prog Z) -> Prop :=
| ps_call (T : Type) (e : syscall T) (k : T -> prog Z) (r : T) g' new :
    eventfd_effect g e r = Some g' ->
    spawned e k r = Some new ->
    proc_step g (Vis e k) (Ev e r) (Some (k r)) g' new
| ps_exec (f : string) (av : list string) (k : prog Z) :
    proc_step g (Exec f av k) (EvExec f av true) None g []
| ps_exec_failed (f : string) (av : list string) (k : prog Z) :
    proc_step g (Exec f av k) (EvExec f av false) (Some k) g [].

Record system : Type := Build_system {
  parent : option (prog Z);
  children : list (actor * option (prog Z));
  gate : gates
}.

Definition started (c : actor * prog Z) : actor * option (prog Z) :=
  (fst c, Some (snd c)).

Fixpoint replace_nth {A : Type} (i : nat) (x : A) (l : list A) {struct l} : list A :=
  match l with
  | [] => []
  | y :: l' =>
      match i with
      | O => x :: l'
      | S i' => y :: replace_nth i' x l'
      end
  end.

(** Any process that can move may move next. *)
Inductive step : system -> label -> system -> Prop :=
| step_parent s p ev p' g' new :
    parent s = Some p ->
    proc_step (gate s) p ev p' g' new ->
    step s (Parent, ev)
      {| parent := p'; children := children s ++ map started new; gate := g' |}
| step_child s i who p ev p' g' new :
    nth_error (children s) i = Some (who, Some p) ->
    proc_step (gate s) p ev p' g' new ->
    step s (who, ev)
      {| parent := parent s;
         children := replace_nth i (who, p') (children s) ++ map started new;
         gate := g' |}.

(** [exec s0 ls s]: the steps [ls], oldest first, lead from [s0] to [s]. *)
Inductive exec (s0 : system) : list label -> system -> Prop :=
| exec_nil : exec s0 [] s0
| exec_step ls s l s' : exec s0 ls s -> step s l s' -> exec s0 (ls ++ [l]) s'.

Definition init_system (argv0 : string) (opts : list getopt_result)
    (rest : list string) : system :=
  {| parent := Some (process (main argv0 opts rest)); children := []; gate := no_gates |}.

(** *** What each side may do, read off the program text *)

Definition is_setuid_call {T : Type} (e : syscall T) : bool :=
  match e with Setuid _ => true | _ => false end.

Definition is_fdwrite_call {T : Type} (e : syscall T) : bool :=
  match e with FdWrite _ _ _ => true | _ => false end.

Definition not_setuid_call (T : Type) (e : syscall T) : bool := negb (is_setuid_call e).

(** The calls of Filesystem-Setup, Hostname-Setup and Identity-Drop. *)
Definition is_bootstrap_call {T : Type} (e : syscall T) : bool :=
  match e with
  | Umount _ | Mount _ _ _ _ | Access _ _ | Mkdir _ _ | Sethostname _ _ | Setuid _ => true
  | _ => false
  end.

(** A bootstrap step of the guest, Exec included. *)
Definition is_bootstrap_event (ev : event) : bool :=
  match ev with
  | Ev e _ => is_bootstrap_call e
  | EvExec _ _ _ => true
  end.

(** Calls that touch neither the counters nor the set of processes. *)
Definition is_quiet_call {T : Type} (e : syscall T) : bool :=
  match e with
  | Eventfd _ _ | Lxc_clone _ _ | Write_id_mapping _ _ _ _ | FdWrite _ _ _ | Fork => false
  | _ => true
  end.

(** A program that makes quiet calls only and never returns. *)
Definition quiet {R : Type} (p : prog R) : Prop :=
  post (@is_quiet_call) True no_value (fun _ => True) p.

(** A successful [write_id_mapping]. *)
Definition map_ok {T : Type} (e : syscall T) : T -> bool :=
  match e in syscall T return T -> bool with
  | Write_id_mapping _ _ _ _ => fun r => negb (r <? 0)
  | _ => fun _ => false
  end.

(** A successful write on the descriptor [fd]. *)
Definition signal_ok (fd : Z) {T : Type} (e : syscall T) : T -> bool :=
  match e in syscall T return T -> bool with
  | FdWrite fd' _ _ => fun r => (fd' =? fd) && negb (r <? 0)
  | _ => fun _ => false
  end.

(** The descriptor of the eventfd created so far, after the call [e]. *)
Definition efd_after (efd : option Z) {T : Type} (e : syscall T) : T -> option Z :=
  match e in syscall T return T -> option Z with
  | Eventfd _ _ => fun fd => if fd <? 0 then efd else Some fd
  | _ => fun _ => efd
  end.

(** What the parent's text guarantees at a call, [k] being the rest of the
    program: the eventfd is created once, with counter 0; a guest that is to
    change identity is cloned with that eventfd as its [wait_fd]; a write on
    a descriptor comes after a successful [write_id_mapping] and is the
    first one; the rest of the program in a forked helper is quiet. *)
Definition call_allowed {R : Type} (efd : option Z) (mapped signaled : bool)
    {T : Type} (e : syscall T) : (T -> prog R) -> Prop :=
  match e in syscall T return (T -> prog R) -> Prop with
  | Eventfd initval _ => fun _ => initval = 0 /\ efd = None
  | Lxc_clone a _ => fun _ => setuid a = true -> efd = Some (wait_fd a)
  | FdWrite _ _ _ => fun _ => mapped = true /\ signaled = false
  | Fork => fun k => quiet (k 0)
  | _ => fun _ => True
  end.

(** [parent_ok Q efd mapped signaled p]: every call of [p] is allowed, given
    the eventfd created so far, whether the uid map has been written and
    whether the eventfd has been written to; [Q] holds where [p] returns. *)
Fixpoint parent_ok {R : Type} (Q : option Z -> bool -> bool -> R -> Prop)
    (efd : option Z) (mapped signaled : bool) (p : prog R) : Prop :=
  match p with
  | Ret r => Q efd mapped signaled r
  | Exit _ => True
  | Exec _ _ k => parent_ok Q efd mapped signaled k
  | Vis e k =>
      call_allowed efd mapped signaled e k
      /\ forall r, parent_ok Q (efd_after efd e r) (mapped || map_ok e r)
                     (signaled || is_fdwrite_call e) (k r)
  | Crash => True
  end.

(** The calls of the guest [a] that must come after the gate: [setuid], and,
    when the identity remap is requested, every bootstrap call. *)
Definition guarded_call (a : start_arg) {T : Type} (e : syscall T) : bool :=
  is_setuid_call e || (setuid a && is_bootstrap_call e).

(** A read of the [wait_fd] of a guest that is to change identity, when it
    did not fail. *)
Definition gate_pass (a : start_arg) {T : Type} (e : syscall T) : T -> bool :=
  match e in syscall T return T -> bool with
  | FdRead fd _ => fun r => setuid a && (fd =? wait_fd a) && negb (r =? -1)
  | _ => fun _ => false
  end.

(** The initial counter of an eventfd that the call creates. *)
Definition eventfd_init {T : Type} (e : syscall T) : option Z :=
  match e with
  | Eventfd initval _ => Some initval
  | _ => None
  end.

(** [guest_ok a open p]: in [p], guarded calls and (with identity remap) the
    exec come only once the gate is open. *)
Fixpoint guest_ok (a : start_arg) (open : bool) (p : prog Z) : Prop :=
  match p with
  | Ret _ | Exit _ | Crash => True
  | Exec _ _ k => (setuid a = true -> open = true) /\ guest_ok a open k
  | Vis e k =>
      (guarded_call a e = true -> open = true)
      /\ forall r, guest_ok a (open || gate_pass a e r) (k r)
  end.

(** *** Observations on labelled steps *)

Definition parent_map_ok (l : label) : bool :=
  match l with
  | (Parent, Ev e r) => map_ok e r
  | _ => false
  end.

Definition parent_fdwrite (l : label) : bool :=
  match l with
  | (Parent, Ev e _) => is_fdwrite_call e
  | _ => false
  end.

Definition parent_signal (fd : Z) (l : label) : bool :=
  match l with
  | (Parent, Ev e r) => signal_ok fd e r
  | _ => false
  end.

(** The step is a guarded step of a guest: the descriptor it waits on. *)
Definition guest_guarded (l : label) : option Z :=
  match l with
  | (Guest a, Ev e _) => if guarded_call a e then Some (wait_fd a) else None
  | (Guest a, EvExec _ _ _) => if setuid a then Some (wait_fd a) else None
  | _ => None
  end.

Definition has (f : label -> bool) (ls : list label) : Prop :=
  exists l, In l ls /\ f l = true.

(** Every guarded step of a guest comes after a successful write of the
    parent on the descriptor the guest waits on. *)
Definition guests_gated (ls : list label) : Prop :=
  forall l1 x l2 fd, ls = (l1 ++ x :: l2)%list -> guest_guarded x = Some fd ->
                     has (parent_signal fd) l1.

(** Every write of the parent on a descriptor is its first one and comes
    after a successful [write_id_mapping] of the parent. *)
Definition signal_after_map (ls : list label) : Prop :=
  forall l1 x l2, ls = (l1 ++ x :: l2)%list -> parent_fdwrite x = true ->
                  has parent_map_ok l1 /\ Forall (fun l => parent_fdwrite l = false) l1.

Definition child_ok (g : gates) (ls : list label) (c : actor * option (prog Z)) : Prop :=
  match c with
  | (_, None) => True
  | (Parent, Some _) => False
  | (Helper, Some p) => quiet p
  | (Guest a, Some p) =>
      quiet p
      /\ (setuid a = true -> g (wait_fd a) <> None)
      /\ exists open, guest_ok a open p
                      /\ (open = true -> has (parent_signal (wait_fd a)) ls)
  end.

(** The invariant of the executions of [init_system]. *)
Definition invariant (ls : list label) (s : system) : Prop :=
  (exists efd mapped signaled,
      match parent s with
      | Some p => parent_ok (fun _ _ _ _ => True) efd mapped signaled p
      | None => True
      end
      /\ (mapped = true -> has parent_map_ok ls)
      /\ (signaled = false -> Forall (fun l => parent_fdwrite l = false) ls)
      /\ (forall fd, efd = Some fd -> gate s fd <> None))
  /\ (forall fd c, gate s fd = Some c -> 0 < c -> has (parent_signal fd) ls)
  /\ Forall (child_ok (gate s) ls) (children s)
  /\ guests_gated ls
  /\ signal_after_map ls.

(** *** An execution with identity remap

    [lxc-unshare -s USER -u 1000 /bin/true] run by root: the parent resolves
    the uid, creates the eventfd 3, clones the guest 4242, writes the uid map
    and the eventfd; the guest reads the eventfd, changes identity and
    execs. *)
Definition gate_guest : start_arg :=
  {| args := ["/bin/true"]; flags := CLONE_NEWUSER; uid := 1000; setuid := true;
     want_default_mounts := 0; wait_fd := 3; want_hostname := None |}.

Definition gate_run_before : list label :=
  [ (Parent, Ev Sysconf_GETPW_R_SIZE_MAX 1024);
    (Parent, Ev (Malloc 1024) true);
    (Parent, Ev (Sscanf_u "1000") (Some 1000));
    (Parent, Ev (Getpwuid_r 1000) (0, Some 1000));
    (Parent, Ev Lxc_caps_init 0);
    (Parent, Ev (Lxc_namespace_2_std_identifiers (Some "USER")) (0, Some "user"));
    (Parent, Ev (Lxc_fill_namespace_flags (Some "user") 0) (0, CLONE_NEWUSER));
    (Parent, Ev (Eventfd 0 EFD_CLOEXEC) 3);
    (Parent, Ev (Lxc_clone gate_guest CLONE_NEWUSER) 4242);
    (Parent, Ev Getuid 0);
    (Parent, Ev (Write_id_mapping ID_TYPE_UID 4242 ("1000 0 1" ++ LF) 9) 0);
    (Parent, Ev (FdWrite 3 1 8) 8);
    (Guest gate_guest, Ev (FdRead 3 8) 8) ].

Definition gate_run_after : list label :=
  [ (Guest gate_guest, EvExec "/bin/true" ["/bin/true"] true);
    (Parent, Ev (Wait_for_pid 4242) 0) ].

Definition gate_run : list label :=
  (gate_run_before ++ (Guest gate_guest, Ev (Setuid 1000) 0) :: gate_run_after)%list.

(** ** Further observations on command lines and traces *)

(** The arguments of the [-i] options, in the order of the command line. *)
Definition opt_interfaces (opts : list getopt_result) : list string :=
  flat_map (fun o => match o with Opt_i optarg => [optarg] | _ => [] end) opts.

(** The argument of the last [-s], or [d] without any. *)
Definition opt_namespaces (opts : list getopt_result) (d : option string)
  : option string :=
  fold_left (fun acc o => match o with Opt_s optarg => Some optarg | _ => acc end)
    opts d.

(** The argument of the last [-H], or [d] without any. *)
Definition opt_hostname (opts : list getopt_result) (d : option string)
  : option string :=
  fold_left (fun acc o => match o with Opt_H optarg => Some optarg | _ => acc end)
    opts d.

Definition is_opt_d (o : getopt_result) : bool :=
  match o with Opt_d => true | _ => false end.

Definition is_opt_M (o : getopt_result) : bool :=
  match o with Opt_M => true | _ => false end.

(** Options whose case in the [switch] makes no call. *)
Definition is_silent_opt (o : getopt_result) : bool :=
  match o with Opt_u _ | Opt_i _ | Opt_h => false | _ => true end.

(** A command line with two interfaces, two namespace lists and two
    hostnames. *)
Definition busy_opts : list getopt_result :=
  [Opt_s "PID"; Opt_i "eth0"; Opt_H "one"; Opt_i "eth1"; Opt_unknown;
   Opt_s "NETWORK|UTSNAME"; Opt_d; Opt_H "two"; Opt_M].

(** What [f] reads off the events of a trace, in order. *)
Definition observed {A : Type} (f : event -> option A) (tr : list event) : list A :=
  flat_map (fun ev => match f ev with Some a => [a] | None => [] end) tr.

(** The parent's view of two interfaces, none of them moved: the first
    [fork] fails, the wait for the second helper fails. *)
Definition failing_helpers_os : os :=
  {| answer := fun (past : list event) (T : Type) (e : syscall T) =>
       match e in syscall T return T with
       | Fork => if is_nil past then (-1) else 4301
       | Wait_for_pid pid => if pid <? 0 then 0 else (-1)
       | e' => default_answer _ e'
       end;
     exec_ok := fun _ _ _ => true |}.

(** A lookup in the password database: by name or by number. *)
Inductive pw_key : Type :=
| ByName (name : string)
| ByUid (u : Z).

Definition pw_lookup (ev : event) : option pw_key :=
  match ev with
  | Ev e _ =>
      match e with
      | Getpwnam_r name => Some (ByName name)
      | Getpwuid_r u => Some (ByUid u)
      | _ => None
      end
  | EvExec _ _ _ => None
  end.

(** What [sscanf (optarg, "%u", uid)] read, if the event is that call. *)
Definition scanned_uid (ev : event) : option (option Z) :=
  match ev with
  | Ev e r =>
      match e in syscall T return T -> option (option Z) with
      | Sscanf_u _ => fun r => Some r
      | _ => fun _ => None
      end r
  | EvExec _ _ _ => None
  end.

(** ** The steps of [do_start] *)

Inductive bootstrap_step : Type :=
| Wait_gate          (* [read (wait_fd, ...)] *)
| Default_mounts     (* the calls of [lxc_setup_fs] *)
| Set_hostname
| Drop_identity      (* [setuid (uid)] *)
| Run_command.       (* [execvp] *)

Definition step_rank (s : bootstrap_step) : nat :=
  match s with
  | Wait_gate => 0
  | Default_mounts => 1
  | Set_hostname => 2
  | Drop_identity => 3
  | Run_command => 4
  end.

(** The step an event of the guest belongs to; messages and [close] belong
    to none. *)
Definition do_start_step (ev : event) : option bootstrap_step :=
  match ev with
  | Ev e _ =>
      match e with
      | FdRead _ _ => Some Wait_gate
      | Umount _ | Mount _ _ _ _ | Access _ _ | Mkdir _ _ => Some Default_mounts
      | Sethostname _ _ => Some Set_hostname
      | Setuid _ => Some Drop_identity
      | _ => None
      end
  | EvExec _ _ _ => Some Run_command
  end.

(** [s] comes before [s']; only the filesystem setup makes several calls. *)
Definition step_before (s s' : bootstrap_step) : Prop :=
  (step_rank s < step_rank s')%nat \/ (s = Default_mounts /\ s' = Default_mounts).

(** The condition under which [do_start] takes a step. *)
Definition requested (a : start_arg) (s : bootstrap_step) : bool :=
  match s with
  | Wait_gate | Drop_identity => setuid a
  | Default_mounts =>
      truthy (Z.land (flags a) CLONE_NEWNS) && truthy (want_default_mounts a)
  | Set_hostname => truthy (Z.land (flags a) CLONE_NEWUTS) && is_some (want_hostname a)
  | Run_command => true
  end.

Definition is_message (ev : event) : bool :=
  match ev with
  | Ev e _ => match e with Fprintf_stderr _ _ => true | _ => false end
  | EvExec _ _ _ => false
  end.

Definition ends_with_message (tr : list event) : Prop :=
  exists pre ev, tr = (pre ++ [ev])%list /\ is_message ev = true.

(** What a step of [do_start] leaves in the trace: its one call when it was
    asked for, nothing otherwise; it goes on, or ends the guest with
    [EXIT_FAILURE] after a message. *)
Definition stage_ok (a : start_arg) (s : bootstrap_step) (t : list event)
    (o : outcome unit) : Prop :=
  observed do_start_step t = (if requested a s then [s] else [])
  /\ (o = Returned tt \/ (o = Exited EXIT_FAILURE /\ ends_with_message t)).

(** The steps of a list come in the order of [do_start]. *)
Fixpoint in_order (l : list bootstrap_step) : Prop :=
  match l with
  | [] => True
  | s :: l' => Forall (step_before s) l' /\ in_order l'
  end.

(** A guest whose hostname cannot be set. *)
Definition no_hostname_os : os :=
  {| answer := fun _ T (e : syscall T) =>
       match e in syscall T return T with
       | Sethostname _ _ => -1
       | e' => default_answer _ e'
       end;
     exec_ok := fun _ _ _ => true |}.

(** A guest whose command cannot be executed. *)
Definition no_exec_os : os :=
  {| answer := fun _ => default_answer; exec_ok := fun _ _ _ => false |}.

(** A guest in a new mount namespace only, by its own uid: a hostname is
    given, but without UTSNAME [do_start] does not look at it. *)
Definition mount_only_request : start_arg :=
  {| args := ["/bin/true"]; flags := CLONE_NEWNS; uid := 0; setuid := false;
     want_default_mounts := 1; wait_fd := -1; want_hostname := Some "guest" |}.

(** ** The calls of [lxc_setup_fs] *)

Definition umount_target (ev : event) : option string :=
  match ev with
  | Ev e _ => match e with Umount target => Some target | _ => None end
  | EvExec _ _ _ => None
  end.

(** The target of an [umount] that failed. *)
Definition failed_umount (ev : event) : option string :=
  match ev with
  | Ev e r =>
      match e in syscall T return T -> option string with
      | Umount target => fun r => if r <? 0 then Some target else None
      | _ => fun _ => None
      end r
  | EvExec _ _ _ => None
  end.

Definition mount_call (ev : event) : option (string * string * string) :=
  match ev with
  | Ev e _ =>
      match e with
      | Mount source target type _ => Some (source, target, type)
      | _ => None
      end
  | EvExec _ _ _ => None
  end.

(** The path that an [access] did not find. *)
Definition failed_access (ev : event) : option string :=
  match ev with
  | Ev e r =>
      match e in syscall T return T -> option string with
      | Access path _ => fun r => if truthy r then Some path else None
      | _ => fun _ => None
      end r
  | EvExec _ _ _ => None
  end.

Definition mkdir_path (ev : event) : option string :=
  match ev with
  | Ev e _ => match e with Mkdir path _ => Some path | _ => None end
  | EvExec _ _ _ => None
  end.

(** Source, target and type of the three mounts of [lxc_setup_fs]. *)
Definition default_mounts : list (string * string * string) :=
  [("proc", "/proc", "proc"); ("shmfs", "/dev/shm", "tmpfs");
   ("mqueue", "/dev/mqueue", "mqueue")].

Definition mount_target (m : string * string * string) : string := snd (fst m).

(** ** [main] around the creation of the guest *)

(** [main] after [lxc_clone] has answered [pid], when [sa] is what it was
    given: the rest of the body of [launch]. *)
Definition launch_tail (st : main_locals) (sa : start_arg) (pid : Z) : prog Z :=
  when (pid <? 0)
    (fprintf_stderr ("Failed to clone" ++ LF) [] ;;
     Exit EXIT_FAILURE) ;;
  when (setuid sa)
    (requester <- trigger Getuid ;;
     let umap := snprintf_umap (uid sa) requester in
     let ret := strlen umap in
     when ((ret <? 0) || (ret >=? 100))
       (trigger (FdClose (wait_fd sa)) ;;
        fprintf_stderr ("snprintf is failed" ++ LF) [] ;;
        Exit EXIT_FAILURE) ;;
     ret <- trigger (Write_id_mapping ID_TYPE_UID pid umap (strlen umap)) ;;
     when (ret <? 0)
       (trigger (FdClose (wait_fd sa)) ;;
        fprintf_stderr ("uid mapping failed" ++ LF) [] ;;
        Exit EXIT_FAILURE) ;;
     ret <- trigger (FdWrite (wait_fd sa) 1 sizeof_uint64) ;;
     when (ret <? 0)
       (trigger (FdClose (wait_fd sa)) ;;
        fprintf_stderr ("Failed to write eventfd" ++ LF) [] ;;
        Exit EXIT_FAILURE)) ;;
  when (negb (is_nil (my_iflist st))) (move_interfaces pid (my_iflist st)) ;;
  when (truthy (daemonize st)) (Exit EXIT_SUCCESS) ;;
  w <- trigger (Wait_for_pid pid) ;;
  when (truthy w)
    (fprintf_stderr ("Failed to wait for '%d'" ++ LF) [FInt pid] ;;
     Exit EXIT_FAILURE) ;;
  Exit EXIT_SUCCESS.

(** Calls that [launch] makes before [lxc_clone]. *)
Definition is_prelude_call {T : Type} (e : syscall T) : bool :=
  match e with
  | Fprintf_stderr _ _ | Basename _ | Lxc_caps_init
  | Lxc_namespace_2_std_identifiers _ | Lxc_fill_namespace_flags _ _
  | Eventfd _ _ => true
  | _ => false
  end.

(** The calls on the eventfd and on the uid map. *)
Definition is_gate_call {T : Type} (e : syscall T) : bool :=
  match e with
  | Eventfd _ _ | Getuid | Write_id_mapping _ _ _ _ | FdWrite _ _ _ | FdClose _
  | FdRead _ _ => true
  | _ => false
  end.

Definition eventfd_answer (ev : event) : option Z :=
  match ev with
  | Ev e r =>
      match e in syscall T return T -> option Z with
      | Eventfd _ _ => fun r => Some r
      | _ => fun _ => None
      end r
  | EvExec _ _ _ => None
  end.

(** A [write_id_mapping] that failed. *)
Definition failed_map (ev : event) : bool :=
  match ev with
  | Ev e r =>
      match e in syscall T return T -> bool with
      | Write_id_mapping _ _ _ _ => fun r => r <? 0
      | _ => fun _ => false
      end r
  | EvExec _ _ _ => false
  end.

(** A [write] that failed. *)
Definition failed_write (ev : event) : bool :=
  match ev with
  | Ev e r =>
      match e in syscall T return T -> bool with
      | FdWrite _ _ _ => fun r => r <? 0
      | _ => fun _ => false
      end r
  | EvExec _ _ _ => false
  end.

(** The last calls of a [main] that waits for the guest [pid]:
    [wait_for_pid (pid)] with its result [w], and the message when [w] is
    not 0. *)
Definition guest_wait (pid w : Z) : list event :=
  Ev (Wait_for_pid pid) w ::
  (if truthy w
   then [Ev (Fprintf_stderr ("Failed to wait for '%d'" ++ LF) [FInt pid]) tt]
   else []).

(** The status [main] ends with after that wait. *)
Definition wait_status (w : Z) : Z :=
  if truthy w then EXIT_FAILURE else EXIT_SUCCESS.

(** The file descriptor of a [close]. *)
Definition closed_fd (ev : event) : option Z :=
  match ev with
  | Ev e _ => match e with FdClose fd => Some fd | _ => None end
  | EvExec _ _ _ => None
  end.

(** The file descriptor of a [write]. *)
Definition written_fd (ev : event) : option Z :=
  match ev with
  | Ev e _ => match e with FdWrite fd _ _ => Some fd | _ => None end
  | EvExec _ _ _ => None
  end.

(** How [launch] ends before it calls [lxc_clone]. *)
Definition gives_up (tr : list event) (out : outcome Z) : Prop :=
  Forall (event_ok (@is_prelude_call) False) tr
  /\ (out = Exited EXIT_SUCCESS
      \/ (out = Exited EXIT_FAILURE
          /\ (ends_with_message tr \/ exists r, tr = [Ev Lxc_caps_init r]))).

(** The end of [main]: the interface loop, then [-d] or the wait for the
    guest. *)
Definition finish (st : main_locals) (pid : Z) : prog Z :=
  when (negb (is_nil (my_iflist st))) (move_interfaces pid (my_iflist st)) ;;
  when (truthy (daemonize st)) (Exit EXIT_SUCCESS) ;;
  w <- trigger (Wait_for_pid pid) ;;
  when (truthy w)
    (fprintf_stderr ("Failed to wait for '%d'" ++ LF) [FInt pid] ;;
     Exit EXIT_FAILURE) ;;
  Exit EXIT_SUCCESS.

(** The ways of [launch_tail]: the clone failed; the uid map could not be
    written; the eventfd could not be written; or the guest is released
    (with [setuid], after the uid map and the eventfd are written) and
    [main] goes on to [finish]. *)
Inductive tail_run (st : main_locals) (sa : start_arg) (pid : Z)
    (post : list event) (out : outcome Z) : Prop :=
| clone_failed m :
    pid < 0 ->
    post = [Ev (Fprintf_stderr ("Failed to clone" ++ LF) []) m] ->
    out = Exited EXIT_FAILURE ->
    tail_run st sa pid post out
| map_failed requester r c m :
    0 <= pid -> setuid sa = true -> r < 0 ->
    post = [Ev Getuid requester;
            Ev (Write_id_mapping ID_TYPE_UID pid (snprintf_umap (uid sa) requester)
                  (strlen (snprintf_umap (uid sa) requester))) r;
            Ev (FdClose (wait_fd sa)) c;
            Ev (Fprintf_stderr ("uid mapping failed" ++ LF) []) m] ->
    out = Exited EXIT_FAILURE ->
    tail_run st sa pid post out
| signal_failed requester r w c m :
    0 <= pid -> setuid sa = true -> 0 <= r -> w < 0 ->
    post = [Ev Getuid requester;
            Ev (Write_id_mapping ID_TYPE_UID pid (snprintf_umap (uid sa) requester)
                  (strlen (snprintf_umap (uid sa) requester))) r;
            Ev (FdWrite (wait_fd sa) 1 sizeof_uint64) w;
            Ev (FdClose (wait_fd sa)) c;
            Ev (Fprintf_stderr ("Failed to write eventfd" ++ LF) []) m] ->
    out = Exited EXIT_FAILURE ->
    tail_run st sa pid post out
| released requester r w fin :
    0 <= pid -> setuid sa = true -> 0 <= r -> 0 <= w ->
    post = ([Ev Getuid requester;
             Ev (Write_id_mapping ID_TYPE_UID pid (snprintf_umap (uid sa) requester)
                   (strlen (snprintf_umap (uid sa) requester))) r;
             Ev (FdWrite (wait_fd sa) 1 sizeof_uint64) w] ++ fin)%list ->
    runs (finish st pid) fin out ->
    tail_run st sa pid post out
| not_gated :
    0 <= pid -> setuid sa = false ->
    runs (finish st pid) post out ->
    tail_run st sa pid post out.

(** Calls that [launch] makes after [lxc_clone]. *)
Definition is_tail_call {T : Type} (e : syscall T) : bool :=
  match e with
  | Fprintf_stderr _ _ | Getuid | Write_id_mapping _ _ _ _ | FdWrite _ _ _ | FdClose _
  | Fork | Wait_for_pid _ => true
  | _ => false
  end.

(** [lxc-unshare -s "UTSNAME|MOUNT" -H guest -M -d -- /bin/true]: the
    namespace list selects UTSNAME and MOUNT. *)
Definition uts_mount_os : os :=
  {| answer := fun _ T (e : syscall T) =>
       match e in syscall T return T with
       | Lxc_fill_namespace_flags _ fl =>
           (0, Z.lor fl (Z.lor CLONE_NEWUTS CLONE_NEWNS))
       | e' => default_answer _ e'
       end;
     exec_ok := fun _ _ _ => true |}.

Definition uts_mount_opts : list getopt_result :=
  [Opt_s "UTSNAME|MOUNT"; Opt_H "guest"; Opt_M; Opt_d].

(** The locals after [uts_mount_opts]. *)
Definition uts_mount_locals : main_locals :=
  {| namespaces := Some "UTSNAME|MOUNT"; daemonize := 1; my_iflist := [];
     start := set_want_default_mounts (set_want_hostname init_start_arg (Some "guest")) 1 |}.

(** What the guest of [remap_locals] is given under [remap_os]. *)
Definition remap_request : start_arg :=
  {| args := ["/bin/true"]; flags := CLONE_NEWUSER; uid := 1000; setuid := true;
     want_default_mounts := 0; wait_fd := 3; want_hostname := None |}.

Definition is_opt_u (o : getopt_result) : bool :=
  match o with Opt_u _ => true | _ => false end.

(** The calls that serve the change of identity: the parsing and lookup of
    the [-u] token, the eventfd and the uid map. *)
Definition is_identity_call {T : Type} (e : syscall T) : bool :=
  match e with
  | Sysconf_GETPW_R_SIZE_MAX | Sscanf_u _ | Sscanf_s _ | Getpwnam_r _ | Getpwuid_r _
  | Eventfd _ _ | Getuid | Write_id_mapping _ _ _ _ | FdWrite _ _ _ | FdClose _
  | FdRead _ _ | Setuid _ => true
  | _ => false
  end.

Definition no_identity_call (T : Type) (e : syscall T) : bool :=
  negb (is_identity_call e).

(** The capabilities cannot be set up. *)
Definition no_caps_os : os :=
  {| answer := fun _ T (e : syscall T) =>
       match e in syscall T return T with
       | Lxc_caps_init => -1
       | e' => default_answer _ e'
       end;
     exec_ok := fun _ _ _ => true |}.

(** The message of the test on the result of [snprintf]. *)
Definition is_snprintf_failure {T : Type} (e : syscall T) : bool :=
  match e with
  | Fprintf_stderr fmt _ => String.eqb fmt ("snprintf is failed" ++ LF)
  | _ => false
  end.

Definition not_snprintf_failure (T : Type) (e : syscall T) : bool :=
  negb (is_snprintf_failure e).

(** ** The parent's part of an execution *)

Definition parent_trace (ls : list label) : list event :=
  flat_map (fun l => match fst l with Parent => [snd l] | _ => [] end) ls.

(** An execution in which the uid map cannot be written: the guest of
    [remap_no_user_locals] is cloned, the write of its uid map fails and the
    parent gives up; the guest stays at its [read]. *)
Definition stranded_guest : start_arg :=
  set_wait_fd (set_args_flags (start remap_no_user_locals) ["/bin/true"] CLONE_NEWNS) 3.

Definition stranded_run : list label :=
  [ (Parent, Ev Sysconf_GETPW_R_SIZE_MAX 1024);
    (Parent, Ev (Malloc 1024) true);
    (Parent, Ev (Sscanf_u "1000") (Some 1000));
    (Parent, Ev (Getpwuid_r 1000) (0, Some 1000));
    (Parent, Ev Lxc_caps_init 0);
    (Parent, Ev (Lxc_namespace_2_std_identifiers (Some "MOUNT")) (0, Some "MOUNT"));
    (Parent, Ev (Lxc_fill_namespace_flags (Some "MOUNT") 0) (0, CLONE_NEWNS));
    (Parent, Ev (Eventfd 0 EFD_CLOEXEC) 3);
    (Parent, Ev (Lxc_clone stranded_guest CLONE_NEWNS) 4242);
    (Parent, Ev Getuid 0);
    (Parent, Ev (Write_id_mapping ID_TYPE_UID 4242 ("1000 0 1" ++ LF) 9) (-1));
    (Guest stranded_guest, Ev (FdRead 3 8) (-1));
    (Parent, Ev (FdClose 3) 0);
    (Guest stranded_guest, Ev (FdClose 3) 0);
    (Parent, Ev (Fprintf_stderr ("uid mapping failed" ++ LF) []) tt);
    (Guest stranded_guest, Ev (Fprintf_stderr ("Failed to read eventfd" ++ LF) []) tt) ].

(** The [lxc_clone] of a step of the parent. *)
Definition parent_clone (l : label) : option (start_arg * Z * Z) :=
  match l with
  | (Parent, ev) => clone_call ev
  | _ => None
  end.

(** A guest comes from a successful [lxc_clone] of the parent on its
    request. *)
Definition cloned (ls : list label) (who : actor) : Prop :=
  match who with
  | Guest a => exists l fl pid, In l ls /\ parent_clone l = Some (a, fl, pid) /\ 0 <= pid
  | _ => True
  end.

(** * Properties *)

Open Scope list_scope.

(** ** Decimal output *)

Lemma digit_val_char d : 0 <= d < 10 -> digit_val (digit_char d) = d.
Proof.
  intros Hd. unfold digit_val, digit_char.
  rewrite nat_ascii_embedding by lia. lia.
Qed.

(** The ten digits are enough: the numeral of [n] reads back as [n]. *)
Lemma parse_dec_digits fuel n acc :
  0 <= n < 10 ^ Z.of_nat fuel ->
  parse_digits (dec_digits fuel n acc) 0 = parse_digits acc n.
Proof.
  revert n acc. induction fuel as [|fuel IH]; intros n acc Hn.
  - simpl in Hn. assert (n = 0) by lia. subst n. reflexivity.
  - cbn [dec_digits].
    assert (Hmod : 0 <= n mod 10 < 10) by (apply Z.mod_pos_bound; lia).
    destruct (Z.eqb_spec (n / 10) 0) as [Hq|Hq].
    + cbn [parse_digits]. rewrite digit_val_char by exact Hmod.
      f_equal. rewrite (Z.div_mod n 10) at 2 by lia. lia.
    + rewrite IH.
      * cbn [parse_digits]. rewrite digit_val_char by exact Hmod.
        f_equal. rewrite (Z.div_mod n 10) at 3 by lia. lia.
      * split; [apply Z.div_pos; lia|].
        apply Z.div_lt_upper_bound; [lia|].
        rewrite Nat2Z.inj_succ, Z.pow_succ_r in Hn by lia. lia.
Qed.

(** [%d] prints a uid below [2 ^ 31] as its decimal numeral. *)
Lemma fmt_d_reads_back z :
  0 <= z < 2 ^ 31 -> parse_digits (fmt_d z) 0 = z.
Proof.
  intros Hz. unfold fmt_d, as_int32.
  rewrite Z.mod_small by lia.
  destruct (Z.ltb_spec z (2 ^ 31)) as [_|H]; [|lia].
  destruct (Z.ltb_spec z 0) as [H|_]; [lia|].
  rewrite parse_dec_digits; [reflexivity|]. simpl Z.of_nat. lia.
Qed.

Lemma length_append (s1 s2 : string) :
  String.length (s1 ++ s2)%string = (String.length s1 + String.length s2)%nat.
Proof. induction s1 as [|c s1 IH]; simpl; [reflexivity|now rewrite IH]. Qed.

Lemma dec_digits_length fuel n acc :
  (String.length (dec_digits fuel n acc) <= fuel + String.length acc)%nat.
Proof.
  revert n acc. induction fuel as [|fuel IH]; intros n acc; cbn [dec_digits].
  - lia.
  - destruct (n / 10 =? 0).
    + simpl. lia.
    + specialize (IH (n / 10) (String (digit_char (n mod 10)) acc)). simpl in IH. lia.
Qed.

Lemma fmt_d_length z : (String.length (fmt_d z) <= 11)%nat.
Proof.
  unfold fmt_d. destruct (as_int32 z <? 0).
  - rewrite length_append.
    pose proof (dec_digits_length 10 (- as_int32 z) "") as H. simpl in *. lia.
  - pose proof (dec_digits_length 10 (as_int32 z) "") as H. simpl in *. lia.
Qed.

(** The line always fits the 100 bytes of [umap]: the test after [snprintf]
    never fires. *)
Lemma snprintf_umap_fits target requester :
  ((strlen (snprintf_umap target requester) <? 0)
   || (strlen (snprintf_umap target requester) >=? 100))%bool = false.
Proof.
  unfold strlen, snprintf_umap. rewrite !length_append.
  pose proof (fmt_d_length target). pose proof (fmt_d_length requester).
  change (String.length " ") with 1%nat.
  change (String.length " 1") with 2%nat.
  change (String.length LF) with 1%nat.
  set (n := Z.of_nat (String.length (fmt_d target)
                      + (1 + (String.length (fmt_d requester) + (2 + 1))))).
  assert (Hn : 0 <= n < 100) by (subst n; lia).
  apply orb_false_iff. split.
  - apply Z.ltb_ge. lia.
  - unfold Z.geb. destruct (Z.compare_spec n 100); [lia|reflexivity|lia].
Qed.

(** ** Runs and sequencing *)

Lemma runs_bind {A B : Type} (p : prog A) (k : A -> prog B) tr1 a tr2 out :
  runs p tr1 (Returned a) -> runs (k a) tr2 out -> runs (bind p k) (tr1 ++ tr2) out.
Proof.
  revert tr1. induction p as [r|c|f av h IH|T e h IH|]; simpl; intros tr1 Hp Hk.
  - destruct Hp as [-> Hr]. injection Hr as ->. exact Hk.
  - destruct Hp as [_ Hr]. discriminate Hr.
  - destruct Hp as [[_ Hr]|[tr' [-> Hp]]]; [discriminate Hr|].
    right. exists (tr' ++ tr2). split; [reflexivity|]. now apply IH.
  - destruct Hp as [r [tr' [-> Hp]]].
    exists r, (tr' ++ tr2). split; [reflexivity|]. now apply IH.
  - destruct Hp as [_ Hr]. discriminate Hr.
Qed.

(** A run of [bind p k] either runs [p] to its return and then [k], or ends
    inside [p]. *)
Lemma runs_bind_inv {A B : Type} (p : prog A) (k : A -> prog B) tr out :
  runs (bind p k) tr out ->
  (exists a tr1 tr2, tr = tr1 ++ tr2 /\ runs p tr1 (Returned a) /\ runs (k a) tr2 out)
  \/ (exists c, runs p tr (Exited c) /\ out = Exited c)
  \/ (exists f av, runs p tr (Replaced f av) /\ out = Replaced f av)
  \/ (runs p tr Crashed /\ out = Crashed).
Proof.
  revert tr. induction p as [r|c|f av h IH|T e h IH|]; simpl; intros tr H.
  - left. exists r, [], tr. auto.
  - destruct H as [-> ->]. right. left. exists c. auto.
  - destruct H as [[-> ->]|[tr' [-> H]]].
    + right. right. left. exists f, av. split; [left|]; auto.
    + destruct (IH _ H)
        as [[a [t1 [t2 [-> [H1 H2]]]]]|[[c [H1 ->]]|[[f' [av' [H1 ->]]]|[H1 ->]]]].
      * left. exists a, (EvExec f av false :: t1), t2. repeat split; eauto.
      * right. left. exists c. split; eauto.
      * right. right. left. exists f', av'. split; eauto.
      * right. right. right. split; eauto.
  - destruct H as [r [tr' [-> H]]].
    destruct (IH _ _ H)
      as [[a [t1 [t2 [-> [H1 H2]]]]]|[[c [H1 ->]]|[[f' [av' [H1 ->]]]|[H1 ->]]]].
    + left. exists a, (Ev e r :: t1), t2. repeat split; eauto.
    + right. left. exists c. split; eauto.
    + right. right. left. exists f', av'. split; eauto.
    + right. right. right. split; eauto.
  - destruct H as [-> ->]. right. right. right. auto.
Qed.

(** The deterministic run is one of the runs. *)
Lemma run_from_runs {R : Type} (w : os) (p : prog R) past :
  runs p (fst (run_from w past p)) (snd (run_from w past p)).
Proof.
  revert past. induction p as [r|c|f av h IH|T e h IH|]; simpl; intros past; auto.
  - destruct (exec_ok w past f av); simpl; [left; auto|].
    right. eexists. split; [reflexivity|]. apply IH.
  - eexists _, _. split; [reflexivity|]. apply IH.
Qed.

Lemma run_runs {R : Type} (w : os) (p : prog R) :
  runs p (fst (run w p)) (snd (run w p)).
Proof. apply run_from_runs. Qed.

(** ** The static check *)

Section Post.
Variable Pe : forall T : Type, syscall T -> bool.
Variable Px : Prop.
Variable Pc : Z -> Prop.

Lemma post_bind {A B : Type} (PrA : A -> Prop) (PrB : B -> Prop)
    (p : prog A) (k : A -> prog B) :
  post Pe Px PrA Pc p ->
  (forall a, PrA a -> post Pe Px PrB Pc (k a)) ->
  post Pe Px PrB Pc (bind p k).
Proof.
  intros Hp Hk. induction p as [r|c|f av h IH|T e h IH|]; simpl in *; auto.
  - destruct Hp; auto.
  - destruct Hp as [He Hh]. split; auto.
Qed.

Lemma post_weaken {R : Type} (Pr Pr' : R -> Prop) (p : prog R) :
  (forall r, Pr r -> Pr' r) -> post Pe Px Pr Pc p -> post Pe Px Pr' Pc p.
Proof.
  intros Hw. induction p as [r|c|f av h IH|T e h IH|]; simpl; auto.
  - intros [? ?]; auto.
  - intros [? ?]; auto.
Qed.

Lemma post_mono {R : Type} (Pe' : forall T : Type, syscall T -> bool)
    (Px' : Prop) (Pc' : Z -> Prop) (Pr Pr' : R -> Prop) (p : prog R) :
  (forall T (e : syscall T), Pe T e = true -> Pe' T e = true) ->
  (Px -> Px') -> (forall c, Pc c -> Pc' c) -> (forall r, Pr r -> Pr' r) ->
  post Pe Px Pr Pc p -> post Pe' Px' Pr' Pc' p.
Proof.
  intros He Hx Hc Hr.
  induction p as [r|c|f av h IH|T e h IH|]; simpl; auto.
  - intros [? ?]; auto.
  - intros [? ?]; auto.
Qed.

Lemma post_runs {R : Type} (Pr : R -> Prop) (p : prog R) tr out :
  post Pe Px Pr Pc p -> runs p tr out ->
  Forall (event_ok Pe Px) tr /\ outcome_ok Px Pr Pc out.
Proof.
  revert tr. induction p as [r|c|f av h IH|T e h IH|]; simpl; intros tr Hp Hr.
  - destruct Hr as [-> ->]. simpl. auto.
  - destruct Hr as [-> ->]. simpl. auto.
  - destruct Hp as [Hx Hp].
    destruct Hr as [[-> ->]|[tr' [-> Hr]]].
    + simpl. split; auto.
    + destruct (IH _ Hp Hr). split; auto.
  - destruct Hp as [He Hp]. destruct Hr as [r [tr' [-> Hr]]].
    destruct (IH _ _ (Hp r) Hr). split; auto.
  - destruct Hp.
Qed.

Lemma post_events {R : Type} (Pr : R -> Prop) (p : prog R) tr out :
  post Pe Px Pr Pc p -> runs p tr out -> Forall (event_ok Pe Px) tr.
Proof. intros Hp Hr. exact (proj1 (post_runs Pr p tr out Hp Hr)). Qed.

Lemma post_outcome {R : Type} (Pr : R -> Prop) (p : prog R) tr out :
  post Pe Px Pr Pc p -> runs p tr out -> outcome_ok Px Pr Pc out.
Proof. intros Hp Hr. exact (proj2 (post_runs Pr p tr out Hp Hr)). Qed.

(** The same for a program that may end in [Crash]. *)
Lemma post_cpost {R : Type} (Pr : R -> Prop) (p : prog R) :
  post Pe Px Pr Pc p -> cpost Pe Px Pr Pc p.
Proof.
  induction p as [r|c|f av h IH|T e h IH|]; simpl; auto.
  - intros [? ?]; auto.
  - intros [? ?]; auto.
Qed.

Lemma cpost_bind {A B : Type} (PrA : A -> Prop) (PrB : B -> Prop)
    (p : prog A) (k : A -> prog B) :
  cpost Pe Px PrA Pc p ->
  (forall a, PrA a -> cpost Pe Px PrB Pc (k a)) ->
  cpost Pe Px PrB Pc (bind p k).
Proof.
  intros Hp Hk. induction p as [r|c|f av h IH|T e h IH|]; simpl in *; auto.
  - destruct Hp; auto.
  - destruct Hp as [He Hh]. split; auto.
Qed.

Lemma cpost_mono {R : Type} (Pe' : forall T : Type, syscall T -> bool)
    (Px' : Prop) (Pc' : Z -> Prop) (Pr Pr' : R -> Prop) (p : prog R) :
  (forall T (e : syscall T), Pe T e = true -> Pe' T e = true) ->
  (Px -> Px') -> (forall c, Pc c -> Pc' c) -> (forall r, Pr r -> Pr' r) ->
  cpost Pe Px Pr Pc p -> cpost Pe' Px' Pr' Pc' p.
Proof.
  intros He Hx Hc Hr.
  induction p as [r|c|f av h IH|T e h IH|]; simpl; auto.
  - intros [? ?]; auto.
  - intros [? ?]; auto.
Qed.

Lemma cpost_runs {R : Type} (Pr : R -> Prop) (p : prog R) tr out :
  cpost Pe Px Pr Pc p -> runs p tr out ->
  Forall (event_ok Pe Px) tr /\ coutcome_ok Px Pr Pc out.
Proof.
  revert tr. induction p as [r|c|f av h IH|T e h IH|]; simpl; intros tr Hp Hr.
  - destruct Hr as [-> ->]. simpl. auto.
  - destruct Hr as [-> ->]. simpl. auto.
  - destruct Hp as [Hx Hp].
    destruct Hr as [[-> ->]|[tr' [-> Hr]]].
    + simpl. split; auto.
    + destruct (IH _ Hp Hr). split; auto.
  - destruct Hp as [He Hp]. destruct Hr as [r [tr' [-> Hr]]].
    destruct (IH _ _ (Hp r) Hr). split; auto.
  - destruct Hr as [-> ->]. simpl. auto.
Qed.

Lemma cpost_events {R : Type} (Pr : R -> Prop) (p : prog R) tr out :
  cpost Pe Px Pr Pc p -> runs p tr out -> Forall (event_ok Pe Px) tr.
Proof. intros Hp Hr. exact (proj1 (cpost_runs Pr p tr out Hp Hr)). Qed.

Lemma cpost_outcome {R : Type} (Pr : R -> Prop) (p : prog R) tr out :
  cpost Pe Px Pr Pc p -> runs p tr out -> coutcome_ok Px Pr Pc out.
Proof. intros Hp Hr. exact (proj2 (cpost_runs Pr p tr out Hp Hr)). Qed.

(** A program with a [post] does not crash. *)
Lemma post_no_crash {R : Type} (Pr : R -> Prop) (p : prog R) tr :
  post Pe Px Pr Pc p -> runs p tr Crashed -> False.
Proof. intros Hp Hr. exact (post_outcome Pr p tr Crashed Hp Hr). Qed.
End Post.

Lemma runs_bind_exited {A B : Type} (p : prog A) (k : A -> prog B) tr c :
  runs p tr (Exited c) -> runs (bind p k) tr (Exited c).
Proof.
  revert tr. induction p as [r|c'|f av h IH|T e h IH|]; simpl; intros tr H.
  - destruct H as [_ H]. discriminate H.
  - destruct H as [-> H]. injection H as ->. auto.
  - destruct H as [[_ H]|[tr' [-> H]]]; [discriminate H|].
    right. exists tr'. auto.
  - destruct H as [r [tr' [-> H]]]. exists r, tr'. auto.
  - destruct H as [_ H]. discriminate H.
Qed.

Lemma runs_bind_replaced {A B : Type} (p : prog A) (k : A -> prog B) tr f av :
  runs p tr (Replaced f av) -> runs (bind p k) tr (Replaced f av).
Proof.
  revert tr. induction p as [r|c'|f' av' h IH|T e h IH|]; simpl; intros tr H.
  - destruct H as [_ H]. discriminate H.
  - destruct H as [_ H]. discriminate H.
  - destruct H as [[-> H]|[tr' [-> H]]].
    + injection H as -> ->. left. auto.
    + right. exists tr'. auto.
  - destruct H as [r [tr' [-> H]]]. exists r, tr'. auto.
  - destruct H as [_ H]. discriminate H.
Qed.



Lemma filter_all (f : event -> bool) (l : list event) :
  Forall (fun ev => f ev = true) l -> filter f l = l.
Proof.
  induction 1 as [|x l Hx _ IH]; simpl; [reflexivity|]. now rewrite Hx, IH.
Qed.

Lemma filter_none (f : event -> bool) (l : list event) :
  Forall (fun ev => f ev = false) l -> filter f l = [].
Proof.
  induction 1 as [|x l Hx _ IH]; simpl; [reflexivity|]. now rewrite Hx.
Qed.

(** Proves a [post] goal along the structure of the program; [leaf] is tried
    first, for the functions that have a lemma of their own. *)
Ltac post_auto leaf :=
  first
  [ leaf
  | lazymatch goal with
    | |- post _ _ _ _ (bind _ _) =>
        apply post_bind with (PrA := any_value);
        [ post_auto leaf | intros ? _; post_auto leaf ]
    | |- post _ _ _ _ (when ?c _) =>
        unfold when at 1; destruct c; [ post_auto leaf | exact I ]
    | |- post _ _ _ _ (if ?c then _ else _) => destruct c; post_auto leaf
    | |- post _ _ _ _ (match ?c with _ => _ end) => destruct c; post_auto leaf
    | |- post _ _ _ _ (trigger _) => split; [ reflexivity | intro; exact I ]
    | |- post _ _ _ _ (fprintf_stderr _ _) => split; [ reflexivity | intro; exact I ]
    | |- post _ _ _ _ (Ret _) => exact I
    | |- post _ _ _ _ (Exit _) =>
        solve [ cbn; unfold exit_0, exit_1, exit_0_or_1; auto ]
    | |- post _ _ _ _ (Exec _ _ _) => split; [ exact I | post_auto leaf ]
    | |- post _ _ _ _ (Vis _ _) => split; [ reflexivity | intro; post_auto leaf ]
    | |- post _ _ _ _ _ => progress cbv zeta; post_auto leaf
    end ].

Ltac post_tac := post_auto fail.

(** The same for [cpost]. *)
Ltac cpost_auto leaf :=
  first
  [ leaf
  | lazymatch goal with
    | |- cpost _ _ _ _ (bind _ _) =>
        apply cpost_bind with (PrA := any_value);
        [ cpost_auto leaf | intros ? _; cpost_auto leaf ]
    | |- cpost _ _ _ _ (when ?c _) =>
        unfold when at 1; destruct c; [ cpost_auto leaf | exact I ]
    | |- cpost _ _ _ _ (if ?c then _ else _) => destruct c; cpost_auto leaf
    | |- cpost _ _ _ _ (match ?c with _ => _ end) => destruct c; cpost_auto leaf
    | |- cpost _ _ _ _ (trigger _) => split; [ reflexivity | intro; exact I ]
    | |- cpost _ _ _ _ (fprintf_stderr _ _) => split; [ reflexivity | intro; exact I ]
    | |- cpost _ _ _ _ (Ret _) => exact I
    | |- cpost _ _ _ _ Crash => exact I
    | |- cpost _ _ _ _ (Exit _) =>
        solve [ cbn; unfold exit_0, exit_1, exit_0_or_1; auto ]
    | |- cpost _ _ _ _ (Exec _ _ _) => split; [ exact I | cpost_auto leaf ]
    | |- cpost _ _ _ _ (Vis _ _) => split; [ reflexivity | intro; cpost_auto leaf ]
    | |- cpost _ _ _ _ _ => progress cbv zeta; cpost_auto leaf
    end ].

Ltac cpost_tac := cpost_auto fail.

(** ** The guest's filesystem setup *)

Lemma mount_fs_post source target type :
  post (@is_fs_call) False (fun _ => True) (fun _ => False)
    (mount_fs source target type).
Proof. unfold mount_fs. post_tac. Qed.

(** [lxc_setup_fs] only calls the filesystem and always returns: no answer
    of [umount], [mount], [access] or [mkdir] makes it leave the process. *)
Lemma lxc_setup_fs_post :
  post (@is_fs_call) False (fun _ => True) (fun _ => False) lxc_setup_fs.
Proof.
  unfold lxc_setup_fs.
  post_auto ltac:(eapply post_mono; [..|apply mount_fs_post]; solve [auto]).
Qed.

(** C4, evaluated on the code: when [umount (target)] succeeds, [mount_fs]
    returns 0 without calling [mount] at all, because the [if] on the result
    of [umount] governs the [mount] statement. *)
Theorem mount_fs_skips_mount_when_umount_succeeds
    (w : os) (past : list event) (source target type : string) :
  0 <= answer w past Z (Umount target) ->
  run_from w past (mount_fs source target type)
  = ([Ev (Umount target) (answer w past Z (Umount target))], Returned 0).
Proof.
  intros H. unfold mount_fs. cbn [bind trigger run_from].
  destruct (Z.ltb_spec (answer w past Z (Umount target)) 0) as [Hlt|_]; [lia|].
  reflexivity.
Qed.

Lemma mount_fs_skips_mount_witness :
  run quiet_os (mount_fs "proc" "/proc" "proc") = ([Ev (Umount "/proc") 0], Returned 0).
Proof.
  apply (mount_fs_skips_mount_when_umount_succeeds quiet_os [] "proc" "/proc" "proc").
  simpl. lia.
Defined.

(** With something mounted on each of the three targets, so that every
    [umount] succeeds, [lxc_setup_fs] mounts nothing. *)
Example lxc_setup_fs_mounts_nothing :
  run quiet_os lxc_setup_fs
  = ([Ev (Umount "/proc") 0; Ev (Access "/dev/shm" F_OK) 0;
      Ev (Umount "/dev/shm") 0; Ev (Access "/dev/mqueue" F_OK) 0;
      Ev (Umount "/dev/mqueue") 0],
     Returned tt).
Proof. reflexivity. Qed.

(** When [umount] fails the mount is attempted, and its failure is the only
    way to the result -1. *)
Lemma mount_fs_after_failed_umount
    (w : os) (past : list event) (source target type : string) :
  answer w past Z (Umount target) < 0 ->
  let u := Ev (Umount target) (answer w past Z (Umount target)) in
  let m := answer w (u :: past) Z (Mount source target type 0) in
  run_from w past (mount_fs source target type)
  = ([u; Ev (Mount source target type 0) m], Returned (if m <? 0 then -1 else 0)).
Proof.
  intros H u m. unfold mount_fs. cbn [bind trigger run_from].
  destruct (Z.ltb_spec (answer w past Z (Umount target)) 0) as [_|Hge]; [|lia].
  cbn [bind trigger run_from]. fold u. fold m.
  destruct (m <? 0); reflexivity.
Qed.

Lemma not_fs_events tr :
  Forall (event_ok not_fs_call True) tr -> Forall (fun ev => not_fs_event ev = true) tr.
Proof.
  apply Forall_impl. intros [T e r|f av ok]; simpl; auto.
Qed.

Lemma fs_events tr :
  Forall (event_ok (@is_fs_call) False) tr -> Forall (fun ev => not_fs_event ev = false) tr.
Proof.
  apply Forall_impl. intros [T e r|f av ok]; simpl; [|tauto].
  unfold not_fs_event. simpl. now intros ->.
Qed.

(** C8: with a new mount namespace and the default mounts requested, no
    answer to the calls of the filesystem setup aborts the guest: leaving
    those calls out of a run of [do_start] gives a run, with the same
    outcome, of [do_start] without the default mounts, so Hostname-Setup,
    Identity-Drop and Exec happen as if no mount had been tried. *)
Theorem do_start_ignores_mount_failures (a : start_arg) tr out :
  truthy (Z.land (flags a) CLONE_NEWNS) = true ->
  truthy (want_default_mounts a) = true ->
  runs (do_start a) tr out ->
  runs (do_start (set_want_default_mounts a 0)) (filter not_fs_event tr) out.
Proof.
  intros Hns Hdm. unfold do_start.
  cbn [set_want_default_mounts setuid wait_fd flags want_default_mounts
       want_hostname uid args].
  rewrite Hns, Hdm. change (truthy 0) with false. rewrite andb_false_r.
  cbn [andb].
  match goal with
  | |- runs (bind ?g (fun _ => bind _ (fun _ => ?rest))) _ _ -> _ =>
      set (gate := g); set (tail := rest)
  end.
  assert (Hgate : post not_fs_call True (fun _ => True) (fun _ => True) gate)
    by (subst gate; post_tac).
  assert (Htail : post not_fs_call True (fun _ => True) (fun _ => True) tail)
    by (subst tail; post_tac).
  intros H.
  change (when false lxc_setup_fs) with (Ret tt : prog unit). cbn [bind].
  change (when true lxc_setup_fs) with lxc_setup_fs in H.
  destruct (runs_bind_inv _ _ _ _ H)
    as [[u [t1 [t2 [-> [H1 H2]]]]]|[[c [H1 ->]]|[[f [av [H1 ->]]]|[H1 ->]]]].
  - destruct (runs_bind_inv _ _ _ _ H2)
      as [[u' [t3 [t4 [-> [H3 H4]]]]]|[[c [H3 ->]]|[[f [av [H3 ->]]]|[H3 ->]]]].
    + rewrite !filter_app.
      rewrite (filter_all _ t1)
        by exact (not_fs_events _ (post_events _ _ _ _ _ _ _ Hgate H1)).
      rewrite (filter_none _ t3)
        by exact (fs_events _ (post_events _ _ _ _ _ _ _ lxc_setup_fs_post H3)).
      rewrite (filter_all _ t4)
        by exact (not_fs_events _ (post_events _ _ _ _ _ _ _ Htail H4)).
      simpl. eapply runs_bind; eauto.
    + destruct (post_runs _ _ _ _ _ _ _ lxc_setup_fs_post H3) as [_ []].
    + destruct (post_runs _ _ _ _ _ _ _ lxc_setup_fs_post H3) as [_ []].
    + destruct (post_no_crash _ _ _ _ _ _ lxc_setup_fs_post H3).
  - rewrite (filter_all _ tr)
      by exact (not_fs_events _ (post_events _ _ _ _ _ _ _ Hgate H1)).
    now apply runs_bind_exited.
  - rewrite (filter_all _ tr)
      by exact (not_fs_events _ (post_events _ _ _ _ _ _ _ Hgate H1)).
    now apply runs_bind_replaced.
  - destruct (post_no_crash _ _ _ _ _ _ Hgate H1).
Qed.

Lemma do_start_ignores_mount_failures_witness :
  runs (do_start (set_want_default_mounts guest_request 0))
    [Ev (FdRead 3 8) 8; Ev (Sethostname "guest" 5) 0; Ev (Setuid 1000) 0;
     EvExec "/bin/sh" ["/bin/sh"; "-c"; "exit 7"] true]
    (Replaced "/bin/sh" ["/bin/sh"; "-c"; "exit 7"]).
Proof.
  exact (do_start_ignores_mount_failures guest_request _ _ eq_refl eq_refl
           (run_runs no_fs_os (do_start guest_request))).
Defined.

(** All three mounts of the witness fail, and the guest still reaches its
    exec. *)
Example do_start_all_mounts_fail :
  run no_fs_os (do_start guest_request)
  = ([Ev (FdRead 3 8) 8;
      Ev (Umount "/proc") (-1); Ev (Mount "proc" "/proc" "proc" 0) (-1);
      Ev (Access "/dev/shm" 0) (-1); Ev (Mkdir "/dev/shm" 511) (-1);
      Ev (Umount "/dev/shm") (-1); Ev (Mount "shmfs" "/dev/shm" "tmpfs" 0) (-1);
      Ev (Access "/dev/mqueue" 0) (-1); Ev (Mkdir "/dev/mqueue" 438) (-1);
      Ev (Umount "/dev/mqueue") (-1); Ev (Mount "mqueue" "/dev/mqueue" "mqueue" 0) (-1);
      Ev (Sethostname "guest" 5) 0; Ev (Setuid 1000) 0;
      EvExec "/bin/sh" ["/bin/sh"; "-c"; "exit 7"] true],
     Replaced "/bin/sh" ["/bin/sh"; "-c"; "exit 7"]).
Proof. reflexivity. Qed.

(** ** The interface helpers *)

Example fmt_d_examples :
  fmt_d 0 = "0" /\ fmt_d 4242 = "4242" /\ fmt_d (-1) = "-1"
  /\ fmt_d 4294967295 = "-1" /\ fmt_d 2147483647 = "2147483647"
  /\ fmt_d 2147483648 = "-2147483648".
Proof. repeat split; reflexivity. Qed.

(** C3, evaluated on the code: in the helper, where [fork] answered 0, the
    next step is the exec of [ip link set dev <name> netns 0]: the process id
    handed over is the helper's own [pid] variable, which is 0, whatever the
    process id [pid] of the guest is. *)
Theorem helper_execs_ip_with_netns_zero
    (pid : Z) (mi_ifname : string) (mi_next : list string) tr out ev tr' :
  runs (move_interfaces pid (mi_ifname :: mi_next)) tr out ->
  tr = ev :: tr' ->
  fork_answer ev = Some 0 ->
  tr' = [EvExec "ip" ["ip"; "link"; "set"; "dev"; mi_ifname; "netns"; "0"] true]
        /\ out = Replaced "ip" ["ip"; "link"; "set"; "dev"; mi_ifname; "netns"; "0"]
  \/ tr' = [EvExec "ip" ["ip"; "link"; "set"; "dev"; mi_ifname; "netns"; "0"] false]
        /\ out = Exited EXIT_FAILURE.
Proof.
  intros H -> Hev. cbn [move_interfaces bind trigger] in H.
  destruct H as [r [t [Heq H]]]. injection Heq as -> ->.
  cbn in Hev. injection Hev as ->.
  change (0 <? 0) with false in H. change (0 =? 0) with true in H.
  unfold when in H. cbn [bind] in H.
  change (fmt_d 0) with "0" in H.
  change ((strlen "0" <? 0) || (strlen "0" >=? 256))%bool with false in H.
  cbn [bind runs] in H.
  destruct H as [[-> ->]|[t' [-> [-> ->]]]]; auto.
Qed.

Lemma helper_execs_ip_with_netns_zero_witness :
  snd (run helper_os (move_interfaces 4242 ["eth0"]))
  = Replaced "ip" ["ip"; "link"; "set"; "dev"; "eth0"; "netns"; "0"].
Proof.
  destruct (helper_execs_ip_with_netns_zero 4242 "eth0" [] _ _ _ _
              (run_runs helper_os (move_interfaces 4242 ["eth0"])) eq_refl eq_refl)
    as [[_ H]|[_ H]]; [exact H | discriminate H].
Defined.

(** The whole of [main] seen from the helper of [-s NETWORK -i eth0]: the
    guest is 4242, the interface goes to [netns 0]. *)
Example helper_of_main_execs_ip_with_netns_zero :
  run helper_os (main "lxc-unshare" [Opt_s "NETWORK"; Opt_i "eth0"] ["/bin/true"])
  = ([Ev (Malloc 16) true; Ev Lxc_caps_init 0;
      Ev (Lxc_namespace_2_std_identifiers (Some "NETWORK")) (0, Some "NETWORK");
      Ev (Lxc_fill_namespace_flags (Some "NETWORK") 0) (0, CLONE_NEWNET);
      Ev (Lxc_clone {| args := ["/bin/true"]; flags := CLONE_NEWNET; uid := 0;
                       setuid := false; want_default_mounts := 0; wait_fd := 0;
                       want_hostname := None |} CLONE_NEWNET) 4242;
      Ev Fork 0;
      EvExec "ip" ["ip"; "link"; "set"; "dev"; "eth0"; "netns"; "0"] true],
     Replaced "ip" ["ip"; "link"; "set"; "dev"; "eth0"; "netns"; "0"]).
Proof. reflexivity. Qed.

(** ** What the parent calls and how it can end *)

Lemma usage_post {R : Type} (cmd : string) :
  post (@is_getopt_call) False (@no_value R) exit_0 (usage cmd).
Proof. unfold usage. post_tac. Qed.

Lemma usage_post_launch {R : Type} (cmd : string) :
  post (@is_launch_call) False (@no_value R) exit_0 (usage cmd).
Proof. unfold usage. post_tac. Qed.

Lemma lookup_user_post optarg uid0 :
  cpost (@is_getopt_call) False any_value (fun _ => False) (lookup_user optarg uid0).
Proof. unfold lookup_user. cpost_tac. Qed.

Lemma handle_opt_post argv0 o st :
  cpost (@is_getopt_call) False any_value exit_0_or_1 (handle_opt argv0 o st).
Proof.
  destruct o; cbn [handle_opt];
    cpost_auto ltac:(first
      [ eapply cpost_mono; [..|apply lookup_user_post]; solve [auto | intros _ []]
      | apply post_cpost; eapply post_mono; [..|apply (@usage_post main_locals)];
        solve [auto | intros _ [] | intros c ->; left; reflexivity] ]).
Qed.

Lemma getopt_loop_post argv0 opts st :
  cpost (@is_getopt_call) False any_value exit_0_or_1 (getopt_loop argv0 opts st).
Proof.
  revert st. induction opts as [|o opts IH]; intros st; cbn [getopt_loop].
  - exact I.
  - apply cpost_bind with (PrA := any_value); [apply handle_opt_post|auto].
Qed.

Lemma move_interfaces_post pid ifs :
  post (@is_relocator_call) True any_value exit_1 (move_interfaces pid ifs).
Proof.
  revert pid. induction ifs as [|i ifs IH]; intros pid; cbn [move_interfaces].
  - exact I.
  - post_auto ltac:(apply IH).
Qed.

Lemma launch_post argv0 st rest :
  post (@is_launch_call) True (@no_value Z) exit_0_or_1 (launch argv0 st rest).
Proof.
  unfold launch.
  post_auto ltac:(first
    [ eapply post_mono; [..|apply (@usage_post_launch unit)];
      solve [auto | intros _ [] | intros c ->; left; reflexivity]
    | eapply post_mono; [..|apply move_interfaces_post];
      solve [auto | intros T []; simpl; auto | intros c ->; right; reflexivity] ]).
Qed.

(** A program that never returns ends every sequence it starts. *)
Lemma runs_bind_no_return {A B : Type} Pe Px Pc (p : prog A) (k : A -> prog B) tr out :
  post Pe Px no_value Pc p -> runs (bind p k) tr out ->
  Forall (event_ok Pe Px) tr /\ outcome_ok Px (@no_value B) Pc out.
Proof.
  intros Hp H.
  destruct (runs_bind_inv _ _ _ _ H)
    as [[a [t1 [t2 [-> [H1 H2]]]]]|[[c [H1 ->]]|[[f [av [H1 ->]]]|[H1 ->]]]].
  - destruct (post_outcome _ _ _ _ _ _ _ Hp H1).
  - exact (post_runs _ _ _ _ _ _ _ Hp H1).
  - exact (post_runs _ _ _ _ _ _ _ Hp H1).
  - destruct (post_no_crash _ _ _ _ _ _ Hp H1).
Qed.

Lemma first_some_none {A : Type} (f : event -> option A) tr :
  Forall (fun ev => f ev = None) tr -> first_some f tr = None.
Proof.
  induction 1 as [|x l Hx _ IH]; simpl; [reflexivity|]. now rewrite Hx.
Qed.

Lemma first_some_app {A : Type} (f : event -> option A) t1 t2 :
  first_some f t1 = None -> first_some f (t1 ++ t2) = first_some f t2.
Proof.
  induction t1 as [|x l IH]; simpl; [reflexivity|].
  destruct (f x); [discriminate|]. exact IH.
Qed.

(** Events of one kind answer nothing to an observer of another kind. *)
Lemma unobserved {A : Type} (f : event -> option A)
    (Pe : forall T : Type, syscall T -> bool) tr :
  (forall T (e : syscall T) r, Pe T e = true -> f (Ev e r) = None) ->
  (forall g av ok, f (EvExec g av ok) = None) ->
  Forall (event_ok Pe True) tr -> Forall (fun ev => f ev = None) tr.
Proof.
  intros He Hx. apply Forall_impl. intros [T e r|g av ok]; simpl; auto.
Qed.

Lemma event_ok_weaken Pe (Px Px' : Prop) tr :
  (Px -> Px') -> Forall (event_ok Pe Px) tr -> Forall (event_ok Pe Px') tr.
Proof.
  intros Hx. apply Forall_impl. intros [T e r|g av ok]; simpl; auto.
Qed.

(** The statement a sequence starts with. *)
Ltac head_of p :=
  lazymatch p with
  | bind ?q _ => head_of q
  | _ => p
  end.

(** One step of a run: the first call of the program with its answer, or the
    branch taken. *)
Ltac runs_step H :=
  unfold when, trigger, fprintf_stderr in H;
  cbn [bind runs args flags uid setuid want_default_mounts wait_fd want_hostname
       set_wait_fd set_args_flags] in H;
  lazymatch type of H with
  | exists _, _ => let r := fresh "r" in let t := fresh "t" in
                   destruct H as [r [t [-> H]]]
  | _ /\ _ => let E1 := fresh in let E2 := fresh in
              destruct H as [E1 E2]; try (injection E2 as E2); subst
  | runs ?p _ _ =>
      let h := head_of p in
      lazymatch h with
      | if ?c then _ else _ => destruct c eqn:?
      | match ?c with Some _ => _ | None => _ end => destruct c eqn:?
      end
  end.

Lemma truthy_false z : truthy z = false <-> z = 0.
Proof. unfold truthy. destruct (Z.eqb_spec z 0); simpl; split; congruence. Qed.

Lemma is_nil_true {A : Type} (l : list A) : is_nil l = true <-> l = [].
Proof. destruct l; simpl; split; congruence. Qed.

Lemma is_some_false {A : Type} (o : option A) : is_some o = false <-> o = None.
Proof. destruct o; simpl; split; congruence. Qed.

(** ** Validation of the request *)

(** C1, as the code has it: once the namespace flags [fl] are computed, a
    request with interfaces but without NETWORK, with a hostname but without
    UTSNAME, or with the default mounts but without MOUNT ends with a message
    on stderr and [exit (EXIT_FAILURE)], and no process has been created.
    (An identity remap without USER is not among the rejected requests.) *)
Theorem launch_rejects_unmet_option_preconditions
    (argv0 : string) (st : main_locals) (rest : list string) tr out (fl : Z) :
  runs (launch argv0 st rest) tr out ->
  first_some fill_flags_answer tr = Some (0, fl) ->
  (Z.land fl CLONE_NEWNET = 0 /\ my_iflist st <> []) \/
  (Z.land fl CLONE_NEWUTS = 0 /\ want_hostname (start st) <> None) \/
  (Z.land fl CLONE_NEWNS = 0 /\ want_default_mounts (start st) <> 0) ->
  out = Exited EXIT_FAILURE
  /\ Forall (fun ev => is_spawn_event ev = false) tr
  /\ exists pre msg, tr = pre ++ [Ev (Fprintf_stderr msg []) tt].
Proof.
  intros H Hfl Hbad. unfold launch in H.
  runs_step H. { runs_step H. runs_step H. discriminate Hfl. }
  runs_step H.
  runs_step H. { runs_step H. discriminate Hfl. }
  runs_step H.
  runs_step H.
  { exfalso. cbn in Hfl.
    destruct (runs_bind_no_return _ _ _ _ _ _ _ (usage_post argv0) H) as [Hev _].
    rewrite first_some_none in Hfl; [discriminate|].
    eapply unobserved; [| |eapply event_ok_weaken; [|exact Hev]; tauto].
    - intros T []; simpl; congruence.
    - reflexivity. }
  runs_step H.
  cbn in Hfl. injection Hfl as Hfl. subst r1. cbn [fst snd] in *.
  change (truthy 0) with false in H.
  runs_step H.
  { (* -i without NETWORK *)
    runs_step H. runs_step H. destruct r1.
    split; [reflexivity|]. split; [repeat constructor|].
    eexists [_; _; _], _. reflexivity. }
  runs_step H.
  { (* -H without UTSNAME *)
    runs_step H. runs_step H. destruct r1.
    split; [reflexivity|]. split; [repeat constructor|].
    eexists [_; _; _], _. reflexivity. }
  runs_step H.
  { (* -M without MOUNT *)
    runs_step H. runs_step H. destruct r1.
    split; [reflexivity|]. split; [repeat constructor|].
    eexists [_; _; _], _. reflexivity. }
  exfalso.
  apply andb_false_iff in Heqb2, Heqb3, Heqb4.
  rewrite !negb_false_iff in *.
  destruct Hbad as [[Hz Hne]|[[Hz Hne]|[Hz Hne]]].
  - destruct Heqb2 as [Ht|Hn].
    + rewrite Hz in Ht. discriminate Ht.
    + apply is_nil_true in Hn. congruence.
  - destruct Heqb3 as [Ht|Hn].
    + rewrite Hz in Ht. discriminate Ht.
    + apply is_some_false in Hn. congruence.
  - destruct Heqb4 as [Ht|Hn].
    + rewrite Hz in Ht. discriminate Ht.
    + apply truthy_false in Hn. congruence.
Qed.

Lemma launch_rejects_unmet_option_preconditions_witness :
  snd (run pid_only_os (launch "lxc-unshare" unmet_locals ["/bin/true"]))
  = Exited EXIT_FAILURE.
Proof.
  refine (proj1 (launch_rejects_unmet_option_preconditions
                   "lxc-unshare" unmet_locals ["/bin/true"] _ _ CLONE_NEWPID
                   (run_runs pid_only_os _) eq_refl _)).
  left. split; [reflexivity | discriminate].
Defined.

(** C1 as stated fails: after [-s MOUNT -u 1000] the identity remap comes
    without the USER flag, and yet [main] creates the eventfd and clones the
    guest. *)
Lemma remap_without_user_flag_is_launched :
  ~ (forall argv0 st rest tr out fl,
       runs (launch argv0 st rest) tr out ->
       first_some fill_flags_answer tr = Some (0, fl) ->
       (setuid (start st) = true /\ Z.land fl CLONE_NEWUSER = 0) \/
       (Z.land fl CLONE_NEWUTS = 0 /\ want_hostname (start st) <> None) \/
       (Z.land fl CLONE_NEWNET = 0 /\ my_iflist st <> []) \/
       (Z.land fl CLONE_NEWNS = 0 /\ want_default_mounts (start st) <> 0) ->
       (exists c, out = Exited c /\ c <> 0)
       /\ Forall (fun ev => is_spawn_event ev = false) tr).
Proof.
  intros H.
  destruct (H "lxc-unshare" remap_no_user_locals ["/bin/true"] _ _ CLONE_NEWNS
              (run_runs remap_no_user_os _) eq_refl (or_introl (conj eq_refl eq_refl)))
    as [_ Hall].
  rewrite Forall_forall in Hall.
  assert (Hc : is_spawn_event
                 (Ev (Lxc_clone
                        {| args := ["/bin/true"]; flags := CLONE_NEWNS; uid := 1000;
                           setuid := true; want_default_mounts := 0; wait_fd := 3;
                           want_hostname := None |} CLONE_NEWNS) 4242) = false).
  { apply Hall. simpl. tauto. }
  discriminate Hc.
Qed.

Example remap_without_user_flag_run :
  run remap_no_user_os (main "lxc-unshare" [Opt_s "MOUNT"; Opt_u "1000"] ["/bin/true"])
  = ([Ev Sysconf_GETPW_R_SIZE_MAX 1024; Ev (Malloc 1024) true;
      Ev (Sscanf_u "1000") (Some 1000); Ev (Getpwuid_r 1000) (0, Some 1000);
      Ev Lxc_caps_init 0;
      Ev (Lxc_namespace_2_std_identifiers (Some "MOUNT")) (0, Some "MOUNT");
      Ev (Lxc_fill_namespace_flags (Some "MOUNT") 0) (0, CLONE_NEWNS);
      Ev (Eventfd 0 EFD_CLOEXEC) 3;
      Ev (Lxc_clone
            {| args := ["/bin/true"]; flags := CLONE_NEWNS; uid := 1000;
               setuid := true; want_default_mounts := 0; wait_fd := 3;
               want_hostname := None |} CLONE_NEWNS) 4242;
      Ev Getuid 0;
      Ev (Write_id_mapping ID_TYPE_UID 4242 ("1000 0 1" ++ LF)%string 9) (-1);
      Ev (FdClose 3) 0;
      Ev (Fprintf_stderr ("uid mapping failed" ++ LF)%string []) tt],
     Exited 1).
Proof. reflexivity. Qed.

(** ** Exit codes *)

Lemma usage_ends {A B : Type} (cmd : string) (k : A -> prog B) tr out :
  runs (bind (usage cmd) k) tr out ->
  out = Exited EXIT_SUCCESS /\ Forall (event_ok (@is_getopt_call) False) tr.
Proof.
  intros H.
  destruct (runs_bind_no_return _ _ _ _ _ _ _ (usage_post cmd) H) as [Hev Hout].
  split; [|exact Hev].
  destruct out as [r|c|f av|]; simpl in Hout; try contradiction.
  now rewrite Hout.
Qed.

Lemma getopt_events_do_not_spawn tr :
  Forall (event_ok (@is_getopt_call) False) tr ->
  Forall (fun ev => is_spawn_event ev = false) tr.
Proof.
  apply Forall_impl. intros [T e r|f av ok]; simpl; [|tauto].
  destruct e; simpl; congruence.
Qed.

(** C6, evaluated on the code: when the namespace list is rejected, by
    [lxc_namespace_2_std_identifiers] or by [lxc_fill_namespace_flags],
    [main] calls [usage], which ends the process with [EXIT_SUCCESS]: an
    invocation that ends in a usage error has exit code 0. *)
Theorem launch_exits_0_when_namespaces_are_rejected
    (argv0 : string) (st : main_locals) (rest : list string) tr out :
  runs (launch argv0 st rest) tr out ->
  (exists r, first_some std_identifiers_ret tr = Some r /\ r < 0) \/
  (exists r fl, first_some fill_flags_answer tr = Some (r, fl) /\ r <> 0) ->
  out = Exited EXIT_SUCCESS /\ Forall (fun ev => is_spawn_event ev = false) tr.
Proof.
  intros H Hbad. unfold launch in H.
  runs_step H.
  { runs_step H. runs_step H. destruct Hbad as [[x [E _]]|[x [fl [E _]]]]; discriminate E. }
  runs_step H.
  runs_step H.
  { runs_step H. destruct Hbad as [[x [E _]]|[x [fl [E _]]]]; discriminate E. }
  runs_step H.
  runs_step H.
  { destruct (usage_ends _ _ _ _ H) as [-> Hev]. split; [reflexivity|].
    repeat constructor. now apply getopt_events_do_not_spawn. }
  runs_step H.
  runs_step H.
  { destruct (usage_ends _ _ _ _ H) as [-> Hev]. split; [reflexivity|].
    repeat constructor. now apply getopt_events_do_not_spawn. }
  exfalso. destruct Hbad as [[x [E Hr]]|[x [fl [E Hr]]]]; cbn in E.
  - injection E as <-. apply Z.ltb_ge in Heqb1. lia.
  - injection E as E. rewrite E in Heqb2. cbn [fst] in Heqb2.
    apply truthy_false in Heqb2. congruence.
Qed.

Lemma launch_exits_0_when_namespaces_are_rejected_witness :
  snd (run bogus_ns_os (main "lxc-unshare" [Opt_s "BOGUS"] ["/bin/true"]))
  = Exited EXIT_SUCCESS.
Proof.
  refine (proj1 (launch_exits_0_when_namespaces_are_rejected
                   "lxc-unshare"
                   {| namespaces := Some "BOGUS"; daemonize := 0; my_iflist := [];
                      start := init_start_arg |}
                   ["/bin/true"] _ _ (run_runs bogus_ns_os _) _)).
  right. exists (-1), 0. split; [reflexivity | discriminate].
Defined.

(** The same without any [-s]: the command line [lxc-unshare /bin/true]. *)
Example main_without_namespaces_exits_0 :
  snd (run no_ns_os (main "lxc-unshare" [] ["/bin/true"])) = Exited EXIT_SUCCESS
  /\ existsb is_spawn_event (fst (run no_ns_os (main "lxc-unshare" [] ["/bin/true"]))) = false.
Proof. split; reflexivity. Qed.

(** ** The uid map *)

Lemma not_in_unobserved {A : Type} (f : event -> option A) tr ev a :
  Forall (fun ev => f ev = None) tr -> In ev tr -> f ev = Some a -> False.
Proof.
  intros Hall Hin Hf. rewrite Forall_forall in Hall.
  rewrite (Hall _ Hin) in Hf. discriminate Hf.
Qed.

Lemma move_interfaces_late pid ifs :
  post (@is_late_call) True any_value exit_0_or_1 (move_interfaces pid ifs).
Proof.
  eapply post_mono; [..|apply move_interfaces_post]; auto.
  - intros T []; simpl; auto.
  - intros c ->. right; reflexivity.
Qed.

Ltac late_post := post_auto ltac:(apply move_interfaces_late).

Lemma late_events_unobserved tr :
  Forall (event_ok (@is_late_call) True) tr ->
  Forall (fun ev => write_id_mapping_call ev = None) tr.
Proof.
  apply unobserved; [|reflexivity]. intros T []; simpl; congruence.
Qed.

Lemma getopt_events_unobserved tr :
  Forall (event_ok (@is_getopt_call) False) tr ->
  Forall (fun ev => write_id_mapping_call ev = None) tr.
Proof.
  intros H. apply (unobserved _ (@is_getopt_call)); [|reflexivity|].
  - intros T []; simpl; congruence.
  - eapply event_ok_weaken; [|exact H]. tauto.
Qed.

(** Looks for [ev] among the explicit events of a trace. *)
Ltac find_event Hin Hev :=
  repeat (destruct Hin as [Hin|Hin]; [subst; try discriminate Hev|]).

(** C2, as the code has it: every line that [main] hands to
    [write_id_mapping] for the guest [pid] is
    [<target-uid> <requester-uid> 1] followed by a newline, the target being
    the uid resolved from [-u] (the one the guest gets in its [start_arg])
    and the requester the result of [getuid]. *)
Theorem uid_map_line_is_target_then_requester
    (argv0 : string) (st : main_locals) (rest : list string) tr out
    (ev : event) (t : idtype) (pid : Z) (buf : string) (len : Z) :
  runs (launch argv0 st rest) tr out ->
  In ev tr ->
  write_id_mapping_call ev = Some (t, pid, buf, len) ->
  exists pre post sa fl requester,
    tr = pre ++ Ev (Lxc_clone sa fl) pid :: Ev Getuid requester :: ev :: post
    /\ uid sa = uid (start st)
    /\ t = ID_TYPE_UID
    /\ buf = snprintf_umap (uid (start st)) requester
    /\ len = strlen buf.
Proof.
  intros H Hin Hev. unfold launch in H.
  runs_step H. { runs_step H. runs_step H. find_event Hin Hev. destruct Hin. }
  runs_step H.
  runs_step H. { runs_step H. find_event Hin Hev. destruct Hin. }
  runs_step H.
  runs_step H.
  { destruct (usage_ends _ _ _ _ H) as [_ Hu]. find_event Hin Hev.
    destruct (not_in_unobserved _ _ _ _ (getopt_events_unobserved _ Hu) Hin Hev). }
  runs_step H.
  runs_step H.
  { destruct (usage_ends _ _ _ _ H) as [_ Hu]. find_event Hin Hev.
    destruct (not_in_unobserved _ _ _ _ (getopt_events_unobserved _ Hu) Hin Hev). }
  runs_step H. { runs_step H. runs_step H. find_event Hin Hev. destruct Hin. }
  runs_step H. { runs_step H. runs_step H. find_event Hin Hev. destruct Hin. }
  runs_step H. { runs_step H. runs_step H. find_event Hin Hev. destruct Hin. }
  runs_step H.
  - (* identity remap requested *)
    runs_step H.
    runs_step H. { runs_step H. runs_step H. find_event Hin Hev. destruct Hin. }
    runs_step H.
    runs_step H. { runs_step H. runs_step H. find_event Hin Hev. destruct Hin. }
    runs_step H.
    runs_step H.
    { runs_step H. runs_step H. runs_step H. find_event Hin Hev. destruct Hin. }
    runs_step H.
    apply (post_events (@is_late_call) True exit_0_or_1 any_value) in H; [|late_post].
    find_event Hin Hev.
    + cbn in Hev. injection Hev as <- <- <- <-.
      eexists [_; _; _; _], _, _, _, _. split; [reflexivity|]. auto.
    + destruct (not_in_unobserved _ _ _ _ (late_events_unobserved _ H) Hin Hev).
  - (* no identity remap: nothing is written *)
    runs_step H.
    runs_step H. { runs_step H. runs_step H. find_event Hin Hev. destruct Hin. }
    apply (post_events (@is_late_call) True exit_0_or_1 any_value) in H; [|late_post].
    find_event Hin Hev.
    destruct (not_in_unobserved _ _ _ _ (late_events_unobserved _ H) Hin Hev).
Qed.

Example snprintf_umap_example :
  snprintf_umap 1000 0 = ("1000 0 1" ++ LF)%string
  /\ spec_umap_line 0 1000 = "0 1000 1".
Proof. split; reflexivity. Qed.

Lemma uid_map_line_is_target_then_requester_witness :
  exists pre post sa fl requester,
    fst (run remap_os (launch "lxc-unshare" remap_locals ["/bin/true"]))
    = pre ++ Ev (Lxc_clone sa fl) 4242 :: Ev Getuid requester
          :: Ev (Write_id_mapping ID_TYPE_UID 4242 ("1000 0 1" ++ LF)%string 9) 0 :: post
    /\ uid sa = 1000
    /\ ID_TYPE_UID = ID_TYPE_UID
    /\ ("1000 0 1" ++ LF)%string = snprintf_umap 1000 requester
    /\ 9 = strlen ("1000 0 1" ++ LF)%string.
Proof.
  apply (uid_map_line_is_target_then_requester
           "lxc-unshare" remap_locals ["/bin/true"] _ _
           (Ev (Write_id_mapping ID_TYPE_UID 4242 ("1000 0 1" ++ LF)%string 9) 0)
           ID_TYPE_UID 4242 ("1000 0 1" ++ LF)%string 9
           (run_runs remap_os _)).
  - simpl. tauto.
  - reflexivity.
Defined.

(** C2 as stated fails: root (uid 0) asking for uid 1000 writes the line
    [1000 0 1], not [0 1000 1], with or without the newline. *)
Lemma uid_map_line_is_not_requester_first :
  ~ (forall argv0 st rest tr out ev t pid buf len requester,
       runs (launch argv0 st rest) tr out ->
       In ev tr ->
       write_id_mapping_call ev = Some (t, pid, buf, len) ->
       In (Ev Getuid requester) tr ->
       buf = spec_umap_line requester (uid (start st))
       \/ buf = (spec_umap_line requester (uid (start st)) ++ LF)%string).
Proof.
  intros H.
  assert (Hin : In (Ev (Write_id_mapping ID_TYPE_UID 4242 ("1000 0 1" ++ LF)%string 9) 0)
                  (fst (run remap_os (launch "lxc-unshare" remap_locals ["/bin/true"]))))
    by (simpl; tauto).
  assert (Hg : In (Ev Getuid 0)
                 (fst (run remap_os (launch "lxc-unshare" remap_locals ["/bin/true"]))))
    by (simpl; tauto).
  destruct (H "lxc-unshare" remap_locals ["/bin/true"] _ _ _ _ _ _ _ 0
              (run_runs remap_os _) Hin eq_refl Hg) as [E|E];
    vm_compute in E; discriminate E.
Qed.

(** ** The end of [main] *)

Lemma usage_not_cloned {A B : Type} (cmd : string) (k : A -> prog B) tr out :
  runs (bind (usage cmd) k) tr out -> first_some clone_call tr = None.
Proof.
  intros H. destruct (usage_ends _ _ _ _ H) as [_ Hu].
  apply first_some_none. apply (unobserved _ (@is_getopt_call)); [|reflexivity|].
  - intros T []; simpl; congruence.
  - eapply event_ok_weaken; [|exact Hu]. tauto.
Qed.

Lemma main_post argv0 opts rest :
  cpost (fun T e => is_getopt_call e || is_launch_call e)%bool True
    (@no_value Z) exit_0_or_1 (main argv0 opts rest).
Proof.
  unfold main. apply cpost_bind with (PrA := any_value).
  - eapply cpost_mono; [..|apply getopt_loop_post]; auto.
    intros T e ->. reflexivity.
  - intros st _. apply post_cpost. eapply post_mono; [..|apply launch_post]; auto.
    intros T e ->. apply orb_true_r.
Qed.

Example guest_status_7_yields_1 :
  snd (run failing_guest_os
         (main "lxc-unshare" [Opt_s "PID"] ["/bin/sh"; "-c"; "exit 7"]))
  = Exited 1.
Proof. reflexivity. Qed.

Example detached_main_does_not_wait :
  run pid_only_os (main "lxc-unshare" [Opt_s "PID"; Opt_d] ["/bin/sh"; "-c"; "exit 7"])
  = ([Ev Lxc_caps_init 0;
      Ev (Lxc_namespace_2_std_identifiers (Some "PID")) (0, Some "PID");
      Ev (Lxc_fill_namespace_flags (Some "PID") 0) (0, CLONE_NEWPID);
      Ev (Lxc_clone {| args := ["/bin/sh"; "-c"; "exit 7"]; flags := CLONE_NEWPID;
                       uid := 0; setuid := false; want_default_mounts := 0;
                       wait_fd := 0; want_hostname := None |} CLONE_NEWPID) 4242],
     Exited 0).
Proof. reflexivity. Qed.

(** ** Resolving the identity token *)


Lemma usage_calls {R : Type} (cmd : string) :
  post (@is_usage_call) False (@no_value R) exit_0 (usage cmd).
Proof. unfold usage. post_tac. Qed.





(** The one undefined behaviour of [main] is the overflow of [name]. *)
Ltac no_overflow :=
  split; [discriminate|];
  let ev := fresh "ev" in let Hin := fresh "Hin" in let Hev := fresh "Hev" in
  intros ev Hin Hev; exfalso;
  repeat (destruct Hin as [<-|Hin]; [try discriminate Hev; cbn in Hev; congruence|]);
  destruct Hin.

Lemma calls_without_overflow (Pe : forall T : Type, syscall T -> bool) (Px : Prop) tr :
  (forall s, Pe _ (Sscanf_s s) = false) ->
  Forall (event_ok Pe Px) tr ->
  forall ev, In ev tr -> overlong_name ev = false.
Proof.
  intros Hs Hev ev Hin. rewrite Forall_forall in Hev. specialize (Hev _ Hin).
  destruct ev as [T e r|f av ok]; [|reflexivity].
  destruct e; try reflexivity. simpl in Hev. rewrite Hs in Hev. discriminate Hev.
Qed.

Lemma crash_explained_in {R : Type} tr (out : outcome R) :
  crash_explained tr out -> out = Crashed ->
  exists ev, In ev tr /\ overlong_name ev = true.
Proof.
  intros [H _] E. destruct (H E) as [pre [ev [-> Hev]]].
  exists ev. split; [apply in_or_app; right; left; reflexivity|exact Hev].
Qed.

Lemma crash_explained_bind {A B : Type} (p : prog A) (k : A -> prog B) tr out :
  (forall t o, runs p t o -> crash_explained t o) ->
  (forall a t o, runs (k a) t o -> crash_explained t o) ->
  runs (bind p k) tr out -> crash_explained tr out.
Proof.
  intros Hp Hk H.
  destruct (runs_bind_inv _ _ _ _ H)
    as [[a [t1 [t2 [-> [H1 H2]]]]]|[[c [H1 ->]]|[[f [av [H1 ->]]]|[H1 ->]]]].
  - destruct (Hp _ _ H1) as [_ Hp2]. destruct (Hk _ _ _ H2) as [Hk1 Hk2]. split.
    + intros E. destruct (Hk1 E) as [pre [ev [-> Hev]]].
      exists (t1 ++ pre)%list, ev. split; [apply app_assoc|exact Hev].
    + intros ev Hin Hev. apply in_app_or in Hin. destruct Hin as [Hin|Hin].
      * discriminate (Hp2 ev Hin Hev).
      * exact (Hk2 ev Hin Hev).
  - destruct (Hp _ _ H1) as [_ Hp2]. split; [discriminate|].
    intros ev Hin Hev. discriminate (Hp2 ev Hin Hev).
  - destruct (Hp _ _ H1) as [_ Hp2]. split; [discriminate|].
    intros ev Hin Hev. discriminate (Hp2 ev Hin Hev).
  - destruct (Hp _ _ H1) as [Hp1 _]. split; [intros _; now apply Hp1|reflexivity].
Qed.

Lemma crash_explained_post {R : Type} (Pe : forall T : Type, syscall T -> bool)
    Px Pr Pc (p : prog R) tr out :
  (forall s, Pe _ (Sscanf_s s) = false) ->
  post Pe Px Pr Pc p -> runs p tr out -> crash_explained tr out.
Proof.
  intros Hs Hp H. split.
  - intros ->. destruct (post_no_crash _ _ _ _ _ _ Hp H).
  - intros ev Hin Hev.
    rewrite (calls_without_overflow Pe Px tr Hs (post_events _ _ _ _ _ _ _ Hp H) ev Hin)
      in Hev.
    discriminate Hev.
Qed.

Lemma lookup_user_overflow optarg uid0 tr out :
  runs (lookup_user optarg uid0) tr out -> crash_explained tr out.
Proof.
  intros H. unfold lookup_user in H.
  destruct optarg as [s|].
  2:{ runs_step H. no_overflow. }
  destruct s as [|a s]; cbn [is_empty_string] in H.
  { runs_step H. no_overflow. }
  runs_step H. runs_step H.
  destruct r0; cbn [negb] in H.
  2:{ runs_step H. no_overflow. }
  runs_step H. runs_step H.
  - repeat runs_step H; no_overflow.
  - runs_step H. runs_step H.
    2:{ runs_step H. no_overflow. }
    runs_step H.
    { runs_step H. split; [|reflexivity]. intros _.
      refine (ex_intro _ [_; _; _] _).
      exists (Ev (Sscanf_s (String a s)) (Some s0)). split; [reflexivity|exact Heqb]. }
    repeat runs_step H; no_overflow.
Qed.

Lemma handle_opt_overflow argv0 o st tr out :
  runs (handle_opt argv0 o st) tr out -> crash_explained tr out.
Proof.
  intros H. destruct o; cbn [handle_opt] in H.
  - runs_step H. no_overflow.
  - revert H. apply crash_explained_bind.
    + apply lookup_user_overflow.
    + intros [b u] t o H. cbn [fst snd] in H.
      destruct b; cbn [negb] in H; runs_step H; no_overflow.
  - exact (crash_explained_post _ _ _ _ _ _ _ (fun _ => eq_refl) (usage_calls argv0) H).
  - runs_step H. no_overflow.
  - repeat runs_step H; no_overflow.
  - runs_step H. no_overflow.
  - runs_step H. no_overflow.
  - runs_step H. no_overflow.
Qed.

Lemma getopt_loop_overflow argv0 opts st tr out :
  runs (getopt_loop argv0 opts st) tr out -> crash_explained tr out.
Proof.
  revert st tr out. induction opts as [|o opts IH]; intros st tr out H;
    cbn [getopt_loop] in H.
  - runs_step H. no_overflow.
  - revert H. apply crash_explained_bind.
    + apply handle_opt_overflow.
    + intros st1. apply IH.
Qed.


(** The [start_arg] the guest is cloned with carries the uid and the
    [setuid] flag that the option loop left. *)
Lemma launch_clone_arg argv0 st rest tr out sa fl pid :
  runs (launch argv0 st rest) tr out ->
  first_some clone_call tr = Some (sa, fl, pid) ->
  uid sa = uid (start st) /\ setuid sa = setuid (start st)
  /\ args sa = rest /\ flags sa = fl.
Proof.
  intros H Hcl. unfold launch in H.
  runs_step H. { runs_step H. runs_step H. discriminate Hcl. }
  runs_step H.
  runs_step H. { runs_step H. discriminate Hcl. }
  runs_step H.
  runs_step H. { cbn in Hcl. rewrite (usage_not_cloned _ _ _ _ H) in Hcl. discriminate Hcl. }
  runs_step H.
  runs_step H. { cbn in Hcl. rewrite (usage_not_cloned _ _ _ _ H) in Hcl. discriminate Hcl. }
  runs_step H. { runs_step H. runs_step H. discriminate Hcl. }
  runs_step H. { runs_step H. runs_step H. discriminate Hcl. }
  runs_step H. { runs_step H. runs_step H. discriminate Hcl. }
  runs_step H.
  - runs_step H.
    runs_step H. { runs_step H. runs_step H. discriminate Hcl. }
    runs_step H.
    cbn in Hcl. injection Hcl as <- <- <-. cbn. auto.
  - runs_step H.
    cbn in Hcl. injection Hcl as <- <- <-. cbn. auto.
Qed.

Lemma getopt_events_not_cloned tr :
  Forall (event_ok (@is_getopt_call) False) tr -> first_some clone_call tr = None.
Proof.
  intros H. apply first_some_none. apply (unobserved _ (@is_getopt_call)); [|reflexivity|].
  - intros T []; simpl; congruence.
  - eapply event_ok_weaken; [|exact H]. tauto.
Qed.








Example missing_token_run :
  run pid_only_os (main "lxc-unshare" [Opt_s "PID"; Opt_unknown] ["/bin/true"])
  = ([Ev Lxc_caps_init 0;
      Ev (Lxc_namespace_2_std_identifiers (Some "PID")) (0, Some "PID");
      Ev (Lxc_fill_namespace_flags (Some "PID") 0) (0, CLONE_NEWPID);
      Ev (Lxc_clone {| args := ["/bin/true"]; flags := CLONE_NEWPID;
                       uid := 0; setuid := false; want_default_mounts := 0;
                       wait_fd := 0; want_hostname := None |} CLONE_NEWPID) 4242;
      Ev (Wait_for_pid 4242) 0],
     Exited 0).
Proof. reflexivity. Qed.

(** A name of [MAXPATHLEN] characters after [-u]: the run ends with the
    [sscanf] that overflows [name]. *)
Example overlong_token_run :
  run quiet_os (main "lxc-unshare" [Opt_s "USER"; Opt_u overlong_token] ["/bin/true"])
  = ([Ev Sysconf_GETPW_R_SIZE_MAX 1024; Ev (Malloc 1024) true;
      Ev (Sscanf_u overlong_token) None;
      Ev (Sscanf_s overlong_token) (Some overlong_token)],
     Crashed).
Proof. vm_compute. reflexivity. Qed.

Example unknown_uid_run :
  run unknown_uid_os (main "lxc-unshare" [Opt_s "USER"; Opt_u "4711"] ["/bin/true"])
  = ([Ev Sysconf_GETPW_R_SIZE_MAX 1024; Ev (Malloc 1024) true;
      Ev (Sscanf_u "4711") (Some 4711); Ev (Getpwuid_r 4711) (0, None);
      Ev (Fprintf_stderr ("Could not find matched password record" ++ LF)%string []) tt;
      Ev (Fprintf_stderr ("Invalid uid %u" ++ LF)%string [FInt 4711]) tt],
     Exited 1).
Proof. reflexivity. Qed.

Example empty_token_is_rejected (argv0 : string) (st : main_locals) :
  handle_opt argv0 (Opt_u "") st = Exit EXIT_FAILURE.
Proof. reflexivity. Qed.

(** ** The gate between parent and guest *)

(** *** The guest's text *)

Lemma guest_ok_open a p : guest_ok a true p.
Proof.
  induction p as [r|c|f av h IH|T e h IH|]; simpl; auto.
Qed.

Lemma guest_ok_without_remap a (p : prog Z) open :
  setuid a = false ->
  post not_setuid_call True any_value (fun _ => True) p ->
  guest_ok a open (process p).
Proof.
  intros Hs. unfold process. revert open.
  induction p as [r|c|f av h IH|T e h IH|]; simpl; intros open Hp; auto.
  - destruct Hp as [_ Hp]. split; [congruence|auto].
  - destruct Hp as [He Hp]. split; [|auto].
    unfold guarded_call. rewrite Hs. unfold not_setuid_call in He.
    destruct (is_setuid_call e); simpl in *; congruence.
Qed.

Lemma do_start_guest_ok a : guest_ok a false (process (do_start a)).
Proof.
  destruct (setuid a) eqn:Hs.
  - unfold process, do_start. rewrite Hs.
    unfold when at 1. unfold trigger at 1. cbn [bind guest_ok].
    split.
    + unfold guarded_call. rewrite Hs. simpl. discriminate.
    + intros r. unfold gate_pass. rewrite Hs, Z.eqb_refl. cbn [andb orb].
      destruct (r =? -1) eqn:Hr; cbn [negb]; [|apply guest_ok_open].
      unfold when at 1, trigger, fprintf_stderr. cbn [bind guest_ok].
      repeat match goal with
             | |- _ /\ _ => split
             | |- guarded_call _ _ = true -> _ =>
                 let H := fresh in
                 intro H; unfold guarded_call in H; rewrite Hs in H; discriminate H
             | |- forall _, _ => intro
             | |- True => exact I
             | |- guest_ok _ _ _ =>
                 progress (unfold trigger, fprintf_stderr;
                           cbn [bind guest_ok gate_pass orb])
             end.
  - apply guest_ok_without_remap; [exact Hs|].
    unfold do_start. rewrite Hs.
    post_auto ltac:(eapply post_mono; [..|apply lxc_setup_fs_post];
                    solve [auto | intros T []; simpl; auto | intros []]).
Qed.

Lemma do_start_quiet a : quiet (process (do_start a)).
Proof.
  unfold quiet, process. apply post_bind with (PrA := any_value).
  - unfold do_start.
    post_auto ltac:(eapply post_mono; [..|apply lxc_setup_fs_post];
                    solve [auto | intros T []; simpl; auto | intros []]).
  - intros r _. exact I.
Qed.

(** With the identity remap requested, the guest's first action is the read
    of its [wait_fd]. *)
Lemma do_start_waits_first a :
  setuid a = true ->
  exists k, do_start a = Vis (FdRead (wait_fd a) sizeof_uint64) k.
Proof.
  intros Hs. unfold do_start. rewrite Hs.
  unfold when at 1. unfold trigger at 1. cbn [bind]. eexists. reflexivity.
Qed.

(** *** The parent's text *)

Lemma quiet_bind {A B : Type} (p : prog A) (k : A -> prog B) :
  quiet p -> quiet (bind p k).
Proof.
  intros Hp. unfold quiet in *.
  apply post_bind with (PrA := no_value); [exact Hp|intros a []].
Qed.

Lemma call_allowed_bind {A B : Type} efd m s (T : Type) (e : syscall T)
    (h : T -> prog A) (k : A -> prog B) :
  call_allowed efd m s e h -> call_allowed efd m s e (fun r => bind (h r) k).
Proof.
  destruct e; simpl; auto. apply quiet_bind.
Qed.

Lemma parent_ok_bind {A B : Type} (Q : option Z -> bool -> bool -> B -> Prop)
    (p : prog A) (k : A -> prog B) efd m s :
  parent_ok (fun efd' m' s' a => parent_ok Q efd' m' s' (k a)) efd m s p ->
  parent_ok Q efd m s (bind p k).
Proof.
  revert efd m s. induction p as [r|c|f av h IH|T e h IH|]; simpl; intros efd m s Hp; auto.
  destruct Hp as [Ha Hp]. split; [now apply call_allowed_bind|auto].
Qed.

(** Quiet calls are allowed anywhere and change nothing. *)
Lemma quiet_calls_parent_ok_c {R : Type} (Q : option Z -> bool -> bool -> R -> Prop)
    (Px : Prop) (Pr : R -> Prop) (Pc : Z -> Prop) (p : prog R) efd m s :
  cpost (@is_quiet_call) Px Pr Pc p ->
  (forall a, Pr a -> Q efd m s a) ->
  parent_ok Q efd m s p.
Proof.
  intros Hp HQ. induction p as [r|c|f av h IH|T e h IH|]; simpl in *; auto.
  - destruct Hp; auto.
  - destruct Hp as [He Hp]. split.
    + destruct e; simpl in *; auto; discriminate He.
    + intros r.
      replace (efd_after efd e r) with efd by (destruct e; simpl in *; auto; discriminate He).
      replace (map_ok e r) with false by (destruct e; simpl in *; auto; discriminate He).
      replace (is_fdwrite_call e) with false by (destruct e; simpl in *; auto; discriminate He).
      rewrite !orb_false_r. auto.
Qed.

Lemma quiet_calls_parent_ok {R : Type} (Q : option Z -> bool -> bool -> R -> Prop)
    (Px : Prop) (Pr : R -> Prop) (Pc : Z -> Prop) (p : prog R) efd m s :
  post (@is_quiet_call) Px Pr Pc p ->
  (forall a, Pr a -> Q efd m s a) ->
  parent_ok Q efd m s p.
Proof.
  intros Hp. apply quiet_calls_parent_ok_c with (Px := Px) (Pc := Pc).
  now apply post_cpost.
Qed.

Lemma usage_parent_ok {R : Type} (Q : option Z -> bool -> bool -> R -> Prop) cmd efd m s :
  parent_ok Q efd m s (usage cmd).
Proof.
  apply quiet_calls_parent_ok with (Px := False) (Pr := no_value) (Pc := exit_0).
  - eapply post_mono; [..|apply usage_calls]; auto. intros T []; simpl; auto.
  - intros a [].
Qed.

(** In the helper, where [fork] gave 0, what is left of the loop is the
    exec of [ip]. *)
Lemma helper_is_quiet {R : Type} (mi_ifname : string) (rest : prog R) :
  quiet
    (when (0 <? 0)
       (fprintf_stderr ("Failed to move network device " ++ DQ ++ "%s" ++ DQ
                        ++ " to network namespace" ++ LF)%string [FStr mi_ifname]) ;;
     when (0 =? 0)
       (let buf := fmt_d 0 in
        let ret := strlen buf in
        when ((ret <? 0) || (ret >=? 256)) (Exit EXIT_FAILURE) ;;
        Exec "ip" ["ip"; "link"; "set"; "dev"; mi_ifname; "netns"; buf]
          (Exit EXIT_FAILURE)) ;;
     rest).
Proof.
  change (0 <? 0) with false. change (0 =? 0) with true.
  change (fmt_d 0) with "0".
  change ((strlen "0" <? 0) || (strlen "0" >=? 256))%bool with false.
  unfold when. cbn [bind]. unfold quiet. simpl. auto.
Qed.

Lemma move_interfaces_parent_ok (Q : option Z -> bool -> bool -> unit -> Prop)
    pid ifs efd m s :
  Q efd m s tt -> parent_ok Q efd m s (move_interfaces pid ifs).
Proof.
  intros HQ. revert pid. induction ifs as [|i ifs IH]; intros pid; cbn [move_interfaces].
  - exact HQ.
  - unfold trigger at 1. cbn [bind parent_ok]. split.
    + cbn [call_allowed]. apply helper_is_quiet.
    + intros r. cbn [efd_after map_ok is_fdwrite_call]. rewrite !orb_false_r.
      apply parent_ok_bind.
      apply quiet_calls_parent_ok with (Px := True) (Pr := any_value) (Pc := exit_0_or_1);
        [post_tac|intros _ _].
      apply parent_ok_bind.
      apply quiet_calls_parent_ok with (Px := True) (Pr := any_value) (Pc := exit_0_or_1);
        [post_tac|intros _ _].
      apply parent_ok_bind.
      apply quiet_calls_parent_ok with (Px := True) (Pr := any_value) (Pc := exit_0_or_1);
        [post_tac|intros w _].
      apply parent_ok_bind.
      apply quiet_calls_parent_ok with (Px := True) (Pr := any_value) (Pc := exit_0_or_1);
        [post_tac|intros _ _].
      apply IH.
Qed.

(** Checks [parent_ok] along the program text. *)
Ltac pok :=
  cbn [args flags uid setuid want_default_mounts wait_fd want_hostname
       set_wait_fd set_args_flags negb];
  lazymatch goal with
  | |- parent_ok _ _ _ _ (bind _ _) => apply parent_ok_bind; pok
  | |- parent_ok ?Q ?e ?m ?s (when ?c ?b) =>
      change (parent_ok Q e m s (if c then b else Ret tt)); destruct c eqn:?; pok
  | |- parent_ok _ _ _ _ (if ?c then _ else _) => destruct c eqn:?; pok
  | |- parent_ok _ _ _ _ (usage _) => apply usage_parent_ok
  | |- parent_ok _ _ _ _ (move_interfaces _ _) => apply move_interfaces_parent_ok; pok
  | |- parent_ok ?Q ?e ?m ?s (trigger ?c) =>
      change (parent_ok Q e m s (Vis c Ret)); pok
  | |- parent_ok ?Q ?e ?m ?s (fprintf_stderr ?f ?a) =>
      change (parent_ok Q e m s (Vis (Fprintf_stderr f a) Ret)); pok
  | |- parent_ok _ _ _ _ (Vis _ _) =>
      cbn [parent_ok]; split;
      [ cbn [call_allowed args flags uid setuid want_default_mounts wait_fd
             want_hostname set_wait_fd set_args_flags];
        solve [ exact I | split; reflexivity
              | intros; first [reflexivity | discriminate | congruence] ]
      | intro; cbn [efd_after map_ok is_fdwrite_call orb]; pok ]
  | |- parent_ok _ _ _ _ (Ret _) => cbn [parent_ok]; pok
  | |- parent_ok _ _ _ _ (Exit _) => exact I
  | |- True => exact I
  | |- parent_ok _ _ _ _ _ => progress cbv zeta; pok
  end.

Lemma launch_parent_ok argv0 st rest :
  parent_ok (fun _ _ _ _ => True) None false false (launch argv0 st rest).
Proof. unfold launch. pok. Qed.

(** The option loop makes quiet calls only. *)
Lemma getopt_loop_quiet_calls argv0 opts st :
  cpost (@is_quiet_call) False any_value exit_0_or_1 (getopt_loop argv0 opts st).
Proof.
  eapply cpost_mono; [..|apply getopt_loop_post]; auto.
  intros T []; simpl; auto.
Qed.

Lemma parent_ok_weaken {R : Type} (Q Q' : option Z -> bool -> bool -> R -> Prop)
    (p : prog R) efd m s :
  (forall efd' m' s' a, Q efd' m' s' a -> Q' efd' m' s' a) ->
  parent_ok Q efd m s p -> parent_ok Q' efd m s p.
Proof.
  intros HQ. revert efd m s.
  induction p as [r|c|f av h IH|T e h IH|]; simpl; intros efd m s Hp; auto.
  destruct Hp as [Ha Hp]. split; auto.
Qed.

Lemma main_parent_ok argv0 opts rest :
  parent_ok (fun _ _ _ _ => True) None false false (process (main argv0 opts rest)).
Proof.
  unfold process, main. apply parent_ok_bind. apply parent_ok_bind.
  eapply quiet_calls_parent_ok_c; [apply getopt_loop_quiet_calls|].
  intros st _.
  eapply parent_ok_weaken; [|apply launch_parent_ok].
  intros efd m s a _. exact I.
Qed.

(** *** Histories *)

Lemma has_app_l f (l1 l2 : list label) : has f l1 -> has f (l1 ++ l2).
Proof. intros [l [Hin Hf]]. exists l. split; [apply in_or_app; auto|exact Hf]. Qed.

Lemma has_last f (ls : list label) l : f l = true -> has f (ls ++ [l]).
Proof. intros Hf. exists l. split; [apply in_or_app; right; left; reflexivity|exact Hf]. Qed.

Lemma snoc_split {A : Type} (ls l1 l2 : list A) (l x : A) :
  ls ++ [l] = l1 ++ x :: l2 ->
  (l2 = [] /\ l1 = ls /\ x = l)
  \/ (exists l2', l2 = l2' ++ [l] /\ ls = l1 ++ x :: l2').
Proof.
  intros H. destruct (exists_last (l := x :: l2)) as [l2' [y E]]; [discriminate|].
  rewrite E, app_assoc in H. apply app_inj_tail in H. destruct H as [H <-].
  destruct l2' as [|z l2'].
  - left. simpl in E. injection E as -> ->. rewrite app_nil_r in H. auto.
  - right. simpl in E. injection E as <- ->. exists l2'. auto.
Qed.

Lemma guests_gated_snoc ls l :
  guests_gated ls ->
  (forall fd, guest_guarded l = Some fd -> has (parent_signal fd) ls) ->
  guests_gated (ls ++ [l]).
Proof.
  intros Hg Hl l1 x l2 fd E Hx.
  destruct (snoc_split _ _ _ _ _ E) as [[-> [-> ->]]|[l2' [-> ->]]].
  - now apply Hl.
  - eapply Hg; [reflexivity|exact Hx].
Qed.

Lemma signal_after_map_snoc ls l :
  signal_after_map ls ->
  (parent_fdwrite l = true ->
   has parent_map_ok ls /\ Forall (fun l' => parent_fdwrite l' = false) ls) ->
  signal_after_map (ls ++ [l]).
Proof.
  intros Hg Hl l1 x l2 E Hx.
  destruct (snoc_split _ _ _ _ _ E) as [[-> [-> ->]]|[l2' [-> ->]]].
  - now apply Hl.
  - eapply Hg; [reflexivity|exact Hx].
Qed.

(** *** The counters *)

Lemma set_gate_keeps g fd c fd' : g fd' <> None -> set_gate g fd c fd' <> None.
Proof. unfold set_gate. destruct (fd' =? fd); [discriminate|auto]. Qed.

Lemma eventfd_effect_keeps g {T : Type} (e : syscall T) r g' fd :
  eventfd_effect g e r = Some g' -> g fd <> None -> g' fd <> None.
Proof.
  destruct e; simpl; intros H Hfd; try (injection H as <-; exact Hfd).
  - destruct (r <? 0); injection H as <-; [exact Hfd|now apply set_gate_keeps].
  - destruct (g fd0) as [c|]; [|injection H as <-; exact Hfd].
    destruct (r =? -1); [injection H as <-; exact Hfd|].
    destruct (0 <? c); [|discriminate H].
    injection H as <-. now apply set_gate_keeps.
  - destruct (g fd0) as [c|]; [|injection H as <-; exact Hfd].
    destruct (r <? 0); injection H as <-; [exact Hfd|now apply set_gate_keeps].
Qed.

(** A counter is positive only if it was, or after a successful write on
    its descriptor, or as the initial value of a new eventfd. *)
Lemma gate_raised g {T : Type} (e : syscall T) r g' fd c :
  eventfd_effect g e r = Some g' -> g' fd = Some c -> 0 < c ->
  g fd = Some c \/ signal_ok fd e r = true \/ eventfd_init e = Some c.
Proof.
  destruct e; simpl; intros H Hfd Hc; try solve [injection H as <-; auto].
  - destruct (r <? 0); injection H as <-; [auto|].
    unfold set_gate in Hfd. destruct (fd =? r); [|auto].
    injection Hfd as ->. auto.
  - destruct (g fd0) as [c0|]; [|injection H as <-; auto].
    destruct (r =? -1); [injection H as <-; auto|].
    destruct (0 <? c0); [|discriminate H].
    injection H as <-. unfold set_gate in Hfd.
    destruct (fd =? fd0); [injection Hfd as <-; lia|auto].
  - destruct (g fd0) as [c0|]; [|injection H as <-; auto].
    destruct (r <? 0) eqn:Hr; injection H as <-; [auto|].
    unfold set_gate in Hfd. destruct (Z.eqb_spec fd fd0) as [->|Hne]; [|auto].
    right. left. rewrite Z.eqb_refl. reflexivity.
Qed.

(** A read of the gate that does not fail finds the counter positive. *)
Lemma read_passed g {T : Type} (e : syscall T) r g' a :
  eventfd_effect g e r = Some g' -> gate_pass a e r = true ->
  g (wait_fd a) <> None ->
  exists c, g (wait_fd a) = Some c /\ 0 < c.
Proof.
  destruct e; simpl; try discriminate. intros H Hp Hg.
  apply andb_true_iff in Hp. destruct Hp as [Hp Hr].
  apply andb_true_iff in Hp. destruct Hp as [_ Hfd].
  apply Z.eqb_eq in Hfd. subst fd.
  destruct (g (wait_fd a)) as [c|]; [|contradiction].
  apply negb_true_iff in Hr. rewrite Hr in H.
  destruct (0 <? c) eqn:Hc; [|discriminate H].
  exists c. split; [reflexivity|now apply Z.ltb_lt].
Qed.

Lemma quiet_call_effects {T : Type} (e : syscall T) (k : T -> prog Z) r :
  is_quiet_call e = true ->
  spawned e k r = Some [] /\ eventfd_init e = None
  /\ (forall fd, signal_ok fd e r = false) /\ map_ok e r = false
  /\ is_fdwrite_call e = false.
Proof. destruct e; simpl; intros H; try discriminate H; auto. Qed.

(** *** The invariant *)

Lemma child_ok_mono g g' ls l c :
  (forall fd, g fd <> None -> g' fd <> None) ->
  child_ok g ls c -> child_ok g' (ls ++ [l]) c.
Proof.
  intros Hg. destruct c as [[|a|] [p|]]; simpl; auto.
  intros [Hq [Hfd [open [Hok Hopen]]]]. split; [exact Hq|]. split; [auto|].
  exists open. split; [exact Hok|]. intros Ho. apply has_app_l. auto.
Qed.

Lemma Forall_replace_nth {A : Type} (P : A -> Prop) i x (l : list A) :
  Forall P l -> P x -> Forall P (replace_nth i x l).
Proof.
  intros Hl Hx. revert i. induction Hl as [|y l Hy Hl IH]; intros i; simpl.
  - constructor.
  - destruct i; constructor; auto.
Qed.

Lemma init_invariant argv0 opts rest : invariant [] (init_system argv0 opts rest).
Proof.
  unfold invariant, init_system. cbn [parent children gate].
  split; [|split; [|split; [|split]]].
  - exists None, false, false. split; [apply main_parent_ok|].
    split; [discriminate|]. split; [constructor|discriminate].
  - intros fd c H. discriminate H.
  - constructor.
  - intros l1 x l2 fd E. destruct l1; discriminate E.
  - intros l1 x l2 E. destruct l1; discriminate E.
Qed.

(** A step of the parent. *)
Lemma parent_step_invariant ls s p ev p' g' new :
  invariant ls s ->
  parent s = Some p ->
  proc_step (gate s) p ev p' g' new ->
  invariant (ls ++ [(Parent, ev)])
    {| parent := p'; children := children s ++ map started new; gate := g' |}.
Proof.
  intros [[efd [m [sg [Hp [Hm [Hsg Hefd]]]]]] [Hraise [Hch [Hgg Hsm]]]] Hpar Hstep.
  rewrite Hpar in Hp.
  destruct Hstep as [T e k r g' new Heff Hsp|f av k|f av k]; cbn [parent children gate].
  - (* a call *)
    cbn [parent_ok] in Hp. destruct Hp as [Hallow Hk].
    assert (Hkeep : forall fd, gate s fd <> None -> g' fd <> None)
      by (intros fd; eapply eventfd_effect_keeps; eauto).
    split; [|split; [|split; [|split]]].
    + exists (efd_after efd e r), (m || map_ok e r)%bool, (sg || is_fdwrite_call e)%bool.
      split; [apply Hk|]. split; [|split].
      * intros H. apply orb_true_iff in H. destruct H as [H|H].
        -- apply has_app_l. auto.
        -- apply has_last. exact H.
      * intros H. apply orb_false_iff in H. destruct H as [H1 H2].
        apply Forall_app. split; [auto|]. constructor; [exact H2|constructor].
      * intros fd Hfd. cbn [gate]. destruct e; simpl in Hfd, Heff;
          try (injection Heff as <-; now apply Hefd).
        -- destruct (r <? 0); injection Heff as <-; [now apply Hefd|].
           injection Hfd as ->. unfold set_gate. now rewrite Z.eqb_refl.
        -- apply Hkeep. now apply Hefd.
        -- apply Hkeep. now apply Hefd.
    + intros fd c Hfd Hc. cbn [gate] in Hfd.
      destruct (gate_raised _ _ _ _ _ _ Heff Hfd Hc) as [H|[H|H]].
      * apply has_app_l. eauto.
      * apply has_last. exact H.
      * destruct e; try discriminate H. simpl in H, Hallow.
        destruct Hallow as [-> _]. injection H as <-. lia.
    + apply Forall_app. split.
      * eapply Forall_impl; [|exact Hch]. intros c. now apply child_ok_mono.
      * destruct e; simpl in Hsp; try (injection Hsp as <-; constructor).
        -- (* lxc_clone *)
           destruct (r <? 0); injection Hsp as <-; constructor; [|constructor].
           simpl. split; [apply do_start_quiet|]. split.
           ++ intros Hs. simpl in Hallow, Heff. injection Heff as <-. auto.
           ++ exists false. split; [apply do_start_guest_ok|discriminate].
        -- (* fork *)
           destruct (r =? 0); [discriminate Hsp|].
           destruct (r <? 0); injection Hsp as <-; constructor; [|constructor].
           simpl. exact Hallow.
    + apply guests_gated_snoc; [exact Hgg|]. intros fd H. discriminate H.
    + apply signal_after_map_snoc; [exact Hsm|]. simpl. intros H.
      destruct e; try discriminate H. simpl in Hallow. destruct Hallow as [-> ->]. auto.
  - (* the parent is replaced *)
    split; [|split; [|split; [|split]]].
    + exists efd, m, sg. split; [exact I|]. split; [|split].
      * intros H. apply has_app_l. auto.
      * intros H. apply Forall_app. split; [auto|]. constructor; [reflexivity|constructor].
      * exact Hefd.
    + intros fd c Hfd Hc. apply has_app_l. eauto.
    + simpl. rewrite app_nil_r. eapply Forall_impl; [|exact Hch].
      intros c. now apply child_ok_mono.
    + apply guests_gated_snoc; [exact Hgg|]. intros fd H. discriminate H.
    + apply signal_after_map_snoc; [exact Hsm|]. intros H. discriminate H.
  - (* its exec failed *)
    split; [|split; [|split; [|split]]].
    + exists efd, m, sg. split; [exact Hp|]. split; [|split].
      * intros H. apply has_app_l. auto.
      * intros H. apply Forall_app. split; [auto|]. constructor; [reflexivity|constructor].
      * exact Hefd.
    + intros fd c Hfd Hc. apply has_app_l. eauto.
    + simpl. rewrite app_nil_r. eapply Forall_impl; [|exact Hch].
      intros c. now apply child_ok_mono.
    + apply guests_gated_snoc; [exact Hgg|]. intros fd H. discriminate H.
    + apply signal_after_map_snoc; [exact Hsm|]. intros H. discriminate H.
Qed.

Lemma not_parent_label who ev :
  who <> Parent ->
  parent_map_ok (who, ev) = false /\ parent_fdwrite (who, ev) = false
  /\ forall fd, parent_signal fd (who, ev) = false.
Proof. destruct who; [congruence|auto..]. Qed.

(** A step of the guest or of a helper. *)
Lemma child_step_invariant ls s i who p ev p' g' new :
  invariant ls s ->
  nth_error (children s) i = Some (who, Some p) ->
  proc_step (gate s) p ev p' g' new ->
  invariant (ls ++ [(who, ev)])
    {| parent := parent s;
       children := replace_nth i (who, p') (children s) ++ map started new;
       gate := g' |}.
Proof.
  intros [[efd [m [sg [Hp [Hm [Hsg Hefd]]]]]] [Hraise [Hch [Hgg Hsm]]]] Hnth Hstep.
  assert (Hc : child_ok (gate s) ls (who, Some p)).
  { rewrite Forall_forall in Hch. apply Hch. eapply nth_error_In; eauto. }
  assert (Hwho : who <> Parent) by (intros ->; exact Hc).
  destruct (not_parent_label who ev Hwho) as [Hl1 [Hl2 Hl3]].
  assert (Hquiet : quiet p) by (destruct who; [contradiction|apply Hc|exact Hc]).
  (* what does not depend on the kind of step *)
  assert (Hrest : forall (c' : actor * option (prog Z)) new',
             (forall fd, gate s fd <> None -> g' fd <> None) ->
             (forall fd c, g' fd = Some c -> 0 < c -> gate s fd = Some c) ->
             new' = [] ->
             child_ok g' (ls ++ [(who, ev)]) c' ->
             (forall fd, guest_guarded (who, ev) = Some fd -> has (parent_signal fd) ls) ->
             invariant (ls ++ [(who, ev)])
               {| parent := parent s;
                  children := replace_nth i c' (children s) ++ map started new';
                  gate := g' |}).
  { intros c' new' Hkeep Hsame -> Hc' Hguard.
    split; [|split; [|split; [|split]]]; cbn [parent children gate].
    - exists efd, m, sg. split; [exact Hp|]. split; [|split].
      + intros H. apply has_app_l. auto.
      + intros H. apply Forall_app. split; [auto|]. constructor; [exact Hl2|constructor].
      + intros fd Hfd. apply Hkeep. now apply Hefd.
    - intros fd c Hfd Hpos. apply has_app_l. eauto.
    - simpl. rewrite app_nil_r. apply Forall_replace_nth; [|exact Hc'].
      eapply Forall_impl; [|exact Hch]. intros c. now apply child_ok_mono.
    - apply guests_gated_snoc; assumption.
    - apply signal_after_map_snoc; [exact Hsm|]. rewrite Hl2. discriminate. }
  destruct Hstep as [T e k r g' new Heff Hsp|f av k|f av k].
  - (* a call *)
    unfold quiet in Hquiet. cbn [post] in Hquiet. destruct Hquiet as [He Hk].
    destruct (quiet_call_effects e k r He) as [Hnew [Hinit [Hsig [_ _]]]].
    rewrite Hnew in Hsp. injection Hsp as <-.
    assert (Hkeep : forall fd, gate s fd <> None -> g' fd <> None)
      by (intros fd; eapply eventfd_effect_keeps; eauto).
    apply Hrest; [exact Hkeep| |reflexivity| |].
    + intros fd c Hfd Hpos.
      destruct (gate_raised _ _ _ _ _ _ Heff Hfd Hpos) as [H|[H|H]];
        [exact H|rewrite Hsig in H; discriminate H|rewrite Hinit in H; discriminate H].
    + destruct who as [|a|]; [contradiction| |exact (Hk r)].
      destruct Hc as [_ [Hfd [open [Hok Hopen]]]].
      cbn [guest_ok] in Hok. destruct Hok as [_ Hok].
      split; [exact (Hk r)|]. split; [auto|].
      exists (open || gate_pass a e r)%bool. split; [apply Hok|].
      intros H. apply orb_true_iff in H. destruct H as [H|H].
      * apply has_app_l. auto.
      * assert (Hs : setuid a = true).
        { destruct e; try discriminate H. simpl in H.
          destruct (setuid a); [reflexivity|discriminate H]. }
        destruct (read_passed _ _ _ _ a Heff H (Hfd Hs)) as [c [Hc Hpos]].
        apply has_app_l. eauto.
    + intros fd H. destruct who as [|a|]; try discriminate H.
      destruct Hc as [_ [_ [open [Hok Hopen]]]].
      cbn [guest_ok] in Hok. destruct Hok as [Hg _].
      simpl in H. destruct (guarded_call a e) eqn:Hgc; [|discriminate H].
      injection H as <-. auto.
  - (* the process is replaced *)
    apply Hrest; auto.
    + destruct who; simpl; auto.
    + intros fd H. destruct who as [|a|]; try discriminate H.
      destruct Hc as [_ [_ [open [Hok Hopen]]]].
      cbn [guest_ok] in Hok. destruct Hok as [Hg _].
      simpl in H. destruct (setuid a) eqn:Hs; [|discriminate H].
      injection H as <-. auto.
  - (* its exec failed *)
    unfold quiet in Hquiet. cbn [post] in Hquiet. destruct Hquiet as [_ Hk].
    apply Hrest; auto.
    + destruct who as [|a|]; [contradiction| |exact Hk].
      destruct Hc as [_ [Hfd [open [Hok Hopen]]]].
      cbn [guest_ok] in Hok. destruct Hok as [_ Hok].
      split; [exact Hk|]. split; [auto|].
      exists open. split; [exact Hok|]. intros H. apply has_app_l. auto.
    + intros fd H. destruct who as [|a|]; try discriminate H.
      destruct Hc as [_ [_ [open [Hok Hopen]]]].
      cbn [guest_ok] in Hok. destruct Hok as [Hg _].
      simpl in H. destruct (setuid a) eqn:Hs; [|discriminate H].
      injection H as <-. auto.
Qed.

Lemma step_invariant ls s l s' :
  invariant ls s -> step s l s' -> invariant (ls ++ [l]) s'.
Proof.
  intros Hinv Hstep. destruct Hstep.
  - eapply parent_step_invariant; eauto.
  - eapply child_step_invariant; eauto.
Qed.

Lemma exec_invariant argv0 opts rest ls s :
  exec (init_system argv0 opts rest) ls s -> invariant ls s.
Proof.
  induction 1 as [|ls s l s' _ IH Hstep].
  - apply init_invariant.
  - eapply step_invariant; eauto.
Qed.

Lemma parent_signal_is_fdwrite fd l : parent_signal fd l = true -> parent_fdwrite l = true.
Proof.
  destruct l as [[|a|] [T e r|f av ok]]; simpl; try discriminate.
  destruct e; simpl; try discriminate. reflexivity.
Qed.

Lemma has_split f (ls : list label) :
  has f ls -> exists l1 x l2, ls = l1 ++ x :: l2 /\ f x = true.
Proof.
  intros [x [Hin Hf]]. destruct (in_split _ _ Hin) as [l1 [l2 ->]].
  exists l1, x, l2. auto.
Qed.

(** The parent writes at most once on a descriptor. *)
Lemma one_signal ls l1 w l2 :
  signal_after_map ls -> ls = l1 ++ w :: l2 -> parent_fdwrite w = true ->
  length (filter parent_fdwrite ls) = 1%nat.
Proof.
  intros Hsm -> Hw.
  destruct (Hsm l1 w l2 eq_refl Hw) as [_ Hbefore].
  assert (Hafter : Forall (fun l => parent_fdwrite l = false) l2).
  { apply Forall_forall. intros x Hin.
    destruct (parent_fdwrite x) eqn:Hx; [|reflexivity]. exfalso.
    destruct (in_split _ _ Hin) as [r1 [r2 ->]].
    destruct (Hsm (l1 ++ w :: r1) x r2) as [_ Hall].
    - now rewrite <- app_assoc.
    - exact Hx.
    - apply Forall_app in Hall. destruct Hall as [_ Hall].
      inversion Hall; subst. congruence. }
  rewrite filter_app. simpl. rewrite Hw.
  assert (Hnone : forall l, Forall (fun x => parent_fdwrite x = false) l ->
                            filter parent_fdwrite l = []).
  { induction 1 as [|x l Hx _ IH]; simpl; [reflexivity|now rewrite Hx]. }
  rewrite (Hnone _ Hbefore), (Hnone _ Hafter). reflexivity.
Qed.

(** C7: in every interleaving of the parent, the guest and the helpers, a
    [setuid] of the guest comes after a successful [write_id_mapping] of the
    parent followed by a successful write of the parent on the guest's
    [wait_fd]; and that write is the only write of the parent on a
    descriptor in the whole execution. *)
Theorem uid_map_written_before_identity_drop
    (argv0 : string) (opts : list getopt_result) (rest : list string)
    (ls : list label) (s : system) l1 (a : start_arg) (ev : event) l2 :
  exec (init_system argv0 opts rest) ls s ->
  ls = l1 ++ (Guest a, ev) :: l2 ->
  on_call (@is_setuid_call) ev = true ->
  exists la m lb w lc,
    l1 = la ++ m :: lb ++ w :: lc
    /\ parent_map_ok m = true
    /\ parent_signal (wait_fd a) w = true
    /\ length (filter parent_fdwrite ls) = 1%nat.
Proof.
  intros Hexec Hls Hev.
  destruct (exec_invariant _ _ _ _ _ Hexec) as [_ [_ [_ [Hgg Hsm]]]].
  assert (Hguard : guest_guarded (Guest a, ev) = Some (wait_fd a)).
  { destruct ev as [T e r|f av ok]; [|discriminate Hev].
    simpl in *. unfold guarded_call. now rewrite Hev. }
  destruct (has_split _ _ (Hgg _ _ _ _ Hls Hguard)) as [lx [w [lc [-> Hw]]]].
  pose proof (parent_signal_is_fdwrite _ _ Hw) as Hfw.
  rewrite <- app_assoc in Hls. cbn [app] in Hls.
  destruct (Hsm _ _ _ Hls Hfw) as [Hmap _].
  destruct (has_split _ _ Hmap) as [la [m [lb [-> Hm]]]].
  exists la, m, lb, w, lc. split; [now rewrite <- app_assoc|].
  split; [exact Hm|]. split; [exact Hw|].
  eapply one_signal; eauto.
Qed.

(** C10: with the identity remap requested, [do_start] begins with the read
    of its [wait_fd], and in every interleaving each bootstrap step of the
    guest (a call of Filesystem-Setup, [sethostname], [setuid], the exec)
    comes after a successful write of the parent on that descriptor. *)
Theorem bootstrap_begins_after_gate_signal
    (argv0 : string) (opts : list getopt_result) (rest : list string)
    (ls : list label) (s : system) l1 (a : start_arg) (ev : event) l2 :
  exec (init_system argv0 opts rest) ls s ->
  ls = l1 ++ (Guest a, ev) :: l2 ->
  setuid a = true ->
  is_bootstrap_event ev = true ->
  (exists k, do_start a = Vis (FdRead (wait_fd a) sizeof_uint64) k)
  /\ has (parent_signal (wait_fd a)) l1.
Proof.
  intros Hexec Hls Hs Hev. split; [now apply do_start_waits_first|].
  destruct (exec_invariant _ _ _ _ _ Hexec) as [_ [_ [_ [Hgg _]]]].
  apply (Hgg _ _ _ _ Hls).
  destruct ev as [T e r|f av ok]; simpl in *.
  - unfold guarded_call. rewrite Hs, Hev. now rewrite orb_true_r.
  - now rewrite Hs.
Qed.

(** *** A complete execution *)

Lemma exec_cons s0 l s1 ls s2 :
  step s0 l s1 -> exec s1 ls s2 -> exec s0 (l :: ls) s2.
Proof.
  intros Hstep Hexec. induction Hexec as [|ls s l' s' _ IH Hs].
  - apply (exec_step s0 [] s0 l s1); [constructor|exact Hstep].
  - apply (exec_step s0 (l :: ls) s l' s'); [exact IH|exact Hs].
Qed.

Ltac parent_steps :=
  eapply exec_cons;
  [ eapply step_parent; [reflexivity | eapply ps_call; reflexivity] | cbn ].

Ltac guest_steps :=
  eapply exec_cons;
  [ eapply step_child with (i := 0%nat); [reflexivity | eapply ps_call; reflexivity]
  | cbn ].

Lemma gate_run_exec :
  exists s, exec (init_system "lxc-unshare" [Opt_s "USER"; Opt_u "1000"] ["/bin/true"])
              gate_run s.
Proof.
  eexists. unfold gate_run, gate_run_before, gate_run_after, init_system.
  cbn [app].
  do 12 parent_steps.
  do 2 guest_steps.
  eapply exec_cons.
  { eapply step_child with (i := 0%nat); [reflexivity | eapply ps_exec]. }
  cbn.
  parent_steps.
  apply exec_nil.
Qed.

Lemma uid_map_written_before_identity_drop_witness :
  exists la m lb w lc,
    gate_run_before = la ++ m :: lb ++ w :: lc
    /\ parent_map_ok m = true
    /\ parent_signal 3 w = true
    /\ length (filter parent_fdwrite gate_run) = 1%nat.
Proof.
  destruct gate_run_exec as [s H].
  exact (uid_map_written_before_identity_drop
           "lxc-unshare" [Opt_s "USER"; Opt_u "1000"] ["/bin/true"]
           gate_run s gate_run_before gate_guest (Ev (Setuid 1000) 0) gate_run_after
           H eq_refl eq_refl).
Defined.

Lemma bootstrap_begins_after_gate_signal_witness :
  (exists k, do_start gate_guest = Vis (FdRead 3 sizeof_uint64) k)
  /\ has (parent_signal 3)
       (gate_run_before ++ [(Guest gate_guest, Ev (Setuid 1000) 0)]).
Proof.
  destruct gate_run_exec as [s H].
  exact (bootstrap_begins_after_gate_signal
           "lxc-unshare" [Opt_s "USER"; Opt_u "1000"] ["/bin/true"]
           gate_run s
           (gate_run_before ++ [(Guest gate_guest, Ev (Setuid 1000) 0)])
           gate_guest (EvExec "/bin/true" ["/bin/true"] true)
           [(Parent, Ev (Wait_for_pid 4242) 0)]
           H eq_refl eq_refl eq_refl).
Defined.

(** The counter blocks the read until it has been written to. *)
Example eventfd_blocks_until_signaled :
  let g0 := set_gate no_gates 3 0 in
  eventfd_effect g0 (FdRead 3 8) 8 = None
  /\ (exists g1, eventfd_effect g0 (FdWrite 3 1 8) 8 = Some g1
                 /\ g1 3 = Some 1
                 /\ exists g2, eventfd_effect g1 (FdRead 3 8) 8 = Some g2 /\ g2 3 = Some 0).
Proof.
  split; [reflexivity|]. eexists. split; [reflexivity|]. split; [reflexivity|].
  eexists. split; reflexivity.
Qed.

(** * Further properties of the code *)

(** ** The option loop *)

(** What a turn of the loop that goes on leaves in the locals. *)
Lemma handle_opt_returns argv0 o st tr st1 :
  runs (handle_opt argv0 o st) tr (Returned st1) ->
  match o with
  | Opt_s optarg =>
      st1 = {| namespaces := Some optarg; daemonize := daemonize st;
               my_iflist := my_iflist st; start := start st |}
  | Opt_u _ => exists u, st1 = set_start st (set_uid (start st) u true)
  | Opt_h => False
  | Opt_H optarg => st1 = set_start st (set_want_hostname (start st) (Some optarg))
  | Opt_i optarg =>
      st1 = {| namespaces := namespaces st; daemonize := daemonize st;
               my_iflist := optarg :: my_iflist st; start := start st |}
  | Opt_d =>
      st1 = {| namespaces := namespaces st; daemonize := 1;
               my_iflist := my_iflist st; start := start st |}
  | Opt_M => st1 = set_start st (set_want_default_mounts (start st) 1)
  | Opt_unknown => st1 = st
  end.
Proof.
  intros H. destruct o; cbn [handle_opt] in H.
  - destruct H as [_ E]. now injection E as <-.
  - destruct (runs_bind_inv _ _ _ _ H)
      as [[[b u] [t1 [t2 [-> [H1 H2]]]]]|[[c [_ E]]|[[f [av [_ E]]]|[_ E]]]];
      try discriminate E.
    cbn [fst snd] in H2. destruct b; cbn [negb] in H2.
    + destruct H2 as [_ E]. injection E as E. exists u. now rewrite <- E.
    + destruct H2 as [_ E]. discriminate E.
  - exact (post_outcome _ _ _ _ _ _ _ (usage_calls argv0) H).
  - destruct H as [_ E]. now injection E as <-.
  - runs_step H. destruct r; cbn [negb] in H.
    + destruct H as [_ E]. now injection E as <-.
    + runs_step H. destruct H as [_ E]. discriminate E.
  - destruct H as [_ E]. now injection E as <-.
  - destruct H as [_ E]. now injection E as <-.
  - destruct H as [_ E]. now injection E as <-.
Qed.

(** The locals at the end of the option loop. *)
Lemma getopt_loop_locals
    (argv0 : string) (opts : list getopt_result) (st st' : main_locals) tr :
  runs (getopt_loop argv0 opts st) tr (Returned st') ->
  namespaces st' = opt_namespaces opts (namespaces st)
  /\ my_iflist st' = rev (opt_interfaces opts) ++ my_iflist st
  /\ daemonize st' = (if existsb is_opt_d opts then 1 else daemonize st)
  /\ want_default_mounts (start st')
     = (if existsb is_opt_M opts then 1 else want_default_mounts (start st))
  /\ want_hostname (start st') = opt_hostname opts (want_hostname (start st))
  /\ args (start st') = args (start st)
  /\ flags (start st') = flags (start st)
  /\ wait_fd (start st') = wait_fd (start st).
Proof.
  revert st tr. induction opts as [|o opts IH]; intros st tr H; cbn [getopt_loop] in H.
  - destruct H as [_ E]. injection E as <-. cbn. auto 10.
  - destruct (runs_bind_inv _ _ _ _ H)
      as [[st1 [t1 [t2 [-> [H1 H2]]]]]|[[c [_ E]]|[[f [av [_ E]]]|[_ E]]]];
      try discriminate E.
    apply handle_opt_returns in H1.
    destruct (IH _ _ H2) as [Hn [Hi [Hd [Hm [Hh [Ha [Hf Hw]]]]]]].
    rewrite Hn, Hi, Hd, Hm, Hh, Ha, Hf, Hw. clear IH H2 Hn Hi Hd Hm Hh Ha Hf Hw.
    unfold opt_namespaces, opt_hostname, opt_interfaces.
    destruct o; cbn [fold_left flat_map existsb is_opt_d is_opt_M orb rev app];
      try contradiction;
      lazymatch type of H1 with
      | exists _, _ => destruct H1 as [u H1]
      | _ => idtac
      end; subst st1;
      cbn [namespaces my_iflist daemonize start set_start set_uid set_want_hostname
           set_want_default_mounts args flags uid setuid want_default_mounts
           wait_fd want_hostname];
      repeat split; try reflexivity.
    + now rewrite <- app_assoc.
    + now destruct (existsb is_opt_d opts).
    + now destruct (existsb is_opt_M opts).
Qed.

(** X1 - the option loop ([main], the [while] over [getopt]).  When the loop
    runs to its end, the last [-s] and the last [-H] are the ones kept, [-d]
    and [-M] stay set once given, and [my_iflist] holds the [-i] arguments
    in the reverse of their order on the command line, in front of what it
    held before; [args], [flags] and [wait_fd] are not touched. *)
Theorem getopt_loop_collects_options
    (argv0 : string) (opts : list getopt_result) (st st' : main_locals) tr :
  runs (getopt_loop argv0 opts st) tr (Returned st') ->
  namespaces st' = opt_namespaces opts (namespaces st)
  /\ my_iflist st' = rev (opt_interfaces opts) ++ my_iflist st
  /\ daemonize st' = (if existsb is_opt_d opts then 1 else daemonize st)
  /\ want_default_mounts (start st')
     = (if existsb is_opt_M opts then 1 else want_default_mounts (start st))
  /\ want_hostname (start st') = opt_hostname opts (want_hostname (start st))
  /\ args (start st') = args (start st)
  /\ flags (start st') = flags (start st)
  /\ wait_fd (start st') = wait_fd (start st).
Proof. apply getopt_loop_locals. Qed.

Lemma getopt_loop_collects_options_witness :
  let st' := {| namespaces := Some "NETWORK|UTSNAME"; daemonize := 1;
                my_iflist := ["eth1"; "eth0"];
                start := set_want_default_mounts
                           (set_want_hostname init_start_arg (Some "two")) 1 |} in
  snd (run quiet_os (getopt_loop "lxc-unshare" busy_opts init_locals)) = Returned st'
  /\ my_iflist st' = rev (opt_interfaces busy_opts) ++ [].
Proof.
  split; [reflexivity|].
  exact (proj1 (proj2 (getopt_loop_collects_options "lxc-unshare" busy_opts
                         init_locals _ _
                         (run_runs quiet_os (getopt_loop "lxc-unshare" busy_opts init_locals))))).
Defined.

(** How a turn of the loop can end the process. *)
Lemma handle_opt_exits argv0 o st tr c :
  runs (handle_opt argv0 o st) tr (Exited c) ->
  (c = EXIT_FAILURE /\ is_silent_opt o = false)
  \/ (c = EXIT_SUCCESS /\ o = Opt_h).
Proof.
  intros H. destruct o; cbn [handle_opt] in H;
    try (destruct H as [_ E]; discriminate E).
  - left. split; [|reflexivity].
    destruct (runs_bind_inv _ _ _ _ H)
      as [[[b u] [t1 [t2 [-> [H1 H2]]]]]|[[c' [H1 E]]|[[f [av [_ E]]]|[_ E]]]];
      try discriminate E.
    + cbn [fst snd] in H2. destruct b; cbn [negb] in H2; destruct H2 as [_ E].
      * discriminate E.
      * now injection E as <-.
    + destruct (cpost_outcome _ _ _ _ _ _ _ (lookup_user_post _ _) H1).
  - right. split; [|reflexivity].
    pose proof (post_outcome _ _ _ _ _ _ _ (usage_calls argv0) H) as Hc.
    exact Hc.
  - left. split; [|reflexivity].
    runs_step H. destruct r; cbn [negb] in H.
    + destruct H as [_ E]. discriminate E.
    + runs_step H. destruct H as [_ E]. now injection E as <-.
Qed.

Lemma getopt_loop_exits argv0 opts st tr c :
  runs (getopt_loop argv0 opts st) tr (Exited c) ->
  c = EXIT_FAILURE \/ (c = EXIT_SUCCESS /\ In Opt_h opts).
Proof.
  revert st tr. induction opts as [|o opts IH]; intros st tr H; cbn [getopt_loop] in H.
  - destruct H as [_ E]. discriminate E.
  - destruct (runs_bind_inv _ _ _ _ H)
      as [[st1 [t1 [t2 [-> [H1 H2]]]]]|[[c' [H1 E]]|[[f [av [_ E]]]|[_ E]]]];
      try discriminate E.
    + destruct (IH _ _ H2) as [->|[-> Hin]]; [left; reflexivity|].
      right. split; [reflexivity|right; exact Hin].
    + injection E as <-.
      destruct (handle_opt_exits _ _ _ _ _ H1) as [[-> _]|[-> ->]];
        [left; reflexivity|right; split; [reflexivity|left; reflexivity]].
Qed.

(** X2 - the missing command ([main], the test of [argv[optind]]).  Without
    a command after the options [main] makes no call beyond those of the
    option loop and its messages (no capability setup, no eventfd, no clone),
    and ends with [EXIT_FAILURE]; the other ends are the status 0 of
    [usage] when [-h] is among the options, and the undefined behaviour
    after [sscanf] read a name that does not fit [name]. *)
Theorem main_requires_a_command
    (argv0 : string) (opts : list getopt_result) tr out :
  runs (main argv0 opts []) tr out ->
  Forall (event_ok (@is_getopt_call) False) tr
  /\ (out = Exited EXIT_FAILURE
      \/ (out = Exited EXIT_SUCCESS /\ In Opt_h opts)
      \/ (out = Crashed /\ exists ev, In ev tr /\ overlong_name ev = true)).
Proof.
  intros H. unfold main in H.
  destruct (runs_bind_inv _ _ _ _ H)
    as [[st [t1 [t2 [-> [H1 H2]]]]]|[[c [H1 ->]]|[[f [av [H1 ->]]]|[H1 ->]]]].
  - pose proof (cpost_events _ _ _ _ _ _ _ (getopt_loop_post argv0 opts init_locals) H1) as Hev.
    unfold launch in H2. runs_step H2; [|discriminate Heqb].
    runs_step H2. destruct H2 as [Ht Ho]. subst t out.
    split; [|left; reflexivity].
    apply Forall_app. split; [exact Hev|]. constructor; [reflexivity|constructor].
  - split.
    + exact (cpost_events _ _ _ _ _ _ _ (getopt_loop_post argv0 opts init_locals) H1).
    + destruct (getopt_loop_exits _ _ _ _ _ H1) as [->|[-> Hin]]; auto.
  - destruct (cpost_outcome _ _ _ _ _ _ _ (getopt_loop_post argv0 opts init_locals) H1).
  - split.
    + exact (cpost_events _ _ _ _ _ _ _ (getopt_loop_post argv0 opts init_locals) H1).
    + right. right. split; [reflexivity|].
      exact (crash_explained_in _ _ (getopt_loop_overflow _ _ _ _ _ H1) eq_refl).
Qed.

Lemma main_requires_a_command_witness :
  run quiet_os (main "lxc-unshare" [Opt_s "PID"; Opt_d] [])
  = ([Ev (Fprintf_stderr
            ("A command to execute in the new namespace is required" ++ LF)%string []) tt],
     Exited EXIT_FAILURE)
  /\ Forall (event_ok (@is_getopt_call) False)
       (fst (run quiet_os (main "lxc-unshare" [Opt_s "PID"; Opt_d] []))).
Proof.
  split; [reflexivity|].
  exact (proj1 (main_requires_a_command "lxc-unshare" [Opt_s "PID"; Opt_d] _ _
                  (run_runs quiet_os (main "lxc-unshare" [Opt_s "PID"; Opt_d] [])))).
Defined.

Lemma silent_opt_makes_no_call argv0 o st tr out :
  is_silent_opt o = true -> runs (handle_opt argv0 o st) tr out ->
  tr = [] /\ exists st1, out = Returned st1.
Proof.
  intros Hs H. destruct o; try discriminate Hs; cbn [handle_opt] in H;
    destruct H as [-> ->]; eauto.
Qed.

Lemma getopt_loop_stops_at_help argv0 pre post st tr out :
  runs (getopt_loop argv0 (pre ++ Opt_h :: post) st) tr out ->
  ((exists c, out = Exited c) \/ out = Crashed)
  /\ (forallb is_silent_opt pre = true ->
      out = Exited EXIT_SUCCESS /\ Forall (event_ok (@is_usage_call) False) tr).
Proof.
  revert st tr. induction pre as [|o pre IH]; intros st tr H;
    cbn [app getopt_loop] in H.
  - cbn [handle_opt] in H.
    destruct (runs_bind_no_return _ _ _ _ _ _ _ (usage_calls argv0) H) as [Hev Hout].
    destruct out as [r|c|f av|]; simpl in Hout; try contradiction.
    unfold exit_0 in Hout. subst c. split; [eauto|]. intros _. auto.
  - destruct (runs_bind_inv _ _ _ _ H)
      as [[st1 [t1 [t2 [-> [H1 H2]]]]]|[[c [H1 ->]]|[[f [av [H1 ->]]]|[H1 ->]]]].
    + destruct (IH _ _ H2) as [Hex Hsil]. split; [exact Hex|].
      cbn [forallb]. intros Hs. apply andb_true_iff in Hs. destruct Hs as [Ho Hs].
      destruct (silent_opt_makes_no_call _ _ _ _ _ Ho H1) as [-> _].
      exact (Hsil Hs).
    + split; [eauto|]. cbn [forallb]. intros Hs.
      apply andb_true_iff in Hs. destruct Hs as [Ho _].
      destruct (silent_opt_makes_no_call _ _ _ _ _ Ho H1) as [_ [st1 E]].
      discriminate E.
    + destruct (cpost_outcome _ _ _ _ _ _ _ (handle_opt_post argv0 o st) H1).
    + split; [auto|]. cbn [forallb]. intros Hs.
      apply andb_true_iff in Hs. destruct Hs as [Ho _].
      destruct (silent_opt_makes_no_call _ _ _ _ _ Ho H1) as [_ [st1 E]].
      discriminate E.
Qed.

(** X3 - [-h] ([main], [case 'h'], and [usage]).  With [-h] on the command
    line [main] never gets past the option loop: whatever follows, no command
    is looked at and no process is created, and the run ends with an exit
    status, or before the [-h] in the undefined behaviour of a name that does
    not fit [name].  When only [-s], [-H], [-d], [-M] or unknown options come
    before it, the run is the help text alone and ends with status 0. *)
Theorem help_ends_main_in_the_option_loop
    (argv0 : string) (pre post : list getopt_result) (rest : list string) tr out :
  runs (main argv0 (pre ++ Opt_h :: post) rest) tr out ->
  ((exists c, out = Exited c) \/ out = Crashed)
  /\ Forall (event_ok (@is_getopt_call) False) tr
  /\ (forallb is_silent_opt pre = true ->
      out = Exited EXIT_SUCCESS /\ Forall (event_ok (@is_usage_call) False) tr).
Proof.
  intros H. unfold main in H.
  destruct (runs_bind_inv _ _ _ _ H)
    as [[st [t1 [t2 [-> [H1 H2]]]]]|[[c [H1 ->]]|[[f [av [H1 ->]]]|[H1 ->]]]].
  - destruct (getopt_loop_stops_at_help _ _ _ _ _ _ H1) as [[[c E]|E] _]; discriminate E.
  - split; [eauto|]. split.
    + exact (cpost_events _ _ _ _ _ _ _ (getopt_loop_post argv0 _ init_locals) H1).
    + intros Hs. destruct (getopt_loop_stops_at_help _ _ _ _ _ _ H1) as [_ Hsil].
      destruct (Hsil Hs) as [E Hev]. injection E as ->. auto.
  - destruct (cpost_outcome _ _ _ _ _ _ _ (getopt_loop_post argv0 _ init_locals) H1).
  - split; [auto|]. split.
    + exact (cpost_events _ _ _ _ _ _ _ (getopt_loop_post argv0 _ init_locals) H1).
    + intros Hs. destruct (getopt_loop_stops_at_help _ _ _ _ _ _ H1) as [_ Hsil].
      destruct (Hsil Hs) as [E Hev]. discriminate E.
Qed.

Lemma help_ends_main_in_the_option_loop_witness :
  snd (run quiet_os (main "lxc-unshare" ([Opt_s "PID"; Opt_d] ++ Opt_h :: [Opt_u "0"])
                       ["/bin/true"]))
  = Exited EXIT_SUCCESS
  /\ Forall (event_ok (@is_usage_call) False)
       (fst (run quiet_os (main "lxc-unshare" ([Opt_s "PID"; Opt_d] ++ Opt_h :: [Opt_u "0"])
                             ["/bin/true"]))).
Proof.
  exact (proj2 (proj2 (help_ends_main_in_the_option_loop
                         "lxc-unshare" [Opt_s "PID"; Opt_d] [Opt_u "0"] ["/bin/true"] _ _
                         (run_runs quiet_os _)))
           eq_refl).
Defined.

(** ** The interface helpers *)

Lemma observed_app {A : Type} (f : event -> option A) t1 t2 :
  observed f (t1 ++ t2) = (observed f t1 ++ observed f t2)%list.
Proof. unfold observed. apply flat_map_app. Qed.

(** The interface loop in the parent. *)
Lemma move_interfaces_parent (pid : Z) (ifs : list string) tr out :
  runs (move_interfaces pid ifs) tr out ->
  (forall ev, In ev tr -> fork_answer ev <> Some 0) ->
  out = Returned tt
  /\ length (observed fork_answer tr) = length ifs
  /\ map fst (observed wait_for_pid_call tr) = observed fork_answer tr.
Proof.
  revert pid tr. induction ifs as [|i ifs IH]; intros pid tr H Hpar;
    cbn [move_interfaces] in H.
  - destruct H as [-> ->]. auto.
  - runs_step H.
    assert (Hr : r <> 0).
    { intros ->. apply (Hpar (Ev Fork 0)); [left|]; reflexivity. }
    assert (Hr0 : (r =? 0) = false) by now apply Z.eqb_neq.
    rewrite Hr0 in H.
    runs_step H; repeat runs_step H;
      (destruct (IH _ _ H) as [-> [Hlen Hmap]];
       [intros ev Hin; apply Hpar; simpl; tauto|]);
      (split; [reflexivity|]);
      unfold observed in *; cbn; rewrite ?Hlen, ?Hmap; auto.
Qed.

(** X4 - the loop over the interfaces, as the parent sees it ([main], the
    [while (my_iflist)]).  When no [fork] answers 0, the loop never ends the
    process: it forks once per interface, in the order of the list, waits
    for exactly the pids that [fork] answered (also for a negative one, after
    a failed [fork]) and returns, whatever [fork] and [wait_for_pid]
    answer. *)
Theorem move_interfaces_never_stops_the_parent
    (pid : Z) (ifs : list string) tr out :
  runs (move_interfaces pid ifs) tr out ->
  (forall ev, In ev tr -> fork_answer ev <> Some 0) ->
  out = Returned tt
  /\ length (observed fork_answer tr) = length ifs
  /\ map fst (observed wait_for_pid_call tr) = observed fork_answer tr.
Proof. apply move_interfaces_parent. Qed.

Lemma move_interfaces_never_stops_the_parent_witness :
  snd (run failing_helpers_os (move_interfaces 4242 ["eth0"; "eth1"])) = Returned tt
  /\ observed fork_answer
       (fst (run failing_helpers_os (move_interfaces 4242 ["eth0"; "eth1"])))
     = [-1; 4301]
  /\ map fst (observed wait_for_pid_call
                (fst (run failing_helpers_os (move_interfaces 4242 ["eth0"; "eth1"]))))
     = [-1; 4301].
Proof.
  assert (Hpar : forall ev,
             In ev (fst (run failing_helpers_os (move_interfaces 4242 ["eth0"; "eth1"]))) ->
             fork_answer ev <> Some 0).
  { intros ev Hin. simpl in Hin.
    repeat (destruct Hin as [<-|Hin]; [discriminate|]). destruct Hin. }
  destruct (move_interfaces_never_stops_the_parent 4242 ["eth0"; "eth1"] _ _
              (run_runs failing_helpers_os (move_interfaces 4242 ["eth0"; "eth1"])) Hpar)
    as [Hout [_ Hmap]].
  split; [exact Hout|]. split; [reflexivity|].
  rewrite Hmap. reflexivity.
Defined.

(** ** [lookup_user] *)

(** X5 - [lookup_user], number or name.  [lookup_user] never ends the
    process with a status and asks the password database at most once.  A
    token from which [sscanf] reads a number is looked up by that number
    only, never by name, and [*uid] is that number whether or not an entry
    exists, so a failed lookup still overwrites [*uid].  Otherwise the one
    lookup, if any, is by name, and a [false] result leaves [*uid] as it
    was.  The one run that does not return is the one in which [sscanf] read
    a name that does not fit [name]: it ends there, before any lookup. *)
Theorem lookup_user_looks_up_once
    (optarg : option string) (uid0 : Z) tr out :
  runs (lookup_user optarg uid0) tr out ->
  (out = Crashed
   /\ first_some scanned_uid tr = Some None
   /\ observed pw_lookup tr = []
   /\ exists ev, In ev tr /\ overlong_name ev = true)
  \/ exists b u, out = Returned (b, u)
    /\ (forall ev, In ev tr -> overlong_name ev = false)
    /\ match first_some scanned_uid tr with
       | Some (Some n) => u = n /\ observed pw_lookup tr = [ByUid n]
       | _ => (b = false -> u = uid0)
              /\ (observed pw_lookup tr = []
                  \/ exists name, observed pw_lookup tr = [ByName name])
       end.
Proof.
  intros H.
  assert (Hfit : out <> Crashed -> forall ev, In ev tr -> overlong_name ev = false).
  { intros Hout ev Hin. destruct (overlong_name ev) eqn:Hev; [|reflexivity].
    destruct Hout. exact (proj2 (lookup_user_overflow _ _ _ _ H) ev Hin Hev). }
  unfold lookup_user in H.
  destruct optarg as [s|].
  2:{ runs_step H. right. exists false, uid0. cbn. auto. }
  destruct s as [|a s]; cbn [is_empty_string] in H.
  { runs_step H. right. exists false, uid0. cbn. auto. }
  runs_step H. runs_step H.
  destruct r0; cbn [negb] in H.
  2:{ runs_step H. right. exists false, uid0. split; [reflexivity|].
      split; [apply Hfit; discriminate|]. cbn. auto. }
  runs_step H. runs_step H.
  - repeat runs_step H; right; (eexists _, _; split; [reflexivity|]);
      (split; [apply Hfit; discriminate|]); cbn; auto.
  - runs_step H. runs_step H.
    2:{ runs_step H. right. exists false, uid0. split; [reflexivity|].
        split; [apply Hfit; discriminate|]. cbn. auto. }
    runs_step H.
    { runs_step H. left. split; [reflexivity|]. split; [reflexivity|].
      split; [reflexivity|].
      exists (Ev (Sscanf_s (String a s)) (Some s0)). split; [simpl; tauto|exact Heqb]. }
    repeat runs_step H; right; (eexists _, _; split; [reflexivity|]);
      (split; [apply Hfit; discriminate|]); cbn;
      (split; [try discriminate; auto|]); eauto.
Qed.

Lemma lookup_user_looks_up_once_witness :
  run unknown_uid_os (lookup_user (Some "4711") 0)
  = ([Ev Sysconf_GETPW_R_SIZE_MAX 1024; Ev (Malloc 1024) true;
      Ev (Sscanf_u "4711") (Some 4711); Ev (Getpwuid_r 4711) (0, None);
      Ev (Fprintf_stderr ("Could not find matched password record" ++ LF)%string []) tt;
      Ev (Fprintf_stderr ("Invalid uid %u" ++ LF)%string [FInt 4711]) tt],
     Returned (false, 4711))
  /\ exists b u,
       snd (run unknown_uid_os (lookup_user (Some "4711") 0)) = Returned (b, u)
       /\ u = 4711
       /\ observed pw_lookup (fst (run unknown_uid_os (lookup_user (Some "4711") 0)))
          = [ByUid 4711].
Proof.
  split; [reflexivity|].
  destruct (lookup_user_looks_up_once (Some "4711"%string) 0 _ _
              (run_runs unknown_uid_os (lookup_user (Some "4711"%string) 0)))
    as [[E _]|[b [u [E [_ Hm]]]]]; [discriminate E|].
  exists b, u. split; [exact E|]. exact Hm.
Defined.

(** ** The steps of [do_start] *)

Lemma runs_bind_split {A B : Type} (p : prog A) (k : A -> prog B) tr out :
  runs (bind p k) tr out ->
  exists t1 t2 o1, tr = (t1 ++ t2)%list /\ runs p t1 o1
    /\ match o1 with
       | Returned r => runs (k r) t2 out
       | Exited c => t2 = [] /\ out = Exited c
       | Replaced f av => t2 = [] /\ out = Replaced f av
       | Crashed => t2 = [] /\ out = Crashed
       end.
Proof.
  intros H.
  destruct (runs_bind_inv _ _ _ _ H)
    as [[a [t1 [t2 [-> [H1 H2]]]]]|[[c [H1 ->]]|[[f [av [H1 ->]]]|[H1 ->]]]].
  - exists t1, t2, (Returned a). auto.
  - exists tr, [], (Exited c). rewrite app_nil_r. auto.
  - exists tr, [], (Replaced f av). rewrite app_nil_r. auto.
  - exists tr, [], Crashed. rewrite app_nil_r. auto.
Qed.

Lemma ends_with_message_app t1 t2 :
  ends_with_message t2 -> ends_with_message (t1 ++ t2).
Proof.
  intros [pre [ev [-> Hm]]]. exists (t1 ++ pre)%list, ev.
  now rewrite app_assoc.
Qed.

Lemma ends_with_message_cons ev t :
  ends_with_message t -> ends_with_message (ev :: t).
Proof. apply (ends_with_message_app [ev]). Qed.

Lemma ends_with_message_one fmt fa r :
  ends_with_message [Ev (Fprintf_stderr fmt fa) r].
Proof. exists [], (Ev (Fprintf_stderr fmt fa) r). auto. Qed.

Lemma wait_stage a t o :
  runs (when (setuid a)
          (ret <- trigger (FdRead (wait_fd a) sizeof_uint64) ;;
           when (ret =? -1)
             (trigger (FdClose (wait_fd a)) ;;
              fprintf_stderr ("Failed to read eventfd" ++ LF) [] ;;
              Exit EXIT_FAILURE))) t o ->
  stage_ok a Wait_gate t o.
Proof.
  intros H. unfold stage_ok. cbn [requested].
  destruct (setuid a); cbn [when] in H.
  - runs_step H. runs_step H.
    + runs_step H. runs_step H. runs_step H. split; [reflexivity|].
      right. split; [reflexivity|].
      do 2 apply ends_with_message_cons. apply ends_with_message_one.
    + runs_step H. split; [reflexivity|left; reflexivity].
  - destruct H as [-> ->]. split; [reflexivity|left; reflexivity].
Qed.

Lemma fs_events_are_mounts t :
  Forall (event_ok (@is_fs_call) False) t ->
  Forall (eq Default_mounts) (observed do_start_step t).
Proof.
  induction 1 as [|ev t Hev _ IH]; [constructor|].
  change (observed do_start_step (ev :: t))
    with ((match do_start_step ev with Some s => [s] | None => [] end)
          ++ observed do_start_step t)%list.
  destruct ev as [T e r|f av ok]; simpl in Hev; [|contradiction].
  destruct e; try discriminate Hev; simpl; constructor; auto.
Qed.

Lemma mounts_stage a t o :
  runs (when (truthy (Z.land (flags a) CLONE_NEWNS) && truthy (want_default_mounts a))
          lxc_setup_fs) t o ->
  Forall (eq Default_mounts) (observed do_start_step t)
  /\ (observed do_start_step t <> [] <-> requested a Default_mounts = true)
  /\ o = Returned tt.
Proof.
  intros H. cbn [requested].
  destruct (truthy (Z.land (flags a) CLONE_NEWNS) && truthy (want_default_mounts a));
    cbn [when] in H.
  - destruct (post_runs _ _ _ _ _ _ _ lxc_setup_fs_post H) as [Hev Hout].
    split; [now apply fs_events_are_mounts|]. split.
    + split; [reflexivity|]. intros _.
      unfold lxc_setup_fs, mount_fs in H. runs_step H. discriminate.
    + destruct o as [[]|c|f av|]; simpl in Hout; try contradiction. reflexivity.
  - destruct H as [-> ->]. split; [constructor|].
    split; [split; [intros E; now destruct E|discriminate]|reflexivity].
Qed.

Lemma hostname_stage a t o :
  runs (match want_hostname a with
        | Some h =>
            when (truthy (Z.land (flags a) CLONE_NEWUTS))
              (r <- trigger (Sethostname h (Z.of_nat (String.length h))) ;;
               when (r <? 0)
                 (fprintf_stderr ("Failed to set hostname %s: %s" ++ LF)
                    [FStr h; FStrerror] ;;
                  Exit EXIT_FAILURE))
        | None => Ret tt
        end) t o ->
  stage_ok a Set_hostname t o.
Proof.
  intros H. unfold stage_ok. cbn [requested].
  destruct (want_hostname a) as [h|]; cbn [is_some].
  - destruct (truthy (Z.land (flags a) CLONE_NEWUTS)); cbn [when andb] in H.
    + runs_step H. runs_step H.
      * runs_step H. runs_step H. split; [reflexivity|].
        right. split; [reflexivity|].
        apply ends_with_message_cons. apply ends_with_message_one.
      * runs_step H. split; [reflexivity|left; reflexivity].
    + destruct H as [-> ->]. split; [reflexivity|left; reflexivity].
  - destruct H as [-> ->]. rewrite andb_false_r. split; [reflexivity|left; reflexivity].
Qed.

Lemma identity_stage a t o :
  runs (if setuid a then
          r <- trigger (Setuid (uid a)) ;;
          when (truthy r)
            (fprintf_stderr ("Failed to set uid %d: %s" ++ LF)
               [FInt (uid a); FStrerror] ;;
             Exit EXIT_FAILURE)
        else Ret tt) t o ->
  stage_ok a Drop_identity t o.
Proof.
  intros H. unfold stage_ok. cbn [requested].
  destruct (setuid a).
  - runs_step H. runs_step H.
    + runs_step H. runs_step H. split; [reflexivity|].
      right. split; [reflexivity|].
      apply ends_with_message_cons. apply ends_with_message_one.
    + runs_step H. split; [reflexivity|left; reflexivity].
  - destruct H as [-> ->]. split; [reflexivity|left; reflexivity].
Qed.

Lemma command_stage (f : string) (av : list string) fmt fa t (o : outcome Z) :
  runs (Exec f av (fprintf_stderr fmt fa ;; Ret 1)) t o ->
  observed do_start_step t = [Run_command]
  /\ (o = Replaced f av \/ (o = Returned 1 /\ ends_with_message t)).
Proof.
  intros H. cbn [runs] in H. destruct H as [[-> ->]|[t' [-> H]]].
  - split; [reflexivity|left; reflexivity].
  - unfold fprintf_stderr in H. runs_step H. runs_step H. split; [reflexivity|].
    right. split; [reflexivity|].
    apply ends_with_message_cons. apply ends_with_message_one.
Qed.

Lemma stage_weaken a s t o :
  stage_ok a s t o ->
  observed do_start_step t = []
  \/ (observed do_start_step t = [s] /\ requested a s = true).
Proof. intros [E _]. rewrite E. destruct (requested a s); auto. Qed.

Ltac exited_anyway :=
  try match goal with
      | Hne : forall c, Exited _ <> Exited c |- _ => exfalso; exact (Hne _ eq_refl)
      end.

(** The trace of [do_start], step by step: a step that ends the guest leaves
    the later segments empty; a guest that gets to [execvp] has taken every
    step that was asked for. *)
Lemma do_start_stages a tr out :
  runs (do_start a) tr out ->
  exists t0 t1 t2 t3 t4,
    tr = (t0 ++ t1 ++ t2 ++ t3 ++ t4)%list
    /\ (observed do_start_step t0 = []
        \/ (observed do_start_step t0 = [Wait_gate] /\ requested a Wait_gate = true))
    /\ (Forall (eq Default_mounts) (observed do_start_step t1)
        /\ (observed do_start_step t1 <> [] -> requested a Default_mounts = true))
    /\ (observed do_start_step t2 = []
        \/ (observed do_start_step t2 = [Set_hostname]
            /\ requested a Set_hostname = true))
    /\ (observed do_start_step t3 = []
        \/ (observed do_start_step t3 = [Drop_identity]
            /\ requested a Drop_identity = true))
    /\ (observed do_start_step t4 = [] \/ observed do_start_step t4 = [Run_command])
    /\ (out = Replaced (hd ""%string (args a)) (args a)
        \/ ((out = Exited EXIT_FAILURE \/ out = Returned 1) /\ ends_with_message tr))
    /\ ((forall c, out <> Exited c) ->
        (requested a Wait_gate = true -> observed do_start_step t0 = [Wait_gate])
        /\ (requested a Default_mounts = true -> observed do_start_step t1 <> [])
        /\ (requested a Set_hostname = true -> observed do_start_step t2 = [Set_hostname])
        /\ (requested a Drop_identity = true
            -> observed do_start_step t3 = [Drop_identity])
        /\ observed do_start_step t4 = [Run_command]).
Proof.
  intros H. unfold do_start in H.
  destruct (runs_bind_split _ _ _ _ H) as [t0 [r0 [o0 [-> [H0 K0]]]]].
  pose proof (stage_weaken _ _ _ _ (wait_stage _ _ _ H0)) as P0.
  destruct (wait_stage _ _ _ H0) as [E0 [->|[-> M0]]].
  2:{ destruct K0 as [-> ->]. exists t0, [], [], [], [].
      rewrite !app_nil_r. repeat split; exited_anyway; auto;
        try (now constructor); congruence. }
  clear H H0. rename K0 into H.
  destruct (runs_bind_split _ _ _ _ H) as [t1 [r1 [o1 [-> [H1 K1]]]]].
  destruct (mounts_stage _ _ _ H1) as [P1 [Q1 ->]].
  clear H H1. rename K1 into H.
  destruct (runs_bind_split _ _ _ _ H) as [t2 [r2 [o2 [-> [H2 K2]]]]].
  pose proof (stage_weaken _ _ _ _ (hostname_stage _ _ _ H2)) as P2.
  destruct (hostname_stage _ _ _ H2) as [E2 [->|[-> M2]]].
  2:{ destruct K2 as [-> ->]. exists t0, t1, t2, [], [].
      rewrite !app_nil_r. repeat split; exited_anyway; auto; try apply Q1; auto.
      right. split; [left; reflexivity|].
      now do 2 apply ends_with_message_app. }
  clear H H2. rename K2 into H.
  destruct (runs_bind_split _ _ _ _ H) as [t3 [r3 [o3 [-> [H3 K3]]]]].
  pose proof (stage_weaken _ _ _ _ (identity_stage _ _ _ H3)) as P3.
  destruct (identity_stage _ _ _ H3) as [E3 [->|[-> M3]]].
  2:{ destruct K3 as [-> ->]. exists t0, t1, t2, t3, [].
      rewrite !app_nil_r. repeat split; exited_anyway; auto; try apply Q1; auto.
      right. split; [left; reflexivity|].
      now do 3 apply ends_with_message_app. }
  clear H H3. rename K3 into H.
  assert (Hall : (requested a Wait_gate = true -> observed do_start_step t0 = [Wait_gate])
        /\ (requested a Default_mounts = true -> observed do_start_step t1 <> [])
        /\ (requested a Set_hostname = true -> observed do_start_step t2 = [Set_hostname])
        /\ (requested a Drop_identity = true
            -> observed do_start_step t3 = [Drop_identity])).
  { repeat split.
    - intros R. now rewrite E0, R.
    - apply Q1.
    - intros R. now rewrite E2, R.
    - intros R. now rewrite E3, R. }
  destruct (command_stage _ _ _ _ _ _ H) as [P4 [->|[-> M4]]].
  - exists t0, t1, t2, t3, r3. repeat split; auto; try apply Q1; try apply Hall; auto.
  - exists t0, t1, t2, t3, r3. repeat split; auto; try apply Q1; try apply Hall; auto.
    right. split; [right; reflexivity|].
    now do 4 apply ends_with_message_app.
Qed.

Lemma mounts_before_mounts l :
  Forall (eq Default_mounts) l -> Forall (step_before Default_mounts) l.
Proof. apply Forall_impl. intros s <-. right. auto. Qed.

Lemma in_order_after_mounts l rest :
  Forall (eq Default_mounts) l ->
  Forall (step_before Default_mounts) rest -> in_order rest ->
  in_order (l ++ rest).
Proof.
  intros Hl Hrest Hord. induction Hl as [|s l <- Hl IH]; [exact Hord|].
  cbn [app in_order]. split; [|exact IH].
  apply Forall_app. split; [now apply mounts_before_mounts|exact Hrest].
Qed.

Lemma later_steps_in_order l2 l3 l4 :
  l2 = [] \/ l2 = [Set_hostname] ->
  l3 = [] \/ l3 = [Drop_identity] ->
  l4 = [] \/ l4 = [Run_command] ->
  Forall (step_before Wait_gate) (l2 ++ l3 ++ l4)
  /\ Forall (step_before Default_mounts) (l2 ++ l3 ++ l4)
  /\ in_order (l2 ++ l3 ++ l4).
Proof.
  intros [-> | ->] [-> | ->] [-> | ->]; cbn [app in_order];
    repeat split; repeat constructor; unfold step_before; cbn [step_rank]; lia.
Qed.

(** X6 - the order of the guest's steps ([do_start]).  In every run of
    [do_start] the calls come in the order of the text: the read on the
    eventfd, the calls of the filesystem setup, [sethostname], [setuid],
    [execvp]; each of them but the filesystem calls is made at most once.  So
    mounts and hostname are set up before the identity is dropped, and
    nothing is done after [execvp] but to report its failure. *)
Theorem do_start_steps_in_order (a : start_arg) tr out :
  runs (do_start a) tr out ->
  in_order (observed do_start_step tr).
Proof.
  intros H.
  destruct (do_start_stages _ _ _ H)
    as [t0 [t1 [t2 [t3 [t4 [-> [P0 [[P1 _] [P2 [P3 [P4 _]]]]]]]]]]].
  rewrite !observed_app.
  assert (P2' : observed do_start_step t2 = [] \/ observed do_start_step t2 = [Set_hostname])
    by (destruct P2 as [E|[E _]]; auto).
  assert (P3' : observed do_start_step t3 = [] \/ observed do_start_step t3 = [Drop_identity])
    by (destruct P3 as [E|[E _]]; auto).
  destruct (later_steps_in_order _ _ _ P2' P3' P4) as [Hw [Hm Hord]].
  pose proof (in_order_after_mounts _ _ P1 Hm Hord) as Hrest.
  destruct P0 as [->|[-> _]]; cbn [app in_order]; [exact Hrest|].
  split; [|exact Hrest].
  apply Forall_app. split; [|exact Hw].
  revert P1. apply Forall_impl. intros s <-. left. cbn. lia.
Qed.

Lemma do_start_steps_in_order_witness :
  observed do_start_step (fst (run no_fs_os (do_start guest_request)))
  = [Wait_gate; Default_mounts; Default_mounts; Default_mounts; Default_mounts;
     Default_mounts; Default_mounts; Default_mounts; Default_mounts; Default_mounts;
     Default_mounts; Set_hostname; Drop_identity; Run_command]
  /\ in_order (observed do_start_step (fst (run no_fs_os (do_start guest_request)))).
Proof.
  split; [reflexivity|].
  exact (do_start_steps_in_order guest_request _ _
           (run_runs no_fs_os (do_start guest_request))).
Defined.

(** X7 - how [do_start] ends.  A run of [do_start] ends in one of three
    ways: the guest becomes the command [args[0]] with the arguments [args];
    or it leaves with [EXIT_FAILURE]; or [execvp] failed and [do_start]
    returns 1.  It never ends with status 0 of its own, and in the two
    failing cases the last thing it does is to write a message to stderr. *)
Theorem do_start_ends_in_command_or_reported_failure (a : start_arg) tr out :
  runs (do_start a) tr out ->
  out = Replaced (hd ""%string (args a)) (args a)
  \/ ((out = Exited EXIT_FAILURE \/ out = Returned 1) /\ ends_with_message tr).
Proof.
  intros H.
  destruct (do_start_stages _ _ _ H)
    as [t0 [t1 [t2 [t3 [t4 [_ [_ [_ [_ [_ [_ [Hout _]]]]]]]]]]]].
  exact Hout.
Qed.

Lemma do_start_ends_in_command_or_reported_failure_witness :
  run no_hostname_os (do_start guest_request)
  = ([Ev (FdRead 3 8) 8; Ev (Umount "/proc") 0; Ev (Access "/dev/shm" F_OK) 0;
      Ev (Umount "/dev/shm") 0; Ev (Access "/dev/mqueue" F_OK) 0;
      Ev (Umount "/dev/mqueue") 0; Ev (Sethostname "guest" 5) (-1);
      Ev (Fprintf_stderr ("Failed to set hostname %s: %s" ++ LF)%string
            [FStr "guest"; FStrerror]) tt],
     Exited EXIT_FAILURE)
  /\ (snd (run no_hostname_os (do_start guest_request))
        = Replaced (hd ""%string (args guest_request)) (args guest_request)
      \/ ((snd (run no_hostname_os (do_start guest_request)) = Exited EXIT_FAILURE
           \/ snd (run no_hostname_os (do_start guest_request)) = Returned 1)
          /\ ends_with_message (fst (run no_hostname_os (do_start guest_request))))).
Proof.
  split; [reflexivity|].
  exact (do_start_ends_in_command_or_reported_failure guest_request _ _
           (run_runs no_hostname_os (do_start guest_request))).
Defined.

Lemma in_segments {A : Type} (x : A) l0 l1 l2 l3 l4 :
  In x (l0 ++ l1 ++ l2 ++ l3 ++ l4) <->
  In x l0 \/ In x l1 \/ In x l2 \/ In x l3 \/ In x l4.
Proof. rewrite !in_app_iff. tauto. Qed.

(** X8 - which steps [do_start] takes.  [do_start] takes a step only when
    the request asks for it: it reads the eventfd and calls [setuid] only with
    [setuid] set, touches the filesystem only with [CLONE_NEWNS] and the
    default mounts, calls [sethostname] only with [CLONE_NEWUTS] and a
    hostname.  And a guest that does not leave with [_exit] on the way has
    taken every step that was asked for before it tries its command. *)
Theorem do_start_takes_the_requested_steps (a : start_arg) tr out :
  runs (do_start a) tr out ->
  (forall s, In s (observed do_start_step tr) -> requested a s = true)
  /\ ((forall c, out <> Exited c) ->
      forall s, requested a s = true -> In s (observed do_start_step tr)).
Proof.
  intros H.
  destruct (do_start_stages _ _ _ H)
    as [t0 [t1 [t2 [t3 [t4 [-> [P0 [[P1 Q1] [P2 [P3 [P4 [_ Hall]]]]]]]]]]]].
  rewrite !observed_app. split.
  - intros s Hin. apply in_segments in Hin.
    destruct Hin as [Hin|[Hin|[Hin|[Hin|Hin]]]].
    + destruct P0 as [E|[E R]]; rewrite E in Hin; [destruct Hin|].
      destruct Hin as [<-|[]]. exact R.
    + rewrite Forall_forall in P1. rewrite <- (P1 _ Hin). apply Q1.
      intros E. rewrite E in Hin. destruct Hin.
    + destruct P2 as [E|[E R]]; rewrite E in Hin; [destruct Hin|].
      destruct Hin as [<-|[]]. exact R.
    + destruct P3 as [E|[E R]]; rewrite E in Hin; [destruct Hin|].
      destruct Hin as [<-|[]]. exact R.
    + destruct P4 as [E|E]; rewrite E in Hin; [destruct Hin|].
      destruct Hin as [<-|[]]. reflexivity.
  - intros Hne s R. destruct (Hall Hne) as [A0 [A1 [A2 [A3 A4]]]].
    apply in_segments. destruct s.
    + left. rewrite (A0 R). now left.
    + right. left. specialize (A1 R).
      destruct (observed do_start_step t1) as [|s l]; [congruence|].
      inversion P1; subst. now left.
    + right. right. left. rewrite (A2 R). now left.
    + right. right. right. left. rewrite (A3 R). now left.
    + right. right. right. right. rewrite A4. now left.
Qed.

Lemma do_start_takes_the_requested_steps_witness :
  run quiet_os (do_start mount_only_request)
  = ([Ev (Umount "/proc") 0; Ev (Access "/dev/shm" F_OK) 0; Ev (Umount "/dev/shm") 0;
      Ev (Access "/dev/mqueue" F_OK) 0; Ev (Umount "/dev/mqueue") 0;
      EvExec "/bin/true" ["/bin/true"] true],
     Replaced "/bin/true" ["/bin/true"])
  /\ (forall s, In s (observed do_start_step (fst (run quiet_os (do_start mount_only_request))))
                -> requested mount_only_request s = true)
  /\ (forall s, requested mount_only_request s = true ->
                In s (observed do_start_step
                        (fst (run quiet_os (do_start mount_only_request))))).
Proof.
  split; [reflexivity|].
  destruct (do_start_takes_the_requested_steps mount_only_request _ _
              (run_runs quiet_os (do_start mount_only_request))) as [Honly Hall].
  split; [exact Honly|].
  apply Hall. intros c. simpl. discriminate.
Defined.

(** ** The filesystem setup *)

Lemma mount_fs_calls source target type t o :
  runs (mount_fs source target type) t o ->
  (exists z, o = Returned z)
  /\ observed umount_target t = [target]
  /\ map mount_target (observed mount_call t) = observed failed_umount t
  /\ Forall (eq (source, target, type)) (observed mount_call t)
  /\ observed mkdir_path t = [] /\ observed failed_access t = [].
Proof.
  intros H. unfold mount_fs in H. runs_step H. runs_step H.
  - runs_step H. runs_step H; runs_step H; unfold observed; cbn; rewrite Heqb;
      repeat split; eauto.
  - runs_step H. unfold observed; cbn; rewrite Heqb; repeat split; eauto.
Qed.

Lemma make_dir_calls {R : Type} path mode (k : prog R) t o :
  runs (a <- trigger (Access path F_OK) ;;
        when (truthy a) (trigger (Mkdir path mode) ;; Ret tt) ;;
        k) t o ->
  exists t1 t2, t = (t1 ++ t2)%list /\ runs k t2 o
    /\ observed umount_target t1 = [] /\ observed failed_umount t1 = []
    /\ observed mount_call t1 = []
    /\ observed mkdir_path t1 = observed failed_access t1.
Proof.
  intros H. runs_step H. runs_step H.
  - runs_step H. exists [Ev (Access path F_OK) r; Ev (Mkdir path mode) r0], t.
    split; [reflexivity|]. split; [exact H|].
    unfold observed; cbn; rewrite Heqb. auto.
  - exists [Ev (Access path F_OK) r], t0.
    split; [reflexivity|]. split; [exact H|].
    unfold observed; cbn; rewrite Heqb. auto.
Qed.

(** X9 - the default mounts ([lxc_setup_fs] with [mount_fs]).  Whatever the
    calls answer, [lxc_setup_fs] returns: it unmounts [/proc], [/dev/shm] and
    [/dev/mqueue], in this order; it mounts, with the source and type of the
    text, exactly those of them whose [umount] failed, so a target that was
    mounted before is left unmounted; and it calls [mkdir] for exactly the
    paths that [access] did not find. *)
Theorem lxc_setup_fs_mounts_where_umount_failed tr out :
  runs lxc_setup_fs tr out ->
  out = Returned tt
  /\ observed umount_target tr = ["/proc"; "/dev/shm"; "/dev/mqueue"]%string
  /\ map mount_target (observed mount_call tr) = observed failed_umount tr
  /\ incl (observed mount_call tr) default_mounts
  /\ observed mkdir_path tr = observed failed_access tr.
Proof.
  intros H. unfold lxc_setup_fs in H.
  destruct (runs_bind_split _ _ _ _ H) as [t1 [r1 [o1 [-> [H1 K1]]]]].
  destruct (mount_fs_calls _ _ _ _ _ H1) as [[z1 ->] [U1 [M1 [F1 [D1 A1]]]]].
  destruct (make_dir_calls _ _ _ _ _ K1) as [t2 [r2 [-> [K2 [U2 [X2 [M2 D2]]]]]]].
  destruct (runs_bind_split _ _ _ _ K2) as [t3 [r3 [o3 [-> [H3 K3]]]]].
  destruct (mount_fs_calls _ _ _ _ _ H3) as [[z3 ->] [U3 [M3 [F3 [D3 A3]]]]].
  destruct (make_dir_calls _ _ _ _ _ K3) as [t4 [r4 [-> [K4 [U4 [X4 [M4 D4]]]]]]].
  destruct (runs_bind_split _ _ _ _ K4) as [t5 [r5 [o5 [-> [H5 K5]]]]].
  destruct (mount_fs_calls _ _ _ _ _ H5) as [[z5 ->] [U5 [M5 [F5 [D5 A5]]]]].
  destruct K5 as [-> ->]. rewrite app_nil_r.
  rewrite !observed_app, !map_app.
  rewrite U1, U2, U3, U4, U5, M1, M2, M3, M4, M5, X2, X4, D1, D2, D3, D4, D5, A1, A3, A5.
  repeat split; auto.
  intros m Hin. rewrite !in_app_iff in Hin. rewrite !Forall_forall in *.
  unfold default_mounts.
  destruct Hin as [Hin|[[]|[Hin|[[]|Hin]]]];
    [rewrite <- (F1 _ Hin)|rewrite <- (F3 _ Hin)|rewrite <- (F5 _ Hin)]; simpl; auto.
Qed.

Lemma lxc_setup_fs_mounts_where_umount_failed_witness :
  run quiet_os lxc_setup_fs
  = ([Ev (Umount "/proc") 0; Ev (Access "/dev/shm" F_OK) 0; Ev (Umount "/dev/shm") 0;
      Ev (Access "/dev/mqueue" F_OK) 0; Ev (Umount "/dev/mqueue") 0], Returned tt)
  /\ observed mount_call (fst (run no_fs_os lxc_setup_fs)) = default_mounts
  /\ observed mkdir_path (fst (run no_fs_os lxc_setup_fs))
     = ["/dev/shm"; "/dev/mqueue"]%string
  /\ map mount_target (observed mount_call (fst (run no_fs_os lxc_setup_fs)))
     = observed failed_umount (fst (run no_fs_os lxc_setup_fs)).
Proof.
  split; [reflexivity|]. split; [reflexivity|]. split; [reflexivity|].
  exact (proj1 (proj2 (proj2 (lxc_setup_fs_mounts_where_umount_failed _ _
                                (run_runs no_fs_os lxc_setup_fs))))).
Defined.

(** ** [main] around the creation of the guest *)

Lemma usage_gives_up {A : Type} argv0 (k : A -> prog Z) pre t out :
  Forall (event_ok (@is_prelude_call) False) pre ->
  runs (bind (usage argv0) k) t out ->
  gives_up (pre ++ t) out.
Proof.
  intros Hpre H.
  destruct (runs_bind_no_return _ _ _ _ _ _ _ (usage_calls argv0) H) as [Hev Hout].
  destruct out as [r|c|f av|]; simpl in Hout; try contradiction.
  unfold exit_0 in Hout. subst c. split; [|left; reflexivity].
  apply Forall_app. split; [exact Hpre|].
  revert Hev. apply Forall_impl. intros [T e r|f av ok]; simpl; [|tauto].
  destruct e; simpl; congruence.
Qed.

(** A run of [launch] gives up before [lxc_clone], or calls it once with the
    request as parsed, the command and the namespace flags, and goes on with
    [launch_tail]. *)
Lemma launch_inv argv0 st rest tr out :
  runs (launch argv0 st rest) tr out ->
  gives_up tr out
  \/ exists pre fl fd pid post,
       tr = (pre ++ Ev (Lxc_clone (set_wait_fd (set_args_flags (start st) rest fl) fd) fl)
                       pid :: post)%list
       /\ Forall (event_ok (@is_prelude_call) False) pre
       /\ first_some fill_flags_answer pre = Some (0, fl)
       /\ rest <> []
       /\ (my_iflist st <> [] -> truthy (Z.land fl CLONE_NEWNET) = true)
       /\ (want_hostname (start st) <> None -> truthy (Z.land fl CLONE_NEWUTS) = true)
       /\ (truthy (want_default_mounts (start st)) = true
           -> truthy (Z.land fl CLONE_NEWNS) = true)
       /\ (if setuid (start st)
           then observed eventfd_answer pre = [fd] /\ 0 <= fd
           else observed eventfd_answer pre = [] /\ fd = wait_fd (start st))
       /\ runs (launch_tail st (set_wait_fd (set_args_flags (start st) rest fl) fd) pid)
            post out.
Proof.
  intros H. unfold launch in H.
  runs_step H.
  { runs_step H. runs_step H. left. split; [repeat constructor|].
    right. split; [reflexivity|]. left. apply ends_with_message_one. }
  runs_step H.
  runs_step H.
  { runs_step H. left. split; [repeat constructor|].
    right. split; [reflexivity|]. right. eauto. }
  runs_step H.
  runs_step H.
  { left. refine (usage_gives_up argv0 _ [_; _] _ _ _ H). repeat constructor. }
  runs_step H.
  runs_step H.
  { left. refine (usage_gives_up argv0 _ [_; _; _] _ _ _ H). repeat constructor. }
  apply truthy_false in Heqb2.
  destruct r1 as [ret fl]. cbn [fst snd] in *. subst ret.
  runs_step H.
  { runs_step H. runs_step H. left. split; [repeat constructor|].
    right. split; [reflexivity|]. left.
    do 3 apply ends_with_message_cons. apply ends_with_message_one. }
  runs_step H.
  { runs_step H. runs_step H. left. split; [repeat constructor|].
    right. split; [reflexivity|]. left.
    do 3 apply ends_with_message_cons. apply ends_with_message_one. }
  runs_step H.
  { runs_step H. runs_step H. left. split; [repeat constructor|].
    right. split; [reflexivity|]. left.
    do 3 apply ends_with_message_cons. apply ends_with_message_one. }
  assert (Hnet : my_iflist st <> [] -> truthy (Z.land fl CLONE_NEWNET) = true).
  { intros Hne. destruct (truthy (Z.land fl CLONE_NEWNET)); [reflexivity|].
    destruct (my_iflist st); [congruence|discriminate Heqb2]. }
  assert (Huts : want_hostname (start st) <> None
                 -> truthy (Z.land fl CLONE_NEWUTS) = true).
  { intros Hne. destruct (truthy (Z.land fl CLONE_NEWUTS)); [reflexivity|].
    destruct (want_hostname (start st)); [discriminate Heqb3|congruence]. }
  assert (Hmnt : truthy (want_default_mounts (start st)) = true
                 -> truthy (Z.land fl CLONE_NEWNS) = true).
  { intros Hne. destruct (truthy (Z.land fl CLONE_NEWNS)); [reflexivity|].
    rewrite Hne in Heqb4. discriminate Heqb4. }
  assert (Hrest : rest <> []) by (intros ->; discriminate Heqb).
  runs_step H.
  - runs_step H. runs_step H.
    { runs_step H. runs_step H. left. split; [repeat constructor|].
      right. split; [reflexivity|]. left.
      do 4 apply ends_with_message_cons. apply ends_with_message_one. }
    runs_step H. right.
    refine (ex_intro _ [_; _; _; _] _). do 4 eexists.
    split; [reflexivity|]. split; [repeat constructor|].
    split; [reflexivity|]. split; [exact Hrest|].
    split; [exact Hnet|]. split; [exact Huts|]. split; [exact Hmnt|].
    split; [split; [reflexivity|now apply Z.ltb_ge]|].
    unfold launch_tail. cbn [setuid set_wait_fd set_args_flags uid wait_fd].
    rewrite Heqb5. exact H.
  - runs_step H. right.
    refine (ex_intro _ [_; _; _] _). do 4 eexists.
    split; [reflexivity|]. split; [repeat constructor|].
    split; [reflexivity|]. split; [exact Hrest|].
    split; [exact Hnet|]. split; [exact Huts|]. split; [exact Hmnt|].
    split; [split; reflexivity|].
    unfold launch_tail. cbn [setuid set_wait_fd set_args_flags uid wait_fd].
    rewrite Heqb5. exact H.
Qed.

Lemma launch_tail_inv st sa pid post out :
  runs (launch_tail st sa pid) post out -> tail_run st sa pid post out.
Proof.
  intros H. unfold launch_tail in H.
  runs_step H.
  { runs_step H. runs_step H. eapply clone_failed; eauto. now apply Z.ltb_lt. }
  apply Z.ltb_ge in Heqb.
  destruct (setuid sa) eqn:Hs; cbn [when] in H.
  - runs_step H. rewrite snprintf_umap_fits in H.
    runs_step H. runs_step H.
    { runs_step H. runs_step H. runs_step H.
      eapply map_failed; eauto. now apply Z.ltb_lt. }
    apply Z.ltb_ge in Heqb0.
    runs_step H. runs_step H.
    { runs_step H. runs_step H. runs_step H.
      eapply signal_failed; eauto. now apply Z.ltb_lt. }
    apply Z.ltb_ge in Heqb1.
    eapply (released st sa pid _ _ r r0 r1 t); auto.
  - eapply not_gated; eauto.
Qed.

Lemma move_interfaces_returns pid ifs tr out :
  runs (move_interfaces pid ifs) tr out ->
  (forall ev, In ev tr -> fork_answer ev <> Some 0) ->
  out = Returned tt.
Proof.
  revert pid tr. induction ifs as [|i ifs IH]; intros pid tr H Hpar;
    cbn [move_interfaces] in H.
  - now destruct H as [_ ->].
  - runs_step H.
    assert (Hr : r <> 0).
    { intros ->. apply (Hpar (Ev Fork 0)); [left|]; reflexivity. }
    assert (Hr0 : (r =? 0) = false) by now apply Z.eqb_neq.
    rewrite Hr0 in H.
    runs_step H; repeat runs_step H;
      (apply (IH _ _ H); intros ev Hin; apply Hpar; simpl; tauto).
Qed.

Lemma finish_late st pid :
  post (@is_late_call) True (@no_value Z) exit_0_or_1 (finish st pid).
Proof. unfold finish. late_post. Qed.

(** In the parent, [finish] ends with [EXIT_FAILURE] only after the message
    that the wait for the guest failed. *)
Lemma finish_reports_failure st pid fin out :
  runs (finish st pid) fin out ->
  (forall ev, In ev fin -> fork_answer ev <> Some 0) ->
  out = Exited EXIT_FAILURE -> ends_with_message fin.
Proof.
  intros H Hpar ->. unfold finish in H.
  destruct (runs_bind_split _ _ _ _ H) as [t1 [t2 [o1 [-> [H1 K]]]]].
  assert (Ho1 : o1 = Returned tt).
  { destruct (negb (is_nil (my_iflist st))); cbn [when] in H1.
    - apply (move_interfaces_returns _ _ _ _ H1).
      intros ev Hin. apply Hpar. apply in_or_app. now left.
    - now destruct H1 as [_ ->]. }
  subst o1. apply ends_with_message_app.
  runs_step K. { runs_step K. discriminate. }
  runs_step K. runs_step K.
  - runs_step K. runs_step K.
    apply ends_with_message_cons. apply ends_with_message_one.
  - runs_step K. discriminate.
Qed.

Lemma observed_none {A : Type} (f : event -> option A) tr :
  Forall (fun ev => f ev = None) tr -> observed f tr = [].
Proof.
  induction 1 as [|ev tr Hev _ IH]; [reflexivity|].
  unfold observed in *. cbn [flat_map]. now rewrite Hev, IH.
Qed.

(** A trace of calls of one kind shows nothing to an observer of another. *)
Lemma observed_elsewhere {A : Type} (f : event -> option A)
    (Pe : forall T : Type, syscall T -> bool) (Px : Prop) tr :
  (forall T (e : syscall T) r, Pe T e = true -> f (Ev e r) = None) ->
  (forall g av ok, f (EvExec g av ok) = None) ->
  Forall (event_ok Pe Px) tr -> observed f tr = [].
Proof.
  intros He Hx Hall. apply observed_none. revert Hall.
  apply Forall_impl. intros [T e r|g av ok]; simpl; auto.
Qed.

Lemma first_some_elsewhere {A : Type} (f : event -> option A)
    (Pe : forall T : Type, syscall T -> bool) (Px : Prop) tr :
  (forall T (e : syscall T) r, Pe T e = true -> f (Ev e r) = None) ->
  (forall g av ok, f (EvExec g av ok) = None) ->
  Forall (event_ok Pe Px) tr -> first_some f tr = None.
Proof.
  intros He Hx Hall. apply first_some_none. revert Hall.
  apply Forall_impl. intros [T e r|g av ok]; simpl; auto.
Qed.

Lemma first_some_app_l {A : Type} (f : event -> option A) t1 t2 a :
  first_some f t1 = Some a -> first_some f (t1 ++ t2) = Some a.
Proof.
  induction t1 as [|x l IH]; simpl; [discriminate|].
  destruct (f x); auto.
Qed.

Lemma launch_tail_calls st sa pid :
  post (@is_tail_call) True (@no_value Z) exit_0_or_1 (launch_tail st sa pid).
Proof.
  unfold launch_tail.
  post_auto ltac:(eapply post_mono; [..|apply move_interfaces_post];
                  solve [auto | intros T []; simpl; auto
                        | intros c ->; right; reflexivity]).
Qed.

(** X10 - what the guest is given ([main], from the validation to
    [lxc_clone]).  [launch] calls [lxc_clone] at most once.  The request it
    hands to [do_start] is the one the options left, with the command as
    [args] and with the flags that [lxc_fill_namespace_flags] computed, which
    are also the flags of the clone.  Validation has made the flag tests of
    [do_start] redundant: the guest sets the hostname whenever one was
    given and does the default mounts whenever [-M] was.  With [setuid] the
    guest's [wait_fd] is the one eventfd created, otherwise none is created
    and [wait_fd] is left as it was. *)
Theorem launch_clones_the_parsed_request
    (argv0 : string) (st : main_locals) (rest : list string) tr out
    (sa : start_arg) (fl pid : Z) :
  runs (launch argv0 st rest) tr out ->
  first_some clone_call tr = Some (sa, fl, pid) ->
  observed clone_call tr = [(sa, fl, pid)]
  /\ sa = set_wait_fd (set_args_flags (start st) rest fl) (wait_fd sa)
  /\ rest <> []
  /\ first_some fill_flags_answer tr = Some (0, fl)
  /\ requested sa Set_hostname = is_some (want_hostname (start st))
  /\ requested sa Default_mounts = truthy (want_default_mounts (start st))
  /\ (if setuid (start st)
      then observed eventfd_answer tr = [wait_fd sa] /\ 0 <= wait_fd sa
      else observed eventfd_answer tr = [] /\ wait_fd sa = wait_fd (start st)).
Proof.
  intros H Hcl.
  destruct (launch_inv _ _ _ _ _ H)
    as [[Hpre _]|[pre [fl' [fd [pid' [post [-> [Hpre [Hfl [Hrest [_ [Huts [Hmnt [Hfd Ht]]]]]]]]]]]]]].
  { rewrite (first_some_elsewhere clone_call (@is_prelude_call) False) in Hcl;
      [discriminate Hcl| |reflexivity|exact Hpre].
    intros T []; simpl; congruence. }
  assert (Hpc : forall T (e : syscall T) r, is_prelude_call e = true ->
                                            clone_call (Ev e r) = None)
    by (intros T []; simpl; congruence).
  assert (Htc : forall T (e : syscall T) r, is_tail_call e = true ->
                                            clone_call (Ev e r) = None)
    by (intros T []; simpl; congruence).
  assert (Hte : forall T (e : syscall T) r, is_tail_call e = true ->
                                            eventfd_answer (Ev e r) = None)
    by (intros T []; simpl; congruence).
  pose proof (post_events _ _ _ _ _ _ _ (launch_tail_calls _ _ _) Ht) as Hpost.
  rewrite first_some_app in Hcl
    by (apply (first_some_elsewhere _ (@is_prelude_call) False); auto).
  cbn in Hcl. injection Hcl as <- <- <-.
  split; [|split; [|split; [|split; [|split; [|split]]]]].
  - rewrite observed_app.
    rewrite (observed_elsewhere clone_call (@is_prelude_call) False pre); auto.
    change (observed clone_call (Ev (Lxc_clone ?a ?f) ?p :: post))
      with ((a, f, p) :: observed clone_call post).
    now rewrite (observed_elsewhere clone_call (@is_tail_call) True post).
  - reflexivity.
  - exact Hrest.
  - apply first_some_app_l. exact Hfl.
  - cbn [requested want_hostname flags set_wait_fd set_args_flags].
    destruct (want_hostname (start st)) as [h|]; cbn [is_some].
    + rewrite Huts by discriminate. reflexivity.
    + apply andb_false_r.
  - cbn [requested want_default_mounts flags set_wait_fd set_args_flags].
    destruct (truthy (want_default_mounts (start st))) eqn:Hm.
    + rewrite Hmnt by reflexivity. reflexivity.
    + apply andb_false_r.
  - cbn [wait_fd set_wait_fd].
    rewrite observed_app.
    change (observed eventfd_answer (Ev (Lxc_clone ?a ?f) ?p :: post))
      with (observed eventfd_answer post).
    rewrite (observed_elsewhere eventfd_answer (@is_tail_call) True post); auto.
    rewrite app_nil_r. exact Hfd.
Qed.

Lemma launch_clones_the_parsed_request_witness :
  observed clone_call (fst (run remap_os (launch "lxc-unshare" remap_locals ["/bin/true"])))
  = [(remap_request, CLONE_NEWUSER, 4242)]
  /\ observed eventfd_answer
       (fst (run remap_os (launch "lxc-unshare" remap_locals ["/bin/true"])))
     = [3].
Proof.
  destruct (launch_clones_the_parsed_request
              "lxc-unshare" remap_locals ["/bin/true"] _ _ remap_request CLONE_NEWUSER 4242
              (run_runs remap_os (launch "lxc-unshare" remap_locals ["/bin/true"]))
              eq_refl)
    as [Hone [_ [_ [_ [_ [_ Hfd]]]]]].
  split; [exact Hone|]. exact (proj1 Hfd).
Defined.

Lemma no_failed_map_elsewhere (Pe : forall T : Type, syscall T -> bool) (Px : Prop) tr ev :
  (forall T (e : syscall T) r, Pe T e = true -> failed_map (Ev e r) = false) ->
  Forall (event_ok Pe Px) tr -> In ev tr -> failed_map ev = false.
Proof.
  intros He Hall Hin. rewrite Forall_forall in Hall. specialize (Hall _ Hin).
  destruct ev as [T e r|g av ok]; simpl in *; auto.
Qed.

Lemma prelude_map_unfailed tr ev :
  Forall (event_ok (@is_prelude_call) False) tr -> In ev tr -> failed_map ev = false.
Proof.
  apply no_failed_map_elsewhere. intros T []; simpl; congruence.
Qed.

Lemma finish_map_unfailed st pid fin out ev :
  runs (finish st pid) fin out -> In ev fin -> failed_map ev = false.
Proof.
  intros H. apply (no_failed_map_elsewhere (@is_late_call) True).
  - intros T []; simpl; congruence.
  - exact (post_events _ _ _ _ _ _ _ (finish_late st pid) H).
Qed.

(** X11 - a uid map that cannot be written ([main], the test of
    [write_id_mapping]).  When [write_id_mapping] fails, the guest exists
    already: [main] closes its end of the eventfd, writes a message and
    leaves with [EXIT_FAILURE].  It never writes to the eventfd, moves no
    interface and does not wait for the guest, which it leaves behind at its
    [read]. *)
Theorem failed_uid_map_keeps_the_gate_shut
    (argv0 : string) (st : main_locals) (rest : list string) tr out (ev : event) :
  runs (launch argv0 st rest) tr out ->
  In ev tr -> failed_map ev = true ->
  out = Exited EXIT_FAILURE
  /\ ends_with_message tr
  /\ observed written_fd tr = []
  /\ observed fork_answer tr = []
  /\ observed wait_for_pid_call tr = []
  /\ exists sa fl pid,
       observed clone_call tr = [(sa, fl, pid)] /\ 0 <= pid /\ setuid sa = true
       /\ observed closed_fd tr = [wait_fd sa].
Proof.
  intros H Hin Hev.
  destruct (launch_inv _ _ _ _ _ H)
    as [[Hpre _]|[pre [fl [fd [pid [post [-> [Hpre [_ [_ [_ [_ [_ [_ Ht]]]]]]]]]]]]]].
  { rewrite (prelude_map_unfailed _ _ Hpre Hin) in Hev. discriminate Hev. }
  apply in_app_or in Hin. destruct Hin as [Hin|[<-|Hin]].
  { rewrite (prelude_map_unfailed _ _ Hpre Hin) in Hev. discriminate Hev. }
  { discriminate Hev. }
  assert (Hobs : forall (A : Type) (f : event -> option A),
             (forall T (e : syscall T) r, is_prelude_call e = true -> f (Ev e r) = None) ->
             (forall g av ok, f (EvExec g av ok) = None) ->
             observed f pre = [])
    by (intros A f He Hx; now apply (observed_elsewhere f (@is_prelude_call) False)).
  destruct (launch_tail_inv _ _ _ _ _ Ht)
    as [m Hp -> ->|rq r c m Hp Hs Hr -> ->|rq r w c m Hp Hs Hr Hw -> ->
        |rq r w fin Hp Hs Hr Hw -> Hfin|Hp Hs Hfin].
  - find_event Hin Hev. destruct Hin.
  - split; [reflexivity|]. split.
    { apply ends_with_message_app. do 4 apply ends_with_message_cons.
      apply ends_with_message_one. }
    rewrite !observed_app.
    rewrite !Hobs by (try reflexivity; intros T []; simpl; congruence).
    split; [reflexivity|]. split; [reflexivity|]. split; [reflexivity|].
    eexists _, fl, pid.
    split; [reflexivity|]. split; [exact Hp|]. split; [exact Hs|].
    reflexivity.
  - exfalso. apply Z.ltb_ge in Hr. find_event Hin Hev.
    + cbn in Hev. congruence.
    + destruct Hin.
  - exfalso. apply Z.ltb_ge in Hr. find_event Hin Hev.
    + cbn in Hev. congruence.
    + rewrite (finish_map_unfailed _ _ _ _ _ Hfin Hin) in Hev. discriminate Hev.
  - rewrite (finish_map_unfailed _ _ _ _ _ Hfin Hin) in Hev. discriminate Hev.
Qed.

Lemma failed_uid_map_keeps_the_gate_shut_witness :
  run remap_no_user_os (launch "lxc-unshare" remap_no_user_locals ["/bin/true"])
  = ([Ev Lxc_caps_init 0;
      Ev (Lxc_namespace_2_std_identifiers (Some "MOUNT")) (0, Some "MOUNT");
      Ev (Lxc_fill_namespace_flags (Some "MOUNT") 0) (0, CLONE_NEWNS);
      Ev (Eventfd 0 EFD_CLOEXEC) 3;
      Ev (Lxc_clone (set_wait_fd (set_args_flags (start remap_no_user_locals)
                                    ["/bin/true"] CLONE_NEWNS) 3) CLONE_NEWNS) 4242;
      Ev Getuid 0;
      Ev (Write_id_mapping ID_TYPE_UID 4242 ("1000 0 1" ++ LF)%string 9) (-1);
      Ev (FdClose 3) 0;
      Ev (Fprintf_stderr ("uid mapping failed" ++ LF)%string []) tt],
     Exited EXIT_FAILURE)
  /\ observed written_fd
       (fst (run remap_no_user_os
               (launch "lxc-unshare" remap_no_user_locals ["/bin/true"]))) = []
  /\ observed wait_for_pid_call
       (fst (run remap_no_user_os
               (launch "lxc-unshare" remap_no_user_locals ["/bin/true"]))) = [].
Proof.
  split; [reflexivity|].
  destruct (failed_uid_map_keeps_the_gate_shut
              "lxc-unshare" remap_no_user_locals ["/bin/true"] _ _
              (Ev (Write_id_mapping ID_TYPE_UID 4242 ("1000 0 1" ++ LF)%string 9) (-1))
              (run_runs remap_no_user_os
                 (launch "lxc-unshare" remap_no_user_locals ["/bin/true"])))
    as [_ [_ [Hw [_ [Hwait _]]]]].
  - simpl. tauto.
  - reflexivity.
  - split; [exact Hw|exact Hwait].
Defined.

(** ** Without [-u] *)

Lemma usage_no_identity {R : Type} cmd :
  post no_identity_call False (@no_value R) exit_0 (usage cmd).
Proof. unfold usage. post_tac. Qed.

Lemma move_interfaces_no_identity pid ifs :
  post no_identity_call True any_value exit_0_or_1 (move_interfaces pid ifs).
Proof.
  eapply post_mono; [..|apply move_interfaces_post]; auto.
  - intros T []; simpl; auto; discriminate.
  - intros c ->. right; reflexivity.
Qed.

Lemma handle_opt_no_identity argv0 o st :
  is_opt_u o = false ->
  post no_identity_call False any_value exit_0_or_1 (handle_opt argv0 o st).
Proof.
  intros Ho. destruct o; try discriminate Ho; cbn [handle_opt];
    post_auto ltac:(eapply post_mono; [..|apply (@usage_no_identity main_locals)];
                    solve [auto | intros _ [] | intros c ->; left; reflexivity]).
Qed.

Lemma getopt_loop_no_identity argv0 opts st :
  forallb (fun o => negb (is_opt_u o)) opts = true ->
  post no_identity_call False any_value exit_0_or_1 (getopt_loop argv0 opts st).
Proof.
  revert st. induction opts as [|o opts IH]; intros st Ho; cbn [getopt_loop].
  - exact I.
  - cbn [forallb] in Ho. apply andb_true_iff in Ho. destruct Ho as [Ho Hos].
    apply post_bind with (PrA := any_value).
    + apply handle_opt_no_identity. now apply negb_true_iff.
    + intros st1 _. now apply IH.
Qed.

Lemma getopt_loop_keeps_identity argv0 opts st tr st' :
  forallb (fun o => negb (is_opt_u o)) opts = true ->
  runs (getopt_loop argv0 opts st) tr (Returned st') ->
  setuid (start st') = setuid (start st) /\ uid (start st') = uid (start st).
Proof.
  revert st tr. induction opts as [|o opts IH]; intros st tr Ho H;
    cbn [getopt_loop] in H.
  - destruct H as [_ E]. injection E as <-. auto.
  - cbn [forallb] in Ho. apply andb_true_iff in Ho. destruct Ho as [Ho Hos].
    destruct (runs_bind_inv _ _ _ _ H)
      as [[st1 [t1 [t2 [-> [H1 H2]]]]]|[[c [_ E]]|[[f [av [_ E]]]|[_ E]]]];
      try discriminate E.
    apply handle_opt_returns in H1.
    destruct (IH _ _ Hos H2) as [-> ->].
    destruct o; try discriminate Ho; try contradiction; subst st1; auto.
Qed.

Lemma launch_no_identity argv0 st rest :
  setuid (start st) = false ->
  post no_identity_call True (@no_value Z) exit_0_or_1 (launch argv0 st rest).
Proof.
  intros Hs. unfold launch. cbn [setuid set_wait_fd set_args_flags].
  rewrite Hs. unfold when. cbv beta iota.
  post_auto ltac:(first
    [ eapply post_mono; [..|apply (@usage_no_identity unit)];
      solve [auto | intros _ [] | intros c ->; left; reflexivity]
    | idtac; lazymatch goal with
      | |- post _ _ _ _ (move_interfaces _ _) => apply move_interfaces_no_identity
      end ]).
Qed.

(** X12 - a command line without [-u] ([main] and the option loop).  When
    no [-u] is given, no run of [main] parses or looks up an identity,
    creates an eventfd, asks for its own uid or writes a uid map; and the
    guest, if one is cloned, is told not to change its identity, so by its
    own tests it neither reads an eventfd nor calls [setuid]. *)
Theorem main_without_identity_option
    (argv0 : string) (opts : list getopt_result) (rest : list string) tr out :
  forallb (fun o => negb (is_opt_u o)) opts = true ->
  runs (main argv0 opts rest) tr out ->
  Forall (fun ev => on_call (@is_identity_call) ev = false) tr
  /\ (forall sa fl pid, first_some clone_call tr = Some (sa, fl, pid) ->
        setuid sa = false /\ uid sa = 0
        /\ requested sa Wait_gate = false /\ requested sa Drop_identity = false).
Proof.
  intros Ho H. unfold main in H.
  assert (Hno : forall t, Forall (event_ok no_identity_call True) t ->
                          Forall (fun ev => on_call (@is_identity_call) ev = false) t).
  { intros t. apply Forall_impl. intros [T e r|f av ok]; simpl; [|reflexivity].
    unfold no_identity_call. now intros ->%negb_true_iff. }
  pose proof (getopt_loop_no_identity argv0 opts init_locals Ho) as Hloop.
  destruct (runs_bind_inv _ _ _ _ H)
    as [[st [t1 [t2 [-> [H1 H2]]]]]|[[c [H1 ->]]|[[f [av [H1 ->]]]|[H1 ->]]]].
  - destruct (getopt_loop_keeps_identity _ _ _ _ _ Ho H1) as [Hs Hu].
    cbn in Hs, Hu.
    pose proof (post_events _ _ _ _ _ _ _ Hloop H1) as Hev1.
    pose proof (post_events _ _ _ _ _ _ _ (launch_no_identity argv0 st rest Hs) H2) as Hev2.
    split.
    + apply Forall_app. split; apply Hno; [|exact Hev2].
      eapply event_ok_weaken; [|exact Hev1]. tauto.
    + intros sa fl pid Hcl.
      rewrite first_some_app in Hcl
        by (apply getopt_events_not_cloned;
            exact (cpost_events _ _ _ _ _ _ _ (getopt_loop_post argv0 opts init_locals) H1)).
      destruct (launch_clone_arg _ _ _ _ _ _ _ _ H2 Hcl) as [Eu [Es _]].
      cbn [requested]. rewrite Es, Eu, Hs, Hu. auto.
  - split.
    + apply Hno. eapply event_ok_weaken; [|exact (post_events _ _ _ _ _ _ _ Hloop H1)].
      tauto.
    + intros sa fl pid Hcl.
      rewrite getopt_events_not_cloned in Hcl; [discriminate Hcl|].
      exact (cpost_events _ _ _ _ _ _ _ (getopt_loop_post argv0 opts init_locals) H1).
  - destruct (post_outcome _ _ _ _ _ _ _ Hloop H1).
  - destruct (post_no_crash _ _ _ _ _ _ Hloop H1).
Qed.

Lemma main_without_identity_option_witness :
  run uts_mount_os (main "lxc-unshare" uts_mount_opts ["/bin/true"])
  = ([Ev Lxc_caps_init 0;
      Ev (Lxc_namespace_2_std_identifiers (Some "UTSNAME|MOUNT")) (0, Some "UTSNAME|MOUNT");
      Ev (Lxc_fill_namespace_flags (Some "UTSNAME|MOUNT") 0)
        (0, Z.lor CLONE_NEWUTS CLONE_NEWNS);
      Ev (Lxc_clone (set_args_flags (start uts_mount_locals) ["/bin/true"]
                       (Z.lor CLONE_NEWUTS CLONE_NEWNS))
            (Z.lor CLONE_NEWUTS CLONE_NEWNS)) 4242],
     Exited EXIT_SUCCESS)
  /\ Forall (fun ev => on_call (@is_identity_call) ev = false)
       (fst (run uts_mount_os (main "lxc-unshare" uts_mount_opts ["/bin/true"]))).
Proof.
  split; [reflexivity|].
  exact (proj1 (main_without_identity_option
                  "lxc-unshare" uts_mount_opts ["/bin/true"] _ _ eq_refl
                  (run_runs uts_mount_os
                     (main "lxc-unshare" uts_mount_opts ["/bin/true"])))).
Defined.

(** ** Failures of [launch] *)

(** X13 - failures are reported, with one exception ([main] after the
    option loop).  In the parent (no [fork] answers 0), whenever [launch]
    leaves with [EXIT_FAILURE] the last thing it did was to write a message
    to stderr; the one exception is the failure of [lxc_caps_init], after
    which it leaves without a word. *)
Theorem launch_reports_failure
    (argv0 : string) (st : main_locals) (rest : list string) tr out :
  runs (launch argv0 st rest) tr out ->
  (forall ev, In ev tr -> fork_answer ev <> Some 0) ->
  out = Exited EXIT_FAILURE ->
  ends_with_message tr \/ exists r, tr = [Ev Lxc_caps_init r].
Proof.
  intros H Hpar Hout.
  destruct (launch_inv _ _ _ _ _ H)
    as [[_ [E|[_ Hend]]]
       |[pre [fl [fd [pid [post [-> [_ [_ [_ [_ [_ [_ [_ Ht]]]]]]]]]]]]]].
  - rewrite E in Hout. discriminate Hout.
  - exact Hend.
  - left. apply ends_with_message_app. apply ends_with_message_cons.
    assert (Hpar' : forall ev, In ev post -> fork_answer ev <> Some 0).
    { intros ev Hin. apply Hpar. apply in_or_app. right. now right. }
    destruct (launch_tail_inv _ _ _ _ _ Ht)
      as [m Hp -> _|rq r c m Hp Hs Hr -> _|rq r w c m Hp Hs Hr Hw -> _
          |rq r w fin Hp Hs Hr Hw -> Hfin|Hp Hs Hfin].
    + apply ends_with_message_one.
    + do 3 apply ends_with_message_cons. apply ends_with_message_one.
    + do 4 apply ends_with_message_cons. apply ends_with_message_one.
    + apply ends_with_message_app.
      apply (finish_reports_failure _ _ _ _ Hfin); [|exact Hout].
      intros ev Hin. apply Hpar'. apply in_or_app. now right.
    + apply (finish_reports_failure _ _ _ _ Hfin); [exact Hpar'|exact Hout].
Qed.

Lemma launch_reports_failure_witness :
  run no_caps_os (launch "lxc-unshare" pid_locals ["/bin/true"])
  = ([Ev Lxc_caps_init (-1)], Exited EXIT_FAILURE)
  /\ (ends_with_message
        (fst (run failing_guest_os (launch "lxc-unshare" pid_locals ["/bin/true"])))
      \/ exists r,
           fst (run failing_guest_os (launch "lxc-unshare" pid_locals ["/bin/true"]))
           = [Ev Lxc_caps_init r]).
Proof.
  split; [reflexivity|].
  apply (launch_reports_failure "lxc-unshare" pid_locals ["/bin/true"] _ _
           (run_runs failing_guest_os (launch "lxc-unshare" pid_locals ["/bin/true"]))).
  - intros ev Hin. simpl in Hin.
    repeat (destruct Hin as [<-|Hin]; [discriminate|]). destruct Hin.
  - reflexivity.
Defined.

(** ** The wait for the guest *)

(** The end of [main] in the parent: with [-d] the status 0 with no wait
    but those for the helpers; without it the wait for the guest, and the
    status that its result selects. *)
Lemma finish_inv st pid fin out :
  runs (finish st pid) fin out ->
  (forall ev, In ev fin -> fork_answer ev <> Some 0) ->
  if truthy (daemonize st)
  then out = Exited EXIT_SUCCESS
       /\ map fst (observed wait_for_pid_call fin) = observed fork_answer fin
  else exists pre w,
       fin = (pre ++ guest_wait pid w)%list
       /\ map fst (observed wait_for_pid_call pre) = observed fork_answer pre
       /\ out = Exited (wait_status w).
Proof.
  intros H Hpar. unfold finish in H.
  destruct (runs_bind_split _ _ _ _ H) as [t1 [t2 [o1 [-> [H1 K]]]]].
  assert (Ho1 : o1 = Returned tt
                /\ map fst (observed wait_for_pid_call t1) = observed fork_answer t1).
  { destruct (negb (is_nil (my_iflist st))); cbn [when] in H1.
    - destruct (move_interfaces_parent _ _ _ _ H1) as [-> [_ Hm]]; [|auto].
      intros ev Hin. apply Hpar. apply in_or_app. now left.
    - destruct H1 as [-> ->]. auto. }
  destruct Ho1 as [-> Hm].
  clear H. runs_step K.
  - runs_step K. rewrite app_nil_r. auto.
  - runs_step K. exists t1, r. unfold guest_wait, wait_status.
    runs_step K.
    + runs_step K. runs_step K. destruct r0. auto.
    + runs_step K. auto.
Qed.

Lemma observed_skip {A : Type} (f : event -> option A) ev l :
  f ev = None -> observed f (ev :: l) = observed f l.
Proof. intros E. unfold observed. cbn [flat_map]. now rewrite E. Qed.

(** The same for [launch], once the guest is cloned and released. *)
Lemma launch_end argv0 st rest tr out sa fl pid :
  runs (launch argv0 st rest) tr out ->
  first_some clone_call tr = Some (sa, fl, pid) -> 0 <= pid ->
  (forall ev, In ev tr -> fork_answer ev <> Some 0) ->
  (forall ev, In ev tr -> failed_map ev = false) ->
  (forall ev, In ev tr -> failed_write ev = false) ->
  if truthy (daemonize st)
  then out = Exited EXIT_SUCCESS
       /\ map fst (observed wait_for_pid_call tr) = observed fork_answer tr
  else exists pre w,
       tr = (pre ++ guest_wait pid w)%list
       /\ map fst (observed wait_for_pid_call pre) = observed fork_answer pre
       /\ out = Exited (wait_status w).
Proof.
  intros H Hcl Hpid Hpar Hmap Hwr.
  assert (Hpc : forall T (e : syscall T) r, is_prelude_call e = true ->
                  clone_call (Ev e r) = None)
    by (intros T []; simpl; congruence).
  destruct (launch_inv _ _ _ _ _ H)
    as [[Hpre _]|[pre [fl' [fd [pid' [post [-> [Hpre [_ [_ [_ [_ [_ [_ Ht]]]]]]]]]]]]]].
  { rewrite (first_some_elsewhere clone_call (@is_prelude_call) False tr Hpc
               (fun _ _ _ => eq_refl) Hpre) in Hcl.
    discriminate Hcl. }
  clear H.
  rewrite first_some_app in Hcl
    by exact (first_some_elsewhere clone_call (@is_prelude_call) False pre Hpc
                (fun _ _ _ => eq_refl) Hpre).
  cbn in Hcl. injection Hcl as <- <- <-.
  assert (Hw0 : observed wait_for_pid_call pre = []).
  { apply (observed_elsewhere _ (@is_prelude_call) False); [|reflexivity|exact Hpre].
    intros T []; simpl; congruence. }
  assert (Hf0 : observed fork_answer pre = []).
  { apply (observed_elsewhere _ (@is_prelude_call) False); [|reflexivity|exact Hpre].
    intros T []; simpl; congruence. }
  set (cl := Ev (Lxc_clone (set_wait_fd (set_args_flags (start st) rest fl') fd) fl') pid')
    in *.
  assert (Hend : forall gate fin,
            post = (gate ++ fin)%list ->
            observed wait_for_pid_call gate = [] -> observed fork_answer gate = [] ->
            runs (finish st pid') fin out ->
            if truthy (daemonize st)
            then out = Exited EXIT_SUCCESS
                 /\ map fst (observed wait_for_pid_call (pre ++ cl :: post))
                    = observed fork_answer (pre ++ cl :: post)
            else exists pre0 w,
                 (pre ++ cl :: post)%list = (pre0 ++ guest_wait pid' w)%list
                 /\ map fst (observed wait_for_pid_call pre0) = observed fork_answer pre0
                 /\ out = Exited (wait_status w)).
  { intros gate fin -> Hgw Hgf Hfin.
    assert (Hfp : forall ev, In ev fin -> fork_answer ev <> Some 0).
    { intros ev Hin. apply Hpar. apply in_or_app. right. right.
      apply in_or_app. now right. }
    pose proof (finish_inv _ _ _ _ Hfin Hfp) as Hf.
    destruct (truthy (daemonize st)).
    - destruct Hf as [-> Hf]. split; [reflexivity|].
      rewrite !observed_app, Hw0, Hf0, !observed_skip by reflexivity.
      rewrite !observed_app, Hgw, Hgf. exact Hf.
    - destruct Hf as [pre0 [w [-> [Hf ->]]]].
      exists (pre ++ cl :: gate ++ pre0)%list, w. split; [|split; [|reflexivity]].
      + rewrite <- !app_assoc. cbn [app]. now rewrite <- !app_assoc.
      + rewrite !observed_app, Hw0, Hf0, !observed_skip by reflexivity.
        rewrite !observed_app, Hgw, Hgf. exact Hf. }
  destruct (launch_tail_inv _ _ _ _ _ Ht)
    as [m Hp -> ->|rq r c m Hp Hs Hr -> ->|rq r w c m Hp Hs Hr Hw -> ->
       |rq r w fin Hp Hs Hr Hw -> Hfin|Hp Hs Hfin].
  - lia.
  - exfalso.
    assert (E : failed_map (Ev (Write_id_mapping ID_TYPE_UID pid'
                  (snprintf_umap (uid (set_wait_fd (set_args_flags (start st) rest fl') fd)) rq)
                  (strlen (snprintf_umap
                             (uid (set_wait_fd (set_args_flags (start st) rest fl') fd)) rq)))
                  r) = false).
    { apply Hmap. apply in_or_app. right. right. right. left. reflexivity. }
    cbn in E. apply Z.ltb_ge in E. lia.
  - exfalso.
    assert (E : failed_write
                  (Ev (FdWrite (wait_fd (set_wait_fd (set_args_flags (start st) rest fl') fd))
                         1 sizeof_uint64) w) = false).
    { apply Hwr. apply in_or_app. right. right. right. right. left. reflexivity. }
    cbn in E. apply Z.ltb_ge in E. lia.
  - exact (Hend _ _ eq_refl eq_refl eq_refl Hfin).
  - exact (Hend [] _ eq_refl eq_refl eq_refl Hfin).
Qed.

(** C5, evaluated on the code: [main] does not hand on the guest's exit
    status.  Every exit status of [main] is 0 or 1.  Take a run of the
    parent in which [lxc_clone] gave a guest [pid] and the uid map and
    the eventfd, if any, were written.  Without [-d] the run ends with
    [wait_for_pid (pid)], which is its last call but for the message and its
    only wait that is not for a helper that [fork] answered; the status is 0
    when the wait answers 0, and for any other answer it is [EXIT_FAILURE]
    after the message [Failed to wait]; so for a guest that ends with
    status 7 the status of [main] is 1 when the wait reports the failure,
    and never 7.  With [-d] the run ends with status 0 and its waits are
    those for the helpers: [main] does not wait for the guest. *)
Theorem main_status_after_the_wait
    (argv0 : string) (opts : list getopt_result) (rest : list string) tr out :
  runs (main argv0 opts rest) tr out ->
  (forall c, out = Exited c -> c = EXIT_SUCCESS \/ c = EXIT_FAILURE)
  /\ (forall sa fl pid,
        first_some clone_call tr = Some (sa, fl, pid) -> 0 <= pid ->
        (forall ev, In ev tr -> fork_answer ev <> Some 0) ->
        (forall ev, In ev tr -> failed_map ev = false) ->
        (forall ev, In ev tr -> failed_write ev = false) ->
        if existsb is_opt_d opts
        then out = Exited EXIT_SUCCESS
             /\ map fst (observed wait_for_pid_call tr) = observed fork_answer tr
        else exists pre w,
             tr = (pre ++ guest_wait pid w)%list
             /\ map fst (observed wait_for_pid_call pre) = observed fork_answer pre
             /\ out = Exited (wait_status w)).
Proof.
  intros H. split.
  { intros c ->. exact (cpost_outcome _ _ _ _ _ _ _ (main_post argv0 opts rest) H). }
  intros sa fl pid Hcl Hpid Hpar Hmap Hwr. unfold main in H.
  pose proof (getopt_loop_post argv0 opts init_locals) as Hloop.
  destruct (runs_bind_inv _ _ _ _ H)
    as [[st [t1 [t2 [-> [H1 H2]]]]]|[[c [H1 ->]]|[[f [av [H1 ->]]]|[H1 ->]]]];
    pose proof (cpost_events _ _ _ _ _ _ _ Hloop H1) as Hev1;
    try (rewrite (getopt_events_not_cloned _ Hev1) in Hcl; discriminate Hcl).
  clear H.
  rewrite first_some_app in Hcl by exact (getopt_events_not_cloned _ Hev1).
  assert (Hw1 : observed wait_for_pid_call t1 = []).
  { apply (observed_elsewhere _ (@is_getopt_call) False); [|reflexivity|exact Hev1].
    intros T []; simpl; congruence. }
  assert (Hf1 : observed fork_answer t1 = []).
  { apply (observed_elsewhere _ (@is_getopt_call) False); [|reflexivity|exact Hev1].
    intros T []; simpl; congruence. }
  assert (Hd : truthy (daemonize st) = existsb is_opt_d opts).
  { destruct (getopt_loop_locals _ _ _ _ _ H1) as [_ [_ [-> _]]].
    now destruct (existsb is_opt_d opts). }
  assert (Hl := launch_end _ _ _ _ _ _ _ _ H2 Hcl Hpid
                  (fun ev Hin => Hpar ev (in_or_app _ _ _ (or_intror Hin)))
                  (fun ev Hin => Hmap ev (in_or_app _ _ _ (or_intror Hin)))
                  (fun ev Hin => Hwr ev (in_or_app _ _ _ (or_intror Hin)))).
  rewrite Hd in Hl. destruct (existsb is_opt_d opts).
  - destruct Hl as [-> Hl]. split; [reflexivity|].
    now rewrite !observed_app, Hw1, Hf1.
  - destruct Hl as [pre [w [-> [Hl ->]]]].
    exists (t1 ++ pre)%list, w. split; [apply app_assoc|]. split; [|reflexivity].
    now rewrite !observed_app, Hw1, Hf1.
Qed.

Lemma main_status_after_the_wait_witness :
  let r := run failing_guest_os
             (main "lxc-unshare" [Opt_s "PID"] ["/bin/sh"; "-c"; "exit 7"]) in
  r = ([Ev Lxc_caps_init 0;
        Ev (Lxc_namespace_2_std_identifiers (Some "PID")) (0, Some "PID");
        Ev (Lxc_fill_namespace_flags (Some "PID") 0) (0, CLONE_NEWPID);
        Ev (Lxc_clone {| args := ["/bin/sh"; "-c"; "exit 7"]; flags := CLONE_NEWPID;
                         uid := 0; setuid := false; want_default_mounts := 0;
                         wait_fd := 0; want_hostname := None |} CLONE_NEWPID) 4242;
        Ev (Wait_for_pid 4242) (-1);
        Ev (Fprintf_stderr ("Failed to wait for '%d'" ++ LF) [FInt 4242]) tt],
       Exited EXIT_FAILURE)
  /\ exists pre w,
       fst r = (pre ++ guest_wait 4242 w)%list
       /\ map fst (observed wait_for_pid_call pre) = observed fork_answer pre
       /\ snd r = Exited (wait_status w).
Proof.
  split; [reflexivity|].
  refine (proj2 (main_status_after_the_wait
                   "lxc-unshare" [Opt_s "PID"] ["/bin/sh"; "-c"; "exit 7"] _ _
                   (run_runs failing_guest_os _))
            _ _ 4242 eq_refl _ _ _ _).
  - discriminate.
  - intros ev Hin. simpl in Hin.
    repeat (destruct Hin as [<-|Hin]; [discriminate|]). destruct Hin.
  - intros ev Hin. simpl in Hin.
    repeat (destruct Hin as [<-|Hin]; [reflexivity|]). destruct Hin.
  - intros ev Hin. simpl in Hin.
    repeat (destruct Hin as [<-|Hin]; [reflexivity|]). destruct Hin.
Defined.

(** ** The test on [snprintf] *)

Lemma usage_never_snprintf {R : Type} cmd :
  post not_snprintf_failure True (@no_value R) exit_0_or_1 (usage cmd).
Proof. unfold usage. post_tac. Qed.

Lemma lookup_user_never_snprintf optarg uid0 :
  cpost not_snprintf_failure True any_value exit_0_or_1 (lookup_user optarg uid0).
Proof. unfold lookup_user. cpost_tac. Qed.

Lemma getopt_loop_never_snprintf argv0 opts st :
  cpost not_snprintf_failure True any_value exit_0_or_1 (getopt_loop argv0 opts st).
Proof.
  revert st. induction opts as [|o opts IH]; intros st; cbn [getopt_loop].
  - exact I.
  - apply cpost_bind with (PrA := any_value); [|auto].
    destruct o; cbn [handle_opt];
      cpost_auto ltac:(idtac; lazymatch goal with
        | |- cpost _ _ _ _ (lookup_user _ _) => apply lookup_user_never_snprintf
        | |- cpost _ _ _ _ (usage _) =>
            apply post_cpost; apply (@usage_never_snprintf main_locals)
        end).
Qed.

Lemma move_interfaces_never_snprintf pid ifs :
  post not_snprintf_failure True any_value exit_0_or_1 (move_interfaces pid ifs).
Proof.
  revert pid. induction ifs as [|i ifs IH]; intros pid; cbn [move_interfaces].
  - exact I.
  - post_auto ltac:(apply IH).
Qed.

Lemma launch_never_snprintf argv0 st rest :
  post not_snprintf_failure True (@no_value Z) exit_0_or_1 (launch argv0 st rest).
Proof.
  unfold launch.
  post_auto ltac:(idtac; lazymatch goal with
    | |- post _ _ _ _ (usage _) => apply (@usage_never_snprintf unit)
    | |- post _ _ _ _ (move_interfaces _ _) => apply move_interfaces_never_snprintf
    | |- post _ _ _ _ (when ((strlen (snprintf_umap _ _) <? 0) || _) _) =>
        rewrite snprintf_umap_fits; exact I
    end).
Qed.

(** X14 - the test on [snprintf] never fires ([main], the uid map line).
    The line ["%d %d 1\n"] of two 32-bit numbers is at most 26 characters
    long, so the test [ret < 0 || ret >= 100] is never true: no run of
    [main] writes the message [snprintf is failed], whatever uid is asked
    for and whatever [getuid] answers. *)
Theorem snprintf_failure_is_never_reported
    (argv0 : string) (opts : list getopt_result) (rest : list string) tr out :
  runs (main argv0 opts rest) tr out ->
  Forall (fun ev => on_call (@is_snprintf_failure) ev = false) tr.
Proof.
  intros H.
  assert (Hmain : cpost not_snprintf_failure True (@no_value Z) exit_0_or_1
                    (main argv0 opts rest)).
  { unfold main. apply cpost_bind with (PrA := any_value).
    - apply getopt_loop_never_snprintf.
    - intros st _. apply post_cpost. apply launch_never_snprintf. }
  pose proof (cpost_events _ _ _ _ _ _ _ Hmain H) as Hev.
  revert Hev. apply Forall_impl. intros [T e r|f av ok]; simpl; [|reflexivity].
  unfold not_snprintf_failure. now intros ->%negb_true_iff.
Qed.

Lemma snprintf_failure_is_never_reported_witness :
  strlen (snprintf_umap (-2147483648) (-2147483648)) = 26
  /\ Forall (fun ev => on_call (@is_snprintf_failure) ev = false)
       (fst (run remap_os (main "lxc-unshare" [Opt_s "USER"; Opt_u "1000"] ["/bin/true"]))).
Proof.
  split; [reflexivity|].
  exact (snprintf_failure_is_never_reported
           "lxc-unshare" [Opt_s "USER"; Opt_u "1000"] ["/bin/true"] _ _
           (run_runs remap_os
              (main "lxc-unshare" [Opt_s "USER"; Opt_u "1000"] ["/bin/true"]))).
Defined.

(** ** Parent, guest and helpers side by side *)

(** X15 - only the parent creates ([main], [do_start] and the helpers run
    side by side).  In every execution that starts with [main], a step of
    the guest or of an interface helper is never [lxc_clone], [fork],
    [eventfd], a write on a descriptor or [write_id_mapping]: processes, the
    eventfd and the uid map are made by the parent alone. *)
Theorem only_the_parent_creates
    (argv0 : string) (opts : list getopt_result) (rest : list string)
    (ls : list label) (s : system) (who : actor) (ev : event) :
  exec (init_system argv0 opts rest) ls s ->
  In (who, ev) ls -> who <> Parent ->
  event_ok (@is_quiet_call) True ev.
Proof.
  intros Hexec. revert who ev.
  induction Hexec as [|ls s l s' Hexec IH Hstep]; intros who ev Hin Hwho.
  - destruct Hin.
  - apply in_app_or in Hin. destruct Hin as [Hin|[E|[]]]; [now apply (IH who ev)|].
    destruct (exec_invariant _ _ _ _ _ Hexec) as [_ [_ [Hch _]]].
    destruct Hstep as [s p ev' p' g' new Hp Hps|s i who' p ev' p' g' new Hnth Hps].
    + injection E as <- _. congruence.
    + injection E as <- <-.
      rewrite Forall_forall in Hch.
      specialize (Hch _ (nth_error_In _ _ Hnth)).
      assert (Hq : quiet p).
      { destruct who'; simpl in Hch; [contradiction|tauto|exact Hch]. }
      unfold quiet in Hq. destruct Hps; cbn [post event_ok] in *; [|exact I|exact I].
      exact (proj1 Hq).
Qed.

Lemma only_the_parent_creates_witness :
  In (Guest gate_guest, Ev (Setuid 1000) 0) gate_run
  /\ event_ok (@is_quiet_call) True (Ev (Setuid 1000) 0).
Proof.
  assert (Hin : In (Guest gate_guest, Ev (Setuid 1000) 0) gate_run)
    by (apply in_or_app; right; left; reflexivity).
  split; [exact Hin|].
  destruct gate_run_exec as [s Hexec].
  apply (only_the_parent_creates "lxc-unshare" [Opt_s "USER"; Opt_u "1000"] ["/bin/true"]
           gate_run s (Guest gate_guest) (Ev (Setuid 1000) 0) Hexec Hin).
  discriminate.
Defined.

Lemma exists_run {R : Type} (p : prog R) : exists t out, runs p t out.
Proof.
  exists (fst (run quiet_os p)), (snd (run quiet_os p)).
  pose proof (run_runs quiet_os p) as H.
  now destruct (run quiet_os p).
Qed.

Lemma parent_trace_snoc ls who ev :
  parent_trace (ls ++ [(who, ev)])
  = (parent_trace ls ++ match who with Parent => [ev] | _ => [] end)%list.
Proof.
  unfold parent_trace. rewrite flat_map_app. cbn [flat_map fst snd].
  now rewrite app_nil_r.
Qed.

(** What the parent has done in an execution is the beginning of a run of
    [main]. *)
Lemma exec_parent_prefix argv0 opts rest ls s :
  exec (init_system argv0 opts rest) ls s ->
  match parent s with
  | Some p => forall t out, runs p t out ->
                runs (process (main argv0 opts rest)) (parent_trace ls ++ t) out
  | None => exists out, runs (process (main argv0 opts rest)) (parent_trace ls) out
  end.
Proof.
  induction 1 as [|ls s l s' Hexec IH Hstep].
  - cbn. auto.
  - destruct (exec_invariant _ _ _ _ _ Hexec) as [_ [_ [Hch _]]].
    destruct Hstep as [s p ev p' g' new Hp Hps|s i who p ev p' g' new Hnth Hps].
    + rewrite Hp in IH. rewrite parent_trace_snoc. cbn [parent].
      destruct Hps as [T e k r g' new _ _|f av k|f av k].
      * intros t out Hk. rewrite <- app_assoc. apply IH.
        cbn [runs app]. eauto.
      * exists (Replaced f av). apply IH. cbn [runs]. auto.
      * intros t out Hk. rewrite <- app_assoc. apply IH.
        cbn [runs app]. eauto.
    + cbn [parent]. rewrite parent_trace_snoc.
      rewrite Forall_forall in Hch. specialize (Hch _ (nth_error_In _ _ Hnth)).
      destruct who; [destruct Hch| |]; rewrite app_nil_r; exact IH.
Qed.

Lemma exec_parent_run argv0 opts rest ls s :
  exec (init_system argv0 opts rest) ls s ->
  exists t out, runs (main argv0 opts rest) (parent_trace ls ++ t) out.
Proof.
  intros Hexec. pose proof (exec_parent_prefix _ _ _ _ _ Hexec) as Hpre.
  assert (Hproc : exists t out,
             runs (process (main argv0 opts rest)) (parent_trace ls ++ t) out).
  { destruct (parent s) as [p|].
    - destruct (exists_run p) as [t [out Hrun]]. exists t, out. now apply Hpre.
    - destruct Hpre as [out Hrun]. exists [], out. now rewrite app_nil_r. }
  destruct Hproc as [t [out Hrun]]. unfold process in Hrun.
  destruct (runs_bind_inv _ _ _ _ Hrun)
    as [[a [t1 [t2 [E [H1 H2]]]]]|[[c [H1 _]]|[[f [av [H1 _]]]|[H1 _]]]]; eauto.
  destruct (cpost_outcome _ _ _ _ _ _ _ (main_post argv0 opts rest) H1).
Qed.

Lemma in_parent_trace ls ev : In (Parent, ev) ls -> In ev (parent_trace ls).
Proof.
  intros Hin. unfold parent_trace. apply in_flat_map.
  exists (Parent, ev). split; [exact Hin|now left].
Qed.

Lemma in_observed {A : Type} (f : event -> option A) tr ev a :
  In ev tr -> f ev = Some a -> In a (observed f tr).
Proof.
  intros Hin Hf. unfold observed. apply in_flat_map.
  exists ev. split; [exact Hin|]. rewrite Hf. now left.
Qed.

(** After a failed [write_id_mapping], [launch] has not written to a
    descriptor and will not. *)
Lemma launch_never_signals_after_failed_map argv0 st rest tr out ev :
  runs (launch argv0 st rest) tr out ->
  In ev tr -> failed_map ev = true -> observed written_fd tr = [].
Proof.
  intros H Hin Hev.
  destruct (launch_inv _ _ _ _ _ H)
    as [[Hpre _]|[pre [fl [fd [pid [post [-> [Hpre [_ [_ [_ [_ [_ [_ Ht]]]]]]]]]]]]]].
  { rewrite (prelude_map_unfailed _ _ Hpre Hin) in Hev. discriminate Hev. }
  apply in_app_or in Hin. destruct Hin as [Hin|[<-|Hin]].
  { rewrite (prelude_map_unfailed _ _ Hpre Hin) in Hev. discriminate Hev. }
  { discriminate Hev. }
  rewrite observed_app.
  rewrite (observed_elsewhere written_fd (@is_prelude_call) False pre);
    [|intros T []; simpl; congruence|reflexivity|exact Hpre].
  destruct (launch_tail_inv _ _ _ _ _ Ht)
    as [m Hp -> ->|rq r c m Hp Hs Hr -> ->|rq r w c m Hp Hs Hr Hw -> ->
        |rq r w fin Hp Hs Hr Hw -> Hfin|Hp Hs Hfin].
  - reflexivity.
  - reflexivity.
  - exfalso. apply Z.ltb_ge in Hr. find_event Hin Hev.
    + cbn in Hev. congruence.
    + destruct Hin.
  - exfalso. apply Z.ltb_ge in Hr. find_event Hin Hev.
    + cbn in Hev. congruence.
    + rewrite (finish_map_unfailed _ _ _ _ _ Hfin Hin) in Hev. discriminate Hev.
  - rewrite (finish_map_unfailed _ _ _ _ _ Hfin Hin) in Hev. discriminate Hev.
Qed.

Lemma main_never_signals_after_failed_map argv0 opts rest tr out ev :
  runs (main argv0 opts rest) tr out ->
  In ev tr -> failed_map ev = true -> observed written_fd tr = [].
Proof.
  intros H Hin Hev. unfold main in H.
  assert (Hget : forall t, Forall (event_ok (@is_getopt_call) False) t ->
                           forall e, In e t -> failed_map e = false).
  { intros t Ht e He. revert Ht He. apply no_failed_map_elsewhere.
    intros T []; simpl; congruence. }
  pose proof (getopt_loop_post argv0 opts init_locals) as Hloop.
  destruct (runs_bind_inv _ _ _ _ H)
    as [[st [t1 [t2 [-> [H1 H2]]]]]|[[c [H1 ->]]|[[f [av [H1 ->]]]|[H1 ->]]]].
  - pose proof (cpost_events _ _ _ _ _ _ _ Hloop H1) as Hev1.
    rewrite observed_app.
    rewrite (observed_elsewhere written_fd (@is_getopt_call) False t1);
      [|intros T []; simpl; congruence|reflexivity|exact Hev1].
    apply in_app_or in Hin. destruct Hin as [Hin|Hin].
    + rewrite (Hget _ Hev1 _ Hin) in Hev. discriminate Hev.
    + exact (launch_never_signals_after_failed_map _ _ _ _ _ _ H2 Hin Hev).
  - rewrite (Hget _ (cpost_events _ _ _ _ _ _ _ Hloop H1) _ Hin) in Hev.
    discriminate Hev.
  - destruct (cpost_outcome _ _ _ _ _ _ _ Hloop H1).
  - rewrite (Hget _ (cpost_events _ _ _ _ _ _ _ Hloop H1) _ Hin) in Hev.
    discriminate Hev.
Qed.

(** X16 - a guest left behind ([main], [do_start] and the eventfd).  When the
    parent's [write_id_mapping] fails, a guest that was to change its
    identity never takes a bootstrap step, in any execution: it does no
    filesystem setup, sets no hostname, does not call [setuid] and does not
    run its command, because the parent never writes to the eventfd. *)
Theorem failed_uid_map_strands_the_guest
    (argv0 : string) (opts : list getopt_result) (rest : list string)
    (ls : list label) (s : system) (ev : event) (a : start_arg) (ev' : event) :
  exec (init_system argv0 opts rest) ls s ->
  In (Parent, ev) ls -> failed_map ev = true ->
  In (Guest a, ev') ls -> setuid a = true ->
  is_bootstrap_event ev' = false.
Proof.
  intros Hexec Hin Hev Hin' Hs.
  destruct (is_bootstrap_event ev') eqn:Hb; [exfalso|reflexivity].
  destruct (exec_invariant _ _ _ _ _ Hexec) as [_ [_ [_ [Hgg _]]]].
  destruct (in_split _ _ Hin') as [l1 [l2 Hls]].
  assert (Hguard : guest_guarded (Guest a, ev') = Some (wait_fd a)).
  { destruct ev' as [T e r|f av ok]; simpl in *.
    - unfold guarded_call. rewrite Hs, Hb. now rewrite orb_true_r.
    - now rewrite Hs. }
  destruct (Hgg _ _ _ _ Hls Hguard) as [w [Hw Hsig]].
  assert (Hwritten : exists e fd, In (Parent, e) ls /\ written_fd e = Some fd).
  { destruct w as [[|a'|] [T e r|f av ok]]; simpl in Hsig; try discriminate Hsig.
    destruct e; simpl in Hsig; try discriminate Hsig.
    exists (Ev (FdWrite fd val count) r), fd. split; [|reflexivity].
    rewrite Hls. apply in_or_app. now left. }
  destruct Hwritten as [e [fd [Hine Hfd]]].
  destruct (exec_parent_run _ _ _ _ _ Hexec) as [t [out Hrun]].
  assert (Hnone : observed written_fd (parent_trace ls ++ t) = []).
  { apply (main_never_signals_after_failed_map _ _ _ _ _ ev Hrun); [|exact Hev].
    apply in_or_app. left. now apply in_parent_trace. }
  assert (Hsome : In fd (observed written_fd (parent_trace ls ++ t))).
  { apply (in_observed _ _ e); [|exact Hfd].
    apply in_or_app. left. now apply in_parent_trace. }
  rewrite Hnone in Hsome. destruct Hsome.
Qed.

Lemma stranded_run_exec :
  exists s, exec (init_system "lxc-unshare" [Opt_s "MOUNT"; Opt_u "1000"] ["/bin/true"])
              stranded_run s.
Proof.
  eexists. unfold stranded_run, init_system.
  do 11 parent_steps.
  guest_steps. parent_steps. guest_steps. parent_steps. guest_steps.
  apply exec_nil.
Qed.

Lemma failed_uid_map_strands_the_guest_witness :
  In (Parent, Ev (Write_id_mapping ID_TYPE_UID 4242 ("1000 0 1" ++ LF)%string 9) (-1))
    stranded_run
  /\ In (Guest stranded_guest, Ev (FdRead 3 8) (-1)) stranded_run
  /\ is_bootstrap_event (Ev (FdRead 3 8) (-1)) = false.
Proof.
  assert (Hp : In (Parent,
                   Ev (Write_id_mapping ID_TYPE_UID 4242 ("1000 0 1" ++ LF)%string 9) (-1))
                 stranded_run) by (simpl; tauto).
  assert (Hg : In (Guest stranded_guest, Ev (FdRead 3 8) (-1)) stranded_run)
    by (simpl; tauto).
  split; [exact Hp|]. split; [exact Hg|].
  destruct stranded_run_exec as [s Hexec].
  exact (failed_uid_map_strands_the_guest
           "lxc-unshare" [Opt_s "MOUNT"; Opt_u "1000"] ["/bin/true"] stranded_run s
           _ stranded_guest _ Hexec Hp eq_refl Hg eq_refl).
Defined.

Lemma cloned_mono ls l who : cloned ls who -> cloned (ls ++ [l]) who.
Proof.
  destruct who as [|a|]; simpl; auto.
  intros [x [fl [pid [Hin H]]]]. exists x, fl, pid. split; [|exact H].
  apply in_or_app. now left.
Qed.

(** The guests among the children, and the guests that have moved, were
    cloned by the parent. *)
Lemma exec_cloned argv0 opts rest ls s :
  exec (init_system argv0 opts rest) ls s ->
  Forall (fun c => cloned ls (fst c)) (children s)
  /\ (forall who ev, In (who, ev) ls -> cloned ls who).
Proof.
  induction 1 as [|ls s l s' Hexec [IHc IHl] Hstep].
  - split; [constructor|]. intros who ev [].
  - destruct (exec_invariant _ _ _ _ _ Hexec) as [_ [_ [Hch _]]].
    assert (Hold : Forall (fun c => cloned (ls ++ [l]) (fst c)) (children s)).
    { revert IHc. apply Forall_impl. intros c. apply cloned_mono. }
    destruct Hstep as [s p ev p' g' new Hp Hps|s i who p ev p' g' new Hnth Hps].
    + split.
      * cbn [children]. apply Forall_app. split; [exact Hold|].
        destruct Hps as [T e k r g' new _ Hsp|f av k|f av k]; try constructor.
        destruct e; simpl in Hsp; try (injection Hsp as <-; constructor).
        -- destruct (Z.ltb_spec r 0) as [Hr|Hr]; injection Hsp as <-; cbn [map];
             constructor; [|constructor].
           cbn. exists (Parent, Ev (Lxc_clone arg fl) r), fl, r.
           split; [apply in_or_app; right; now left|]. split; [reflexivity|exact Hr].
        -- destruct (r =? 0); [discriminate Hsp|]. injection Hsp as <-.
           destruct (r <? 0); cbn [map]; constructor; [exact I|constructor].
      * intros who ev' Hin. apply in_app_or in Hin. destruct Hin as [Hin|[E|[]]].
        -- apply cloned_mono. eauto.
        -- injection E as <- _. exact I.
    + rewrite Forall_forall in Hch.
      pose proof (Hch _ (nth_error_In _ _ Hnth)) as Hc.
      assert (Hq : quiet p).
      { destruct who; simpl in Hc; [contradiction|tauto|exact Hc]. }
      assert (Hwho : cloned (ls ++ [(who, ev)]) who).
      { apply cloned_mono. rewrite Forall_forall in IHc.
        exact (IHc _ (nth_error_In _ _ Hnth)). }
      split.
      * cbn [children]. apply Forall_app. split.
        -- apply Forall_replace_nth; [exact Hold|exact Hwho].
        -- unfold quiet in Hq.
           destruct Hps as [T e k r g' new _ Hsp|f av k|f av k]; try constructor.
           cbn [post] in Hq. destruct Hq as [Hq _].
           destruct (quiet_call_effects e k r Hq) as [Hnew _].
           rewrite Hnew in Hsp. injection Hsp as <-. constructor.
      * intros who' ev' Hin. apply in_app_or in Hin. destruct Hin as [Hin|[E|[]]].
        -- apply cloned_mono. eauto.
        -- injection E as <- _. exact Hwho.
Qed.

Lemma not_observed_elsewhere {A : Type} (f : event -> option A)
    (Pe : forall T : Type, syscall T -> bool) (Px : Prop) tr ev a :
  (forall T (e : syscall T) r, Pe T e = true -> f (Ev e r) = None) ->
  (forall g av ok, f (EvExec g av ok) = None) ->
  Forall (event_ok Pe Px) tr -> In ev tr -> f ev = Some a -> False.
Proof.
  intros He Hx Hall Hin Hf. rewrite Forall_forall in Hall. specialize (Hall _ Hin).
  destruct ev as [T e r|g av ok]; simpl in Hall.
  - rewrite (He _ _ _ Hall) in Hf. discriminate Hf.
  - rewrite Hx in Hf. discriminate Hf.
Qed.

(** The request of any [lxc_clone] in a run of [main]. *)
Lemma main_clone_inv argv0 opts rest tr out ev sa fl pid :
  runs (main argv0 opts rest) tr out ->
  In ev tr -> clone_call ev = Some (sa, fl, pid) ->
  args sa = rest /\ rest <> [] /\ flags sa = fl
  /\ requested sa Set_hostname = is_some (want_hostname sa)
  /\ requested sa Default_mounts = truthy (want_default_mounts sa).
Proof.
  intros H Hin Hcl. unfold main in H.
  assert (Hgc : forall T (e : syscall T) r, is_getopt_call e = true ->
                                            clone_call (Ev e r) = None)
    by (intros T []; simpl; congruence).
  assert (Hpc : forall T (e : syscall T) r, is_prelude_call e = true ->
                                            clone_call (Ev e r) = None)
    by (intros T []; simpl; congruence).
  assert (Htc : forall T (e : syscall T) r, is_tail_call e = true ->
                                            clone_call (Ev e r) = None)
    by (intros T []; simpl; congruence).
  pose proof (getopt_loop_post argv0 opts init_locals) as Hloop.
  destruct (runs_bind_inv _ _ _ _ H)
    as [[st [t1 [t2 [-> [H1 H2]]]]]|[[c [H1 ->]]|[[f [av [H1 ->]]]|[H1 ->]]]].
  - apply in_app_or in Hin. destruct Hin as [Hin|Hin].
    { destruct (not_observed_elsewhere _ _ _ _ _ _ Hgc (fun _ _ _ => eq_refl)
                  (cpost_events _ _ _ _ _ _ _ Hloop H1) Hin Hcl). }
    destruct (launch_inv _ _ _ _ _ H2)
      as [[Hpre _]
         |[pre [fl' [fd [pid' [post [-> [Hpre [_ [Hrest [_ [Huts [Hmnt [_ Ht]]]]]]]]]]]]]].
    { destruct (not_observed_elsewhere _ _ _ _ _ _ Hpc (fun _ _ _ => eq_refl)
                  Hpre Hin Hcl). }
    apply in_app_or in Hin. destruct Hin as [Hin|[<-|Hin]].
    { destruct (not_observed_elsewhere _ _ _ _ _ _ Hpc (fun _ _ _ => eq_refl)
                  Hpre Hin Hcl). }
    2:{ destruct (not_observed_elsewhere _ _ _ _ _ _ Htc (fun _ _ _ => eq_refl)
                    (post_events _ _ _ _ _ _ _ (launch_tail_calls _ _ _) Ht) Hin Hcl). }
    cbn in Hcl. injection Hcl as <- <- <-.
    cbn [requested args flags want_hostname want_default_mounts set_wait_fd
         set_args_flags].
    split; [reflexivity|]. split; [exact Hrest|]. split; [reflexivity|]. split.
    + destruct (want_hostname (start st)) as [h|]; cbn [is_some].
      * rewrite Huts by discriminate. reflexivity.
      * apply andb_false_r.
    + destruct (truthy (want_default_mounts (start st))) eqn:Hm.
      * rewrite Hmnt by reflexivity. reflexivity.
      * apply andb_false_r.
  - destruct (not_observed_elsewhere _ _ _ _ _ _ Hgc (fun _ _ _ => eq_refl)
                (cpost_events _ _ _ _ _ _ _ Hloop H1) Hin Hcl).
  - destruct (cpost_outcome _ _ _ _ _ _ _ Hloop H1).
  - destruct (not_observed_elsewhere _ _ _ _ _ _ Hgc (fun _ _ _ => eq_refl)
                (cpost_events _ _ _ _ _ _ _ Hloop H1) Hin Hcl).
Qed.

(** X17 - the guest runs the validated request ([main] and [do_start] side
    by side).  In every execution, a guest that takes a step was created by
    a successful [lxc_clone] of the parent, and the request it runs
    [do_start] on is the one that passed the validation: its command is the
    one of the command line (which is not empty), its flags are the flags of
    the clone, and its own tests on the flags let a given hostname and [-M]
    through. *)
Theorem guest_runs_the_validated_request
    (argv0 : string) (opts : list getopt_result) (rest : list string)
    (ls : list label) (s : system) (a : start_arg) (ev : event) :
  exec (init_system argv0 opts rest) ls s ->
  In (Guest a, ev) ls ->
  (exists l pid, In l ls /\ parent_clone l = Some (a, flags a, pid) /\ 0 <= pid)
  /\ args a = rest /\ rest <> []
  /\ requested a Set_hostname = is_some (want_hostname a)
  /\ requested a Default_mounts = truthy (want_default_mounts a).
Proof.
  intros Hexec Hin.
  destruct (exec_cloned _ _ _ _ _ Hexec) as [_ Hcl].
  destruct (Hcl _ _ Hin) as [l [fl [pid [Hl [Hpc Hpid]]]]].
  destruct (exec_parent_run _ _ _ _ _ Hexec) as [t [out Hrun]].
  destruct l as [[|a'|] e]; try discriminate Hpc. cbn in Hpc.
  assert (Hine : In e (parent_trace ls ++ t))
    by (apply in_or_app; left; now apply in_parent_trace).
  destruct (main_clone_inv _ _ _ _ _ _ _ _ _ Hrun Hine Hpc)
    as [Ha [Hrest [Hfl [Hh Hm]]]].
  split; [|auto]. exists (Parent, e), pid. rewrite Hfl. auto.
Qed.

Lemma guest_runs_the_validated_request_witness :
  In (Guest gate_guest, Ev (Setuid 1000) 0) gate_run
  /\ args gate_guest = ["/bin/true"]
  /\ exists l pid, In l gate_run
                   /\ parent_clone l = Some (gate_guest, flags gate_guest, pid)
                   /\ 0 <= pid.
Proof.
  assert (Hin : In (Guest gate_guest, Ev (Setuid 1000) 0) gate_run)
    by (apply in_or_app; right; left; reflexivity).
  split; [exact Hin|].
  destruct gate_run_exec as [s Hexec].
  destruct (guest_runs_the_validated_request
              "lxc-unshare" [Opt_s "USER"; Opt_u "1000"] ["/bin/true"]
              gate_run s gate_guest (Ev (Setuid 1000) 0) Hexec Hin)
    as [Hcl [Ha _]].
  split; [exact Ha|exact Hcl].
Defined.

(** ** The uid map line for large uids *)

(** X18 - uids from [2 ^ 31] on ([main], the [snprintf] of the uid map
    line).  The line is printed with [%d], which reads the [uid_t] as an
    [int]: for a target uid from [2 ^ 31] on, the line handed to
    [write_id_mapping] starts with a minus sign, followed by the numeral of
    [2 ^ 32 - uid], whatever the requester is. *)
Theorem uid_map_line_of_a_large_uid (target requester : Z) :
  2 ^ 31 <= target < 2 ^ 32 ->
  exists digits,
    snprintf_umap target requester
    = ("-" ++ digits ++ " " ++ fmt_d requester ++ " 1" ++ LF)%string
    /\ parse_digits digits 0 = 2 ^ 32 - target.
Proof.
  intros Ht. exists (dec_digits 10 (2 ^ 32 - target) "").
  assert (Hv : as_int32 target = target - 2 ^ 32).
  { unfold as_int32. rewrite Z.mod_small by lia.
    destruct (Z.ltb_spec target (2 ^ 31)); lia. }
  split.
  - unfold snprintf_umap, fmt_d. rewrite Hv.
    destruct (Z.ltb_spec (target - 2 ^ 32) 0) as [_|H]; [|lia].
    replace (- (target - 2 ^ 32)) with (2 ^ 32 - target) by lia.
    generalize (dec_digits 10 (2 ^ 32 - target) ""). intros d.
    cbn [append]. reflexivity.
  - rewrite parse_dec_digits; [reflexivity|]. simpl Z.of_nat. lia.
Qed.

Lemma uid_map_line_of_a_large_uid_witness :
  snprintf_umap 4294967294 0 = ("-2 0 1" ++ LF)%string
  /\ exists digits,
       snprintf_umap 4294967294 0
       = ("-" ++ digits ++ " " ++ fmt_d 0 ++ " 1" ++ LF)%string
       /\ parse_digits digits 0 = 2 ^ 32 - 4294967294.
Proof.
  split; [reflexivity|].
  apply (uid_map_line_of_a_large_uid 4294967294 0). lia.
Defined.
